(** * The IIOD responder (iiod-responder.c): a shallow embedding

    The responder multiplexes many client handles ("readers") over one
    byte transport.  This file embeds its C code as Rocq functions:

    - integers are [Z] with the C conversions written out;
    - process memory is a map from addresses to bytes, and a buffer
      descriptor [iiod_buf] is an (address, size) pair into it;
    - the transport callbacks ([read], [write], [discard], [cmd]) are the
      fields of [iiod_responder_ops], threaded through a [world] that also
      records every callback invocation;
    - the handles live in a store indexed by pointer; the two intrusive
      lists are the [r_next] / [w_next] chains inside that store;
    - loops whose termination depends on the data (list walks, transfer
      loops) take a fuel argument; a blocked call is a [None].  *)

From Stdlib Require Import ZArith List Bool Lia.
From Stdlib Require Import Strings.Byte.
Import ListNotations.
Local Open Scope Z_scope.

(* ------------------------------------------------------------------ *)
(** ** C integers *)

(** [size_t] is 64 bits wide; conversions to it wrap. *)
Definition to_size_t (x : Z) : Z := x mod 2 ^ 64.

Definition to_uint16 (x : Z) : Z := x mod 2 ^ 16.

(** Conversion to [int32_t] (two's complement truncation). *)
Definition to_int32 (x : Z) : Z := (x + 2 ^ 31) mod 2 ^ 32 - 2 ^ 31.

Definition EINVAL : Z := 22.
Definition EPIPE : Z := 32.

(** [ARRAY_SIZE(bufs)] in [iiod_rw_all]. *)
Definition ARRAY_SIZE_bufs : Z := 32.

(* ------------------------------------------------------------------ *)
(** ** Frames and buffers (iiod-responder.h) *)

Definition IIOD_OP_RESPONSE : Z := 0.
Definition IIOD_OP_PRINT : Z := 1.
Definition IIOD_OP_VERSION : Z := 2.

(** [struct iiod_command]: 8 bytes. *)
Record iiod_command : Type := mk_cmd {
  cmd_client_id : Z;   (* uint16_t *)
  cmd_op : Z;          (* uint8_t *)
  cmd_dev : Z;         (* uint8_t *)
  cmd_code : Z         (* int32_t *)
}.

Definition sizeof_cmd : Z := 8.

(** [struct iiod_buf]. *)
Record iiod_buf : Type := mk_buf {
  ptr : Z;
  size : Z             (* size_t *)
}.

Definition set_size (b : iiod_buf) (n : Z) : iiod_buf :=
  {| ptr := ptr b; size := n |}.

(** Total size of a descriptor list. *)
Fixpoint capacity (bufs : list iiod_buf) : Z :=
  match bufs with
  | [] => 0
  | b :: rest => size b + capacity rest
  end.

(* ------------------------------------------------------------------ *)
(** ** Memory *)

Definition mem : Type := Z -> byte.

Definition mem_init : mem := fun _ => x00.

Definition mem_set (m : mem) (a : Z) (b : byte) : mem :=
  fun a' => if a' =? a then b else m a'.

Fixpoint store_bytes (m : mem) (a : Z) (bs : list byte) : mem :=
  match bs with
  | [] => m
  | b :: bs' => store_bytes (mem_set m a b) (a + 1) bs'
  end.

Fixpoint load_bytes (m : mem) (a : Z) (n : nat) : list byte :=
  match n with
  | O => []
  | S n' => m a :: load_bytes m (a + 1) n'
  end.

(** Bytes spread over a descriptor list, in order (scatter), and the
    bytes a descriptor list designates (gather). *)
Fixpoint scatter (m : mem) (bufs : list iiod_buf) (bs : list byte) : mem :=
  match bufs with
  | [] => m
  | b :: rest =>
      let n := Z.to_nat (size b) in
      scatter (store_bytes m (ptr b) (firstn n bs)) rest (skipn n bs)
  end.

Fixpoint gather (m : mem) (bufs : list iiod_buf) : list byte :=
  match bufs with
  | [] => []
  | b :: rest => load_bytes m (ptr b) (Z.to_nat (size b)) ++ gather m rest
  end.

(** The in-memory layout of [struct iiod_command] (host endianness; the
    model fixes little-endian). *)
Definition byte_of_Z (x : Z) : byte :=
  match Byte.of_N (Z.to_N (x mod 256)) with
  | Some b => b
  | None => x00
  end.

Definition Z_of_byte (b : byte) : Z := Z.of_N (Byte.to_N b).

Definition encode_cmd (c : iiod_command) : list byte :=
  let code := cmd_code c mod 2 ^ 32 in
  [ byte_of_Z (cmd_client_id c); byte_of_Z (cmd_client_id c / 2 ^ 8);
    byte_of_Z (cmd_op c); byte_of_Z (cmd_dev c);
    byte_of_Z code; byte_of_Z (code / 2 ^ 8);
    byte_of_Z (code / 2 ^ 16); byte_of_Z (code / 2 ^ 24) ].

Definition decode_cmd (bs : list byte) : iiod_command :=
  let b i := Z_of_byte (nth i bs x00) in
  {| cmd_client_id := b 0%nat + 2 ^ 8 * b 1%nat;
     cmd_op := b 2%nat;
     cmd_dev := b 3%nat;
     cmd_code := to_int32 (b 4%nat + 2 ^ 8 * b 5%nat
                           + 2 ^ 16 * b 6%nat + 2 ^ 24 * b 7%nat) |}.

(* ------------------------------------------------------------------ *)
(** ** The transport and the world it acts on *)

(** What the transport and the user callbacks were asked to do, in
    order.  [Io_cleanup] is an invocation of a cleanup callback. *)
Inductive io_event : Type :=
| Io_read (bufs : list iiod_buf) (ret : Z)
| Io_write (bufs : list iiod_buf) (ret : Z)
| Io_discard (bytes : Z) (ret : Z)
| Io_cmd (c : iiod_command) (ret : Z)
| Io_cleanup (cb : nat) (d : Z) (ret : Z).

Definition io_ret (e : io_event) : Z :=
  match e with
  | Io_read _ r | Io_write _ r | Io_discard _ r | Io_cmd _ r
  | Io_cleanup _ _ r => r
  end.

(** Result of a piece of C code run with fuel: a value, undefined
    behaviour (an access past the descriptor array), or fuel exhausted. *)
Inductive outcome (A : Type) : Type :=
| Ret (a : A)
| Undefined
| OutOfFuel.
Arguments Ret {A} a.
Arguments Undefined {A}.
Arguments OutOfFuel {A}.

Section Transport.

Variable T : Type.

(** [struct iiod_responder_ops], with the opaque [void *d] as [T]. *)
Record iiod_responder_ops : Type := {
  op_cmd : iiod_command -> T -> mem -> Z * T * mem;
  op_read : T -> mem -> list iiod_buf -> Z * T * mem;
  op_write : T -> mem -> list iiod_buf -> Z * T;
  op_discard : T -> Z -> Z * T
}.

Record world : Type := mk_world {
  w_mem : mem;
  w_tr : T;
  w_log : list io_event
}.

Variable ops : iiod_responder_ops.

(** [priv->ops->read(priv->d, curr, nb)] and friends. *)
Definition do_read (w : world) (bufs : list iiod_buf) : Z * world :=
  let '(ret, t, m) := op_read ops (w_tr w) (w_mem w) bufs in
  (ret, {| w_mem := m; w_tr := t; w_log := w_log w ++ [Io_read bufs ret] |}).

Definition do_write (w : world) (bufs : list iiod_buf) : Z * world :=
  let '(ret, t) := op_write ops (w_tr w) (w_mem w) bufs in
  (ret, {| w_mem := w_mem w; w_tr := t;
           w_log := w_log w ++ [Io_write bufs ret] |}).

Definition do_discard (w : world) (bytes : Z) : Z * world :=
  let '(ret, t) := op_discard ops (w_tr w) bytes in
  (ret, {| w_mem := w_mem w; w_tr := t;
           w_log := w_log w ++ [Io_discard bytes ret] |}).

Definition do_cmd (w : world) (c : iiod_command) : Z * world :=
  let '(ret, t, m) := op_cmd ops c (w_tr w) (w_mem w) in
  (ret, {| w_mem := m; w_tr := t; w_log := w_log w ++ [Io_cmd c ret] |}).

Definition do_cleanup (w : world) (cb : nat) (d : Z) (ret : Z) : world :=
  {| w_mem := w_mem w; w_tr := w_tr w;
     w_log := w_log w ++ [Io_cleanup cb d ret] |}.

(* ---------------------------------------------------------------- *)
(** ** iiod_rw_all *)

(** The inner loop
    [while (ret && (size_t) ret >= curr->size) { ret -= curr->size;
       count += curr->size; nb--; curr++; }].
    [curr] is the working array from the current descriptor on; reading
    [curr->size] past its end is undefined. *)
Fixpoint rw_advance (curr : list iiod_buf) (ret count nb : Z)
  : option (Z * Z * Z * list iiod_buf) :=
  if ret =? 0 then Some (ret, count, nb, curr)
  else
    match curr with
    | [] => None
    | c :: rest =>
        if size c <=? to_size_t ret
        then rw_advance rest (ret - size c) (count + size c)
                        (to_size_t (nb - 1))
        else Some (ret, count, nb, curr)
    end.

(** The [while (true)] loop of [iiod_rw_all]; one unit of fuel per
    iteration.  The transport is handed [nb] descriptors starting at
    [curr]; when fewer than [nb] initialised descriptors remain it would
    be handed indeterminate ones, which the model reports as undefined. *)
Fixpoint rw_loop (fuel : nat) (bytes : Z) (is_read : bool) (w : world)
    (curr : list iiod_buf) (nb count : Z) : outcome Z * world :=
  match fuel with
  | O => (OutOfFuel, w)
  | S fuel' =>
      match curr with
      | [] => (Undefined, w)
      | c :: rest =>
          let trunc := is_read && (to_size_t (bytes - count) <=? size c) in
          let c1 := if trunc then set_size c (to_size_t (bytes - count))
                    else c in
          let nb1 := if trunc then 1 else nb in
          if Z.of_nat (length (c1 :: rest)) <? nb1 then (Undefined, w)
          else
          let '(ret, w1) :=
            if is_read then do_read w (firstn (Z.to_nat nb1) (c1 :: rest))
            else do_write w (firstn (Z.to_nat nb1) (c1 :: rest)) in
          if ret <=? 0 then (Ret ret, w1)
          else
            match rw_advance (c1 :: rest) ret count nb1 with
            | None => (Undefined, w1)
            | Some (ret2, count2, nb2, curr2) =>
                if (ret2 =? 0) && (nb2 =? 0) then (Ret count2, w1)
                else
                  match curr2 with
                  | [] => (Undefined, w1)
                  | c2 :: rest2 =>
                      rw_loop fuel' bytes is_read w1
                        ({| ptr := ptr c2 + ret2; size := size c2 - ret2 |}
                           :: rest2)
                        nb2 (count2 + ret2)
                  end
            end
      end
  end.

(** [iiod_rw_all(priv, cmd_buf, buf, nb, bytes, is_read)].  [cmd_buf]
    and [buf] may be [NULL] ([None]); [buf] points to the caller's
    descriptor array, of which [memcpy] copies [nb] entries (the model
    copies what the array holds). *)
Definition iiod_rw_all (fuel : nat) (w : world)
    (cmd_buf : option iiod_buf) (buf : option (list iiod_buf))
    (nb : Z) (bytes : Z) (is_read : bool) : outcome Z * world :=
  let nb := match cmd_buf with
            | Some _ => to_size_t (nb + 1)
            | None => nb
            end in
  if (nb =? 0) || (ARRAY_SIZE_bufs <? nb) then (Ret EINVAL, w)
  else
    let bufs :=
      match cmd_buf with
      | Some cb =>
          cb :: match buf with
                | Some l => firstn (Z.to_nat (nb - 1)) l
                | None => []
                end
      | None =>
          match buf with
          | Some l => firstn (Z.to_nat nb) l
          | None => []
          end
      end in
    rw_loop fuel bytes is_read w bufs nb 0.

End Transport.

Arguments op_cmd {T} _.
Arguments op_read {T} _.
Arguments op_write {T} _.
Arguments op_discard {T} _.
Arguments w_mem {T} _.
Arguments w_tr {T} _.
Arguments w_log {T} _.
Arguments mk_world {T} _ _ _.

(* ------------------------------------------------------------------ *)
(** ** Handles and the responder *)

(** A [struct iiod_reader *]; [NULL] is [None] at the places that hold
    one. *)
Definition handle : Type := nat.

(** An [iiod_async_cleanup_t] function pointer, by name. *)
Definition callback : Type := nat.

(** [struct iiod_client_data]. *)
Record iiod_client_data : Type := mk_client_data {
  cmd : iiod_command;
  buf : option (list iiod_buf);
  nb_buf : Z;
  cleanup_cb : option callback;
  cleanup_cb_d : Z
}.

(** [struct iiod_reader].  The back pointer [responder] is left out (the
    model has one responder) and so is [cond]: a thread sleeping on it is
    a call that is not enabled yet. *)
Record iiod_reader : Type := mk_reader {
  r_next : option handle;
  w_next : option handle;
  client_id : Z;
  r_done : bool;
  w_done : bool;
  w_io : iiod_client_data;
  r_io : iiod_client_data
}.

(** A thread pointer: [NULL], an [ERR_PTR], or a running thread. *)
Inductive thrd_ptr : Type :=
| Thrd_null
| Thrd_err
| Thrd_ok.

(** [struct iiod_responder]; a mutex or condition variable pointer is
    [true] when it is not [NULL]. *)
Record iiod_responder : Type := mk_responder {
  readers : option handle;
  next_client_id : Z;
  lock : bool;
  rlock : bool;
  wlock : bool;
  read_thrd : thrd_ptr;
  write_thrd : thrd_ptr;
  writers : option handle;
  wcond : bool;
  thrd_stop : bool
}.

(** The responder and the handles allocated from it. *)
Record state : Type := mk_state {
  priv : iiod_responder;
  heap : handle -> iiod_reader
}.

(** What [zalloc] returns. *)
Definition zero_cmd : iiod_command :=
  {| cmd_client_id := 0; cmd_op := 0; cmd_dev := 0; cmd_code := 0 |}.

Definition zero_client_data : iiod_client_data :=
  {| cmd := zero_cmd; buf := None; nb_buf := 0;
     cleanup_cb := None; cleanup_cb_d := 0 |}.

Definition zero_reader : iiod_reader :=
  {| r_next := None; w_next := None; client_id := 0;
     r_done := false; w_done := false;
     w_io := zero_client_data; r_io := zero_client_data |}.

Definition zero_responder : iiod_responder :=
  {| readers := None; next_client_id := 0;
     lock := false; rlock := false; wlock := false;
     read_thrd := Thrd_null; write_thrd := Thrd_null;
     writers := None; wcond := false; thrd_stop := false |}.

(** Field assignments. *)
Definition set_cmd_code (c : iiod_command) (v : Z) : iiod_command :=
  {| cmd_client_id := cmd_client_id c; cmd_op := cmd_op c;
     cmd_dev := cmd_dev c; cmd_code := v |}.

Definition set_io_code (d : iiod_client_data) (v : Z) : iiod_client_data :=
  {| cmd := set_cmd_code (cmd d) v; buf := buf d; nb_buf := nb_buf d;
     cleanup_cb := cleanup_cb d; cleanup_cb_d := cleanup_cb_d d |}.

Definition set_r_next (v : option handle) (r : iiod_reader) : iiod_reader :=
  {| r_next := v; w_next := w_next r; client_id := client_id r;
     r_done := r_done r; w_done := w_done r; w_io := w_io r; r_io := r_io r |}.

Definition set_w_next (v : option handle) (r : iiod_reader) : iiod_reader :=
  {| r_next := r_next r; w_next := v; client_id := client_id r;
     r_done := r_done r; w_done := w_done r; w_io := w_io r; r_io := r_io r |}.

Definition set_client_id (v : Z) (r : iiod_reader) : iiod_reader :=
  {| r_next := r_next r; w_next := w_next r; client_id := v;
     r_done := r_done r; w_done := w_done r; w_io := w_io r; r_io := r_io r |}.

Definition set_r_done (v : bool) (r : iiod_reader) : iiod_reader :=
  {| r_next := r_next r; w_next := w_next r; client_id := client_id r;
     r_done := v; w_done := w_done r; w_io := w_io r; r_io := r_io r |}.

Definition set_w_done (v : bool) (r : iiod_reader) : iiod_reader :=
  {| r_next := r_next r; w_next := w_next r; client_id := client_id r;
     r_done := r_done r; w_done := v; w_io := w_io r; r_io := r_io r |}.

Definition set_w_io (v : iiod_client_data) (r : iiod_reader) : iiod_reader :=
  {| r_next := r_next r; w_next := w_next r; client_id := client_id r;
     r_done := r_done r; w_done := w_done r; w_io := v; r_io := r_io r |}.

Definition set_r_io (v : iiod_client_data) (r : iiod_reader) : iiod_reader :=
  {| r_next := r_next r; w_next := w_next r; client_id := client_id r;
     r_done := r_done r; w_done := w_done r; w_io := w_io r; r_io := v |}.

Definition set_readers (v : option handle) (p : iiod_responder)
  : iiod_responder :=
  {| readers := v; next_client_id := next_client_id p;
     lock := lock p; rlock := rlock p; wlock := wlock p;
     read_thrd := read_thrd p; write_thrd := write_thrd p;
     writers := writers p; wcond := wcond p; thrd_stop := thrd_stop p |}.

Definition set_writers (v : option handle) (p : iiod_responder)
  : iiod_responder :=
  {| readers := readers p; next_client_id := next_client_id p;
     lock := lock p; rlock := rlock p; wlock := wlock p;
     read_thrd := read_thrd p; write_thrd := write_thrd p;
     writers := v; wcond := wcond p; thrd_stop := thrd_stop p |}.

Definition set_next_client_id (v : Z) (p : iiod_responder)
  : iiod_responder :=
  {| readers := readers p; next_client_id := v;
     lock := lock p; rlock := rlock p; wlock := wlock p;
     read_thrd := read_thrd p; write_thrd := write_thrd p;
     writers := writers p; wcond := wcond p; thrd_stop := thrd_stop p |}.

Definition set_thrd_stop (v : bool) (p : iiod_responder) : iiod_responder :=
  {| readers := readers p; next_client_id := next_client_id p;
     lock := lock p; rlock := rlock p; wlock := wlock p;
     read_thrd := read_thrd p; write_thrd := write_thrd p;
     writers := writers p; wcond := wcond p; thrd_stop := v |}.

Definition set_read_thrd (v : thrd_ptr) (p : iiod_responder)
  : iiod_responder :=
  {| readers := readers p; next_client_id := next_client_id p;
     lock := lock p; rlock := rlock p; wlock := wlock p;
     read_thrd := v; write_thrd := write_thrd p;
     writers := writers p; wcond := wcond p; thrd_stop := thrd_stop p |}.

Definition set_write_thrd (v : thrd_ptr) (p : iiod_responder)
  : iiod_responder :=
  {| readers := readers p; next_client_id := next_client_id p;
     lock := lock p; rlock := rlock p; wlock := wlock p;
     read_thrd := read_thrd p; write_thrd := v;
     writers := writers p; wcond := wcond p; thrd_stop := thrd_stop p |}.

(** In-place update of the handle at [p]. *)
Definition upd (h : handle -> iiod_reader) (p : handle)
    (f : iiod_reader -> iiod_reader) : handle -> iiod_reader :=
  fun q => if Nat.eqb q p then f (h q) else h q.

Definition with_priv (st : state) (f : iiod_responder -> iiod_responder)
  : state :=
  {| priv := f (priv st); heap := heap st |}.

Definition with_reader (st : state) (p : handle)
    (f : iiod_reader -> iiod_reader) : state :=
  {| priv := priv st; heap := upd (heap st) p f |}.

(* ------------------------------------------------------------------ *)
(** ** The two intrusive lists *)

(** The loop of [__iiod_reader_cancel_unlocked]:
    [for (tmp = priv->readers; tmp->r_next; tmp = tmp->r_next)
       if (tmp->r_next == io) { tmp->r_next = io->r_next; break; }]. *)
Fixpoint reader_cancel_walk (fuel : nat) (st : state) (tmp io : handle)
  : option state :=
  match fuel with
  | O => None
  | S fuel' =>
      match r_next (heap st tmp) with
      | None => Some st
      | Some n =>
          if Nat.eqb n io
          then Some (with_reader st tmp (set_r_next (r_next (heap st io))))
          else reader_cancel_walk fuel' st n io
      end
  end.

Definition __iiod_reader_cancel_unlocked (fuel : nat) (st : state)
    (io : handle) : option state :=
  match readers (priv st) with
  | Some head =>
      if Nat.eqb io head then Some (with_priv st (set_readers None))
      else reader_cancel_walk fuel st head io
  | None => Some st
  end.

Fixpoint writer_cancel_walk (fuel : nat) (st : state) (tmp io : handle)
  : option state :=
  match fuel with
  | O => None
  | S fuel' =>
      match w_next (heap st tmp) with
      | None => Some st
      | Some n =>
          if Nat.eqb n io
          then Some (with_reader st tmp (set_w_next (w_next (heap st io))))
          else writer_cancel_walk fuel' st n io
      end
  end.

Definition __iiod_writer_cancel_unlocked (fuel : nat) (st : state)
    (io : handle) : option state :=
  match writers (priv st) with
  | Some head =>
      if Nat.eqb io head then Some (with_priv st (set_writers None))
      else writer_cancel_walk fuel st head io
  | None => Some st
  end.

(** [iiod_reader_cancel]: both lists, one after the other. *)
Definition iiod_reader_cancel (fuel : nat) (st : state) (reader : handle)
  : option state :=
  match __iiod_reader_cancel_unlocked fuel st reader with
  | Some st1 => __iiod_writer_cancel_unlocked fuel st1 reader
  | None => None
  end.

(** The handles reached from a list head through the next pointers, in
    order; [None] when more than [fuel] handles are chained (as on a
    cyclic chain). *)
Fixpoint chain (next : iiod_reader -> option handle)
    (h : handle -> iiod_reader) (fuel : nat) (p : option handle)
  : option (list handle) :=
  match p with
  | None => Some []
  | Some q =>
      match fuel with
      | O => None
      | S fuel' =>
          match chain next h fuel' (next (h q)) with
          | Some l => Some (q :: l)
          | None => None
          end
      end
  end.

Definition waiters_list (fuel : nat) (st : state) : option (list handle) :=
  chain r_next (heap st) fuel (readers (priv st)).

Definition writers_queue (fuel : nat) (st : state) : option (list handle) :=
  chain w_next (heap st) fuel (writers (priv st)).

(** The tail walk [for (last = head; last->w_next; ) last = last->w_next]. *)
Fixpoint last_writer (fuel : nat) (st : state) (last : handle)
  : option handle :=
  match fuel with
  | O => None
  | S fuel' =>
      match w_next (heap st last) with
      | None => Some last
      | Some n => last_writer fuel' st n
      end
  end.

Fixpoint last_reader (fuel : nat) (st : state) (tmp : handle)
  : option handle :=
  match fuel with
  | O => None
  | S fuel' =>
      match r_next (heap st tmp) with
      | None => Some tmp
      | Some n => last_reader fuel' st n
      end
  end.

(** [iiod_enqueue_command]; it returns 0 at its only [return]. *)
Definition iiod_enqueue_command (fuel : nat) (st : state) (writer : handle)
    (op dev code : Z) (bufs : option (list iiod_buf)) (nb : Z)
    (cb : option callback) (d : Z) : option (Z * state) :=
  let io :=
    {| cmd := {| cmd_client_id := client_id (heap st writer);
                 cmd_op := op; cmd_dev := dev; cmd_code := code |};
       buf := bufs; nb_buf := nb;
       cleanup_cb := cb; cleanup_cb_d := d |} in
  let st1 :=
    with_reader st writer
      (fun r => set_w_done false (set_w_next None (set_w_io io r))) in
  match writers (priv st1) with
  | None => Some (0, with_priv st1 (set_writers (Some writer)))
  | Some head =>
      match last_writer fuel st1 head with
      | Some last =>
          Some (0, with_reader st1 last (set_w_next (Some writer)))
      | None => None
      end
  end.

(** [iiod_reader_wait_for_command_done]: [None] while [w_done] is not
    set (the caller sleeps on its condition variable). *)
Definition iiod_reader_wait_for_command_done (st : state) (reader : handle)
  : option state :=
  if w_done (heap st reader)
  then Some (with_reader st reader (set_w_done false))
  else None.

(** [wait_for_response]; [unlock] only decides whether [rlock] is kept. *)
Definition wait_for_response (st : state) (reader : handle) (unlock : bool)
  : option state :=
  if r_done (heap st reader)
  then Some (with_reader st reader (set_r_done false))
  else None.

Definition iiod_reader_wait_for_response (st : state) (reader : handle)
  : option (Z * state) :=
  match wait_for_response st reader true with
  | Some st1 => Some (cmd_code (cmd (r_io (heap st1 reader))), st1)
  | None => None
  end.

Definition iiod_reader_send_command_async (fuel : nat) (st : state)
    (reader : handle) (c : iiod_command) (bufs : option (list iiod_buf))
    (nb : Z) (cb : option callback) (d : Z) : option (Z * state) :=
  iiod_enqueue_command fuel st reader (cmd_op c) (cmd_dev c) (cmd_code c)
                       bufs nb cb d.

Definition iiod_reader_send_response_async (fuel : nat) (st : state)
    (reader : handle) (code : Z) (bufs : option (list iiod_buf))
    (nb : Z) (cb : option callback) (d : Z) : option (Z * state) :=
  iiod_enqueue_command fuel st reader IIOD_OP_RESPONSE 0 (to_int32 code)
                       bufs nb cb d.

(** [iiod_reader_enqueue_response_request]. *)
Definition iiod_reader_enqueue_response_request (fuel : nat) (st : state)
    (reader : handle) (bufs : option (list iiod_buf)) (nb : Z)
    (lock_it : bool) : option state :=
  let st1 :=
    with_reader st reader
      (fun r =>
         set_r_done false
           (set_r_io {| cmd := cmd (r_io r); buf := bufs; nb_buf := nb;
                        cleanup_cb := None;
                        cleanup_cb_d := cleanup_cb_d (r_io r) |} r)) in
  match readers (priv st1) with
  | None => Some (with_priv st1 (set_readers (Some reader)))
  | Some head =>
      match last_reader fuel st1 head with
      | Some tmp => Some (with_reader st1 tmp (set_r_next (Some reader)))
      | None => None
      end
  end.

Definition iiod_reader_get_response_async (fuel : nat) (st : state)
    (reader : handle) (bufs : option (list iiod_buf)) (nb : Z)
  : option state :=
  iiod_reader_enqueue_response_request fuel st reader bufs nb true.

(** [iiod_responder_get_new_id]: [id = priv->next_client_id++] on a
    [uint16_t]. *)
Definition iiod_responder_get_new_id (st : state) : Z * state :=
  (next_client_id (priv st),
   with_priv st (set_next_client_id
                   (to_uint16 (next_client_id (priv st) + 1)))).

(** [iiod_responder_create_reader_from_id].  [alloc] is what [zalloc]
    returns and [cond_ok] whether [iio_cond_create] succeeds. *)
Definition iiod_responder_create_reader_from_id (st : state)
    (alloc : option handle) (cond_ok : bool) (id : Z)
  : option handle * state :=
  match alloc with
  | None => (None, st)
  | Some reader =>
      let st1 := with_reader st reader (fun _ => zero_reader) in
      if cond_ok
      then (Some reader, with_reader st1 reader (set_client_id id))
      else (None, st1)
  end.

Definition iiod_responder_create_reader (st : state)
    (alloc : option handle) (cond_ok : bool) : option handle * state :=
  let '(id, st1) := iiod_responder_get_new_id st in
  iiod_responder_create_reader_from_id st1 alloc cond_ok id.

Definition iiod_command_create_reader (st : state) (c : iiod_command)
    (alloc : option handle) (cond_ok : bool) : option handle * state :=
  iiod_responder_create_reader_from_id st alloc cond_ok (cmd_client_id c).

(* ------------------------------------------------------------------ *)
(** ** The reader and writer threads *)

(** Sequencing of code that may be undefined or run out of fuel, over a
    threaded state. *)
Definition obind {A B W : Type} (x : outcome A * W)
    (f : A -> W -> outcome B * W) : outcome B * W :=
  match x with
  | (Ret a, s) => f a s
  | (Undefined, s) => (Undefined, s)
  | (OutOfFuel, s) => (OutOfFuel, s)
  end.

Notation "'do' ( a , s ) <- x ; k" :=
  (obind x (fun a s => k))
  (at level 10, a name, s name, x at level 100, k at level 200).

(** How an iteration of a thread's loop ends. *)
Inductive loop_ctl : Type :=
| Continue
| Break.

(** What a pass of the writer thread over its queue found. *)
Inductive thrd_status : Type :=
| Running
| Sleeping
| Stopped.

Section Threads.

Variable T : Type.
Variable ops : iiod_responder_ops T.

(** The responder with its handles, and the world outside. *)
Definition sys : Type := state * world T.

(** [iiod_discard_data]; one unit of fuel per call of [discard]. *)
Fixpoint iiod_discard_data (fuel : nat) (w : world T) (bytes : Z)
  : outcome Z * world T :=
  if bytes =? 0 then (Ret 0, w)
  else
    match fuel with
    | O => (OutOfFuel, w)
    | S fuel' =>
        let '(ret, w1) := do_discard T ops w bytes in
        if ret <? 0 then (Ret (to_int32 ret), w1)
        else iiod_discard_data fuel' w1 (to_size_t (bytes - to_size_t ret))
    end.

(** [iiod_command_data_read]. *)
Definition iiod_command_data_read (fuel : nat) (w : world T) (b : iiod_buf)
  : outcome Z * world T :=
  iiod_rw_all T ops fuel w None (Some [b]) 1 (size b) true.

(** The lookup loop of the reader thread:
    [for (reader = priv->readers; reader; reader = reader->r_next)
       if (reader->client_id == cmd.client_id) break;]. *)
Fixpoint find_reader (fuel : nat) (st : state) (reader : option handle)
    (id : Z) : option (option handle) :=
  match reader with
  | None => Some None
  | Some r =>
      if client_id (heap st r) =? id then Some (Some r)
      else
        match fuel with
        | O => None
        | S fuel' => find_reader fuel' st (r_next (heap st r)) id
        end
  end.

Definition on_world {A : Type} (st : state) (x : outcome A * world T)
  : outcome A * sys :=
  match x with
  | (o, w) => (o, (st, w))
  end.

(** The payload part of a matched response:
    [if (reader->r_io.buf && cmd.code > 0) { ret = iiod_rw_all(...);
       if (ret > 0 && (size_t) ret < (size_t) cmd.code)
          iiod_discard_data(priv, cmd.code - ret); }]. *)
Definition reader_thrd_payload (fuel : nat) (w : world T)
    (rio : iiod_client_data) (code : Z) (ret : Z) : outcome Z * world T :=
  match buf rio with
  | Some _ =>
      if 0 <? code then
        do (ret1, w1) <- iiod_rw_all T ops fuel w None (buf rio) (nb_buf rio)
                                     (to_size_t code) true;
        if (0 <? ret1) && (to_size_t ret1 <? to_size_t code)
        then
          do (_r, w2) <- iiod_discard_data fuel w1 (to_size_t (code - ret1));
          (Ret ret1, w2)
        else (Ret ret1, w1)
      else (Ret ret, w)
  | None => (Ret ret, w)
  end.

(** One iteration of the [while (!priv->thrd_stop)] loop of
    [iiod_responder_reader_thrd].  [cmd_ptr] is the address of the
    thread's local [cmd]; the result carries the local [ret]. *)
Definition reader_thrd_iteration (fuel : nat) (cmd_ptr : Z) (s : sys)
  : outcome (loop_ctl * Z) * sys :=
  let '(st, w) := s in
  let cmd_buf := {| ptr := cmd_ptr; size := sizeof_cmd |} in
  do (ret, s1) <- on_world st
      (iiod_rw_all T ops fuel w None (Some [cmd_buf]) 1 sizeof_cmd true);
  let w1 := snd s1 in
  if ret <=? 0 then (Ret (Break, ret), s1)
  else
    let c := decode_cmd (load_bytes (w_mem w1) cmd_ptr 8) in
    if negb (cmd_op c =? IIOD_OP_RESPONSE) then
      let '(ret1, w2) := do_cmd T ops w1 c in
      if ret1 <? 0 then (Ret (Break, ret1), (st, w2))
      else (Ret (Continue, ret1), (st, w2))
    else
      match find_reader fuel st (readers (priv st)) (cmd_client_id c) with
      | None => (OutOfFuel, s1)
      | Some None =>
          do (_r, s2) <- on_world st
              (iiod_discard_data fuel w1 (to_size_t (cmd_code c)));
          (Ret (Continue, ret), s2)
      | Some (Some reader) =>
          match __iiod_reader_cancel_unlocked fuel st reader with
          | None => (OutOfFuel, s1)
          | Some st1 =>
              let st2 :=
                with_reader st1 reader
                  (fun r => set_r_io (set_io_code (r_io r) (cmd_code c)) r) in
              let rio := r_io (heap st2 reader) in
              do (ret2, s3) <- on_world st2
                  (reader_thrd_payload fuel w1 rio (cmd_code c) ret);
              let st3 := with_reader (fst s3) reader (set_r_done true) in
              let w3 :=
                match cleanup_cb rio with
                | Some cb =>
                    if negb (nb_buf rio =? 0)
                    then do_cleanup T (snd s3) cb (cleanup_cb_d rio) ret2
                    else snd s3
                | None => snd s3
                end in
              (Ret (Continue, ret2), (st3, w3))
          end
      end.

(** [iiod_responder_reader_thrd]: the loop, then
    [priv->thrd_stop = true; return ret]. *)
Fixpoint reader_thrd_loop (fuel : nat) (cmd_ptr : Z) (ret : Z) (s : sys)
  : outcome Z * sys :=
  if thrd_stop (priv (fst s)) then (Ret ret, s)
  else
    match fuel with
    | O => (OutOfFuel, s)
    | S fuel' =>
        do (r, s1) <- reader_thrd_iteration (S fuel') cmd_ptr s;
        match fst r with
        | Break => (Ret (snd r), s1)
        | Continue => reader_thrd_loop fuel' cmd_ptr (snd r) s1
        end
    end.

Definition iiod_responder_reader_thrd (fuel : nat) (cmd_ptr : Z) (s : sys)
  : outcome Z * sys :=
  do (ret, s1) <- reader_thrd_loop fuel cmd_ptr 0 s;
  (Ret (to_int32 ret), (with_priv (fst s1) (set_thrd_stop true), snd s1)).

(** The writer thread, under [wlock]: sleep while there is nothing to
    do, leave when stopped, else detach the head of the queue. *)
Definition writer_thrd_dequeue (st : state)
  : thrd_status * option handle * state :=
  if thrd_stop (priv st) then (Stopped, None, st)
  else
    match writers (priv st) with
    | None => (Sleeping, None, st)
    | Some writer =>
        (Running, Some writer,
         with_priv st (set_writers (w_next (heap st writer))))
    end.

(** The writer thread, outside the lock and then back under it: copy the
    header to the local [cmd] (at [cmd_ptr]), write the frame, publish the
    result, signal, call the cleanup callback. *)
Definition writer_thrd_transfer (fuel : nat) (cmd_ptr : Z) (writer : handle)
    (s : sys) : outcome unit * sys :=
  let '(st, w) := s in
  let wio := w_io (heap st writer) in
  let cmd_buf := {| ptr := cmd_ptr; size := sizeof_cmd |} in
  let w0 := {| w_mem := store_bytes (w_mem w) cmd_ptr (encode_cmd (cmd wio));
               w_tr := w_tr w; w_log := w_log w |} in
  do (ret, s1) <- on_world st
      (iiod_rw_all T ops fuel w0 (Some cmd_buf) (buf wio) (nb_buf wio) 0 false);
  let st1 :=
    with_reader (fst s1) writer
      (fun r => set_w_done true (set_w_io (set_io_code (w_io r) (to_int32 ret))
                                          r)) in
  let w1 :=
    match cleanup_cb wio with
    | Some cb =>
        if negb (nb_buf wio =? 0)
        then do_cleanup T (snd s1) cb (cleanup_cb_d wio) ret
        else snd s1
    | None => snd s1
    end in
  (Ret tt, (st1, w1)).

(** One iteration of the [for (;;)] loop of [iiod_responder_writer_thrd]. *)
Definition writer_thrd_iteration (fuel : nat) (cmd_ptr : Z) (s : sys)
  : outcome thrd_status * sys :=
  match writer_thrd_dequeue (fst s) with
  | (Running, Some writer, st1) =>
      do (_u, s1) <- writer_thrd_transfer fuel cmd_ptr writer (st1, snd s);
      (Ret Running, s1)
  | (status, _, st1) => (Ret status, (st1, snd s))
  end.

(** The writer thread run until it sleeps or stops. *)
Fixpoint iiod_responder_writer_thrd (fuel : nat) (cmd_ptr : Z) (s : sys)
  : outcome thrd_status * sys :=
  match fuel with
  | O => (OutOfFuel, s)
  | S fuel' =>
      do (status, s1) <- writer_thrd_iteration (S fuel') cmd_ptr s;
      match status with
      | Running => iiod_responder_writer_thrd fuel' cmd_ptr s1
      | _ => (Ret status, s1)
      end
  end.

(** [iiod_reader_send_command].  Between the enqueue and the return the
    caller sleeps in [iiod_reader_wait_for_command_done]; [others] is what
    the other threads do meanwhile.  [None]: the call has not returned. *)
Definition iiod_reader_send_command (fuel : nat) (others : sys -> sys)
    (s : sys) (reader : handle) (c : iiod_command)
    (bufs : option (list iiod_buf)) (nb : Z) : option (Z * sys) :=
  match iiod_reader_send_command_async fuel (fst s) reader c bufs nb None 0
  with
  | None => None
  | Some (ret, st1) =>
      if negb (ret =? 0) then Some (ret, (st1, snd s))
      else
        let s2 := others (st1, snd s) in
        match iiod_reader_wait_for_command_done (fst s2) reader with
        | Some st3 => Some (0, (st3, snd s2))
        | None => None
        end
  end.

Definition iiod_reader_send_response (fuel : nat) (others : sys -> sys)
    (s : sys) (reader : handle) (code : Z)
    (bufs : option (list iiod_buf)) (nb : Z) : option (Z * sys) :=
  match iiod_reader_send_response_async fuel (fst s) reader code bufs nb None 0
  with
  | None => None
  | Some (ret, st1) =>
      if negb (ret =? 0) then Some (ret, (st1, snd s))
      else
        let s2 := others (st1, snd s) in
        match iiod_reader_wait_for_command_done (fst s2) reader with
        | Some st3 => Some (0, (st3, snd s2))
        | None => None
        end
  end.

End Threads.

Arguments sys T : clear implicits.

(* ------------------------------------------------------------------ *)
(** ** Creation and destruction of the responder *)

Inductive resource : Type :=
| Res_priv
| Res_lock
| Res_rlock
| Res_wlock
| Res_wcond
| Res_read_thrd
| Res_write_thrd.

Inductive res_event : Type :=
| Created (r : resource)
| Destroyed (r : resource).

(** Which of the calls made by [iiod_responder_create] succeed. *)
Record create_env : Type := mk_create_env {
  zalloc_ok : bool;
  lock_ok : bool;
  rlock_ok : bool;
  wlock_ok : bool;
  wcond_ok : bool;
  read_thrd_ok : bool;
  write_thrd_ok : bool
}.

(** Modelled from the spec: the macro [IS_ERR], from a header that is
    not in these sources; it tells an error pointer from a thread. *)
Definition IS_ERR (t : thrd_ptr) : bool :=
  match t with
  | Thrd_err => true
  | _ => false
  end.

Definition non_null (t : thrd_ptr) : bool :=
  match t with
  | Thrd_null => false
  | _ => true
  end.

(** [iiod_responder_wait_done]. *)
Definition iiod_responder_wait_done (p : iiod_responder)
    (log : list res_event) : iiod_responder * list res_event :=
  let '(p1, log1) :=
    if non_null (read_thrd p)
    then (set_read_thrd Thrd_null p, log ++ [Destroyed Res_read_thrd])
    else (p, log) in
  if non_null (write_thrd p1)
  then (set_write_thrd Thrd_null (set_thrd_stop true p1),
        log1 ++ [Destroyed Res_write_thrd])
  else (p1, log1).

(** [iiod_responder_destroy]. *)
Definition iiod_responder_destroy (p : iiod_responder)
    (log : list res_event) : list res_event :=
  let '(_, log1) := iiod_responder_wait_done (set_thrd_stop true p) log in
  log1 ++ [Destroyed Res_wcond; Destroyed Res_wlock; Destroyed Res_rlock;
           Destroyed Res_lock; Destroyed Res_priv].

(** The error labels of [iiod_responder_create], each falling through to
    the next. *)
Definition err_free_priv (log : list res_event) : list res_event :=
  log ++ [Destroyed Res_priv].

Definition err_free_lock (log : list res_event) : list res_event :=
  err_free_priv (log ++ [Destroyed Res_lock]).

Definition err_free_rlock (log : list res_event) : list res_event :=
  err_free_lock (log ++ [Destroyed Res_rlock]).

Definition err_free_wlock (log : list res_event) : list res_event :=
  err_free_rlock (log ++ [Destroyed Res_wlock]).

Definition err_free_wcond (log : list res_event) : list res_event :=
  err_free_wlock (log ++ [Destroyed Res_wcond]).

Definition err_free_read_thrd (p : iiod_responder) (log : list res_event)
  : list res_event :=
  let '(_, log1) := iiod_responder_wait_done (set_thrd_stop true p) log in
  err_free_wcond log1.

(** [iiod_responder_create]: the responder returned ([None] for [NULL])
    and the resources created and destroyed on the way. *)
Definition iiod_responder_create (env : create_env)
  : option iiod_responder * list res_event :=
  if negb (zalloc_ok env) then (None, [])
  else
    let p := zero_responder in
    let log := [Created Res_priv] in
    if negb (lock_ok env) then (None, err_free_priv log)
    else
      let p := {| readers := readers p; next_client_id := next_client_id p;
                  lock := true; rlock := rlock p; wlock := wlock p;
                  read_thrd := read_thrd p; write_thrd := write_thrd p;
                  writers := writers p; wcond := wcond p;
                  thrd_stop := thrd_stop p |} in
      let log := log ++ [Created Res_lock] in
      if negb (rlock_ok env) then (None, err_free_lock log)
      else
        let p := {| readers := readers p; next_client_id := next_client_id p;
                    lock := lock p; rlock := true; wlock := wlock p;
                    read_thrd := read_thrd p; write_thrd := write_thrd p;
                    writers := writers p; wcond := wcond p;
                    thrd_stop := thrd_stop p |} in
        let log := log ++ [Created Res_rlock] in
        if negb (wlock_ok env) then (None, err_free_rlock log)
        else
          let p := {| readers := readers p;
                      next_client_id := next_client_id p;
                      lock := lock p; rlock := rlock p; wlock := true;
                      read_thrd := read_thrd p; write_thrd := write_thrd p;
                      writers := writers p; wcond := wcond p;
                      thrd_stop := thrd_stop p |} in
          let log := log ++ [Created Res_wlock] in
          if negb (wcond_ok env) then (None, err_free_wlock log)
          else
            let p := {| readers := readers p;
                        next_client_id := next_client_id p;
                        lock := lock p; rlock := rlock p; wlock := wlock p;
                        read_thrd := read_thrd p; write_thrd := write_thrd p;
                        writers := writers p; wcond := true;
                        thrd_stop := thrd_stop p |} in
            let log := log ++ [Created Res_wcond] in
            let p := set_read_thrd
                       (if read_thrd_ok env then Thrd_ok else Thrd_err) p in
            let log := if read_thrd_ok env
                       then log ++ [Created Res_read_thrd] else log in
            if IS_ERR (read_thrd p) then (None, err_free_wcond log)
            else
              let p := set_write_thrd
                         (if write_thrd_ok env then Thrd_ok else Thrd_err) p in
              let log := if write_thrd_ok env
                         then log ++ [Created Res_write_thrd] else log in
              if IS_ERR (read_thrd p) then (None, err_free_read_thrd p log)
              else (Some p, log).

(* ------------------------------------------------------------------ *)
(** ** A byte-stream transport

    The callbacks behind [iiod_responder_ops] are supplied by the
    backends, outside these sources.  This instance follows the
    transport contract of the specification: the peer's bytes wait in
    [inbox]; what the responder writes is appended to [outbox]; every
    call moves at most [chunk] bytes (and no more than an [ssize_t] can
    report), so short reads and short writes occur. *)

Record stream : Type := mk_stream {
  inbox : list byte;
  outbox : list byte;
  chunk : Z;
  closed : bool
}.

(** The largest [ssize_t], which bounds what one call can report. *)
Definition SSIZE_MAX : Z := 2 ^ 63 - 1.

Definition quota (t : stream) : Z := Z.min (chunk t) SSIZE_MAX.

(** Modelled from the spec: the [read] callback of a transport, which
    is not in these sources.  "Bytes read into the prefix of the list
    ...  May return a short read; zero indicates peer closure": the next
    bytes of the inbox go into the descriptors in order, as many as the
    quota, the inbox and the descriptors allow. *)
Definition stream_read (t : stream) (m : mem) (bufs : list iiod_buf)
  : Z * stream * mem :=
  let k := Z.to_nat (Z.min (Z.min (quota t) (Z.of_nat (length (inbox t))))
                           (capacity bufs)) in
  (Z.of_nat k,
   {| inbox := skipn k (inbox t); outbox := outbox t;
      chunk := chunk t; closed := closed t |},
   scatter m bufs (firstn k (inbox t))).

(** Modelled from the spec: the [write] callback of a transport, which
    is not in these sources.  "Bytes accepted from the list, or negative
    error; same short-write semantics": a prefix of the bytes the
    descriptors designate is appended to the outbox; on a [closed] stream
    the call fails with [-EPIPE]. *)
Definition stream_write (t : stream) (m : mem) (bufs : list iiod_buf)
  : Z * stream :=
  if closed t then (- EPIPE, t)
  else
    let k := Z.to_nat (Z.min (quota t) (capacity bufs)) in
    (Z.of_nat k,
     {| inbox := inbox t; outbox := outbox t ++ firstn k (gather m bufs);
        chunk := chunk t; closed := closed t |}).

(** Modelled from the spec: the [discard] callback of a transport,
    which is not in these sources.  "Advances the read stream by up to n
    bytes ...  Must return positive progress or a negative error": with
    nothing left to skip the call fails with [-EPIPE]. *)
Definition stream_discard (t : stream) (bytes : Z) : Z * stream :=
  match inbox t with
  | [] => (- EPIPE, t)
  | _ :: _ =>
      let k := Z.to_nat (Z.min (Z.min (quota t) bytes)
                               (Z.of_nat (length (inbox t)))) in
      (Z.of_nat k,
       {| inbox := skipn k (inbox t); outbox := outbox t;
          chunk := chunk t; closed := closed t |})
  end.

(** Modelled from the spec: the [cmd] callback, which is not in these
    sources; here a handler that accepts every command and does
    nothing. *)
Definition stream_cmd (c : iiod_command) (t : stream) (m : mem)
  : Z * stream * mem := (0, t, m).

Definition stream_ops : iiod_responder_ops stream :=
  {| op_cmd := stream_cmd; op_read := stream_read;
     op_write := stream_write; op_discard := stream_discard |}.

Definition stream_world (m : mem) (t : stream) : world stream :=
  {| w_mem := m; w_tr := t; w_log := [] |}.

(* ------------------------------------------------------------------ *)
(** ** Runs of several calls *)

(** [iiod_responder_create_reader] called once per entry of [allocs]
    (each entry is the address [zalloc] hands out; every call succeeds):
    the [client_id] found in each new handle on return. *)
Fixpoint created_ids (st : state) (allocs : list handle) : list Z :=
  match allocs with
  | [] => []
  | a :: rest =>
      match iiod_responder_create_reader st (Some a) true with
      | (Some reader, st1) =>
          client_id (heap st1 reader) :: created_ids st1 rest
      | (None, st1) => created_ids st1 rest
      end
  end.

(* ------------------------------------------------------------------ *)
(** ** Sample configurations *)

(** A responder right after creation, with no handle queued. *)
Definition fresh_state : state :=
  {| priv := zero_responder; heap := fun _ => zero_reader |}.

(** Handles 1 and 2 (client ids 41 and 42), both waiting for a response
    and both queued for writing, 1 ahead of 2. *)
Definition two_queued : state :=
  {| priv := set_writers (Some 1%nat) (set_readers (Some 1%nat) zero_responder);
     heap := fun p =>
       match p with
       | 1%nat => set_w_next (Some 2%nat)
                    (set_r_next (Some 2%nat) (set_client_id 41 zero_reader))
       | 2%nat => set_client_id 42 zero_reader
       | _ => zero_reader
       end |}.

(** Handle 1 (client id 42) idle, nothing queued. *)
Definition one_idle : state :=
  {| priv := zero_responder;
     heap := fun p =>
       match p with
       | 1%nat => set_client_id 42 zero_reader
       | _ => zero_reader
       end |}.

(** Handle 1 (client id 42) waiting for a response into [bufs]. *)
Definition one_waiting (bufs : option (list iiod_buf)) (nb : Z) : state :=
  {| priv := set_readers (Some 1%nat) zero_responder;
     heap := fun p =>
       match p with
       | 1%nat =>
           set_r_io {| cmd := zero_cmd; buf := bufs; nb_buf := nb;
                       cleanup_cb := None; cleanup_cb_d := 0 |}
                    (set_client_id 42 zero_reader)
       | _ => zero_reader
       end |}.

(** A stream on which the peer has sent [bs]. *)
Definition incoming (bs : list byte) (k : Z) : world stream :=
  stream_world mem_init
    {| inbox := bs; outbox := []; chunk := k; closed := false |}.

(** A stream whose peer is gone. *)
Definition hung_up : world stream :=
  stream_world mem_init
    {| inbox := []; outbox := []; chunk := 8; closed := true |}.

(** What the other threads do while a sender sleeps: the writer thread
    goes once round its loop. *)
Definition writer_runs_once (s : sys stream) : sys stream :=
  snd (writer_thrd_iteration stream stream_ops 8 1000 s).

(** A [VERSION] command without payload. *)
Definition version_cmd : iiod_command :=
  {| cmd_client_id := 0; cmd_op := IIOD_OP_VERSION; cmd_dev := 0;
     cmd_code := 0 |}.

(** A response for client 999 carrying the error [-EPIPE], followed by a
    [PRINT] command from client 7. *)
Definition orphan_error_then_print : list byte :=
  encode_cmd {| cmd_client_id := 999; cmd_op := IIOD_OP_RESPONSE;
                cmd_dev := 0; cmd_code := - EPIPE |}
  ++ encode_cmd {| cmd_client_id := 7; cmd_op := IIOD_OP_PRINT;
                   cmd_dev := 0; cmd_code := 0 |}.

(** Every creation step succeeds except the start of the writer thread. *)
Definition writer_thread_fails : create_env :=
  {| zalloc_ok := true; lock_ok := true; rlock_ok := true; wlock_ok := true;
     wcond_ok := true; read_thrd_ok := true; write_thrd_ok := false |}.

(** The address of the threads' local [cmd] in the samples. *)
Definition cmd_addr : Z := 1000.

(* ------------------------------------------------------------------ *)
(** ** Notions used in the statements *)

(** The descriptor list a transfer resumes from after [ret] more bytes
    went into its first descriptor:
    [curr->ptr += ret; curr->size -= ret]. *)
Definition resume (curr : list iiod_buf) (ret : Z) : list iiod_buf :=
  match curr with
  | [] => []
  | c :: rest => {| ptr := ptr c + ret; size := size c - ret |} :: rest
  end.

(** Descriptors that are not empty. *)
Definition sizes_pos (bufs : list iiod_buf) : Prop :=
  Forall (fun b => 0 < size b < 2 ^ 64) bufs.

Definition is_read_event (e : io_event) : Prop :=
  match e with
  | Io_read _ _ => True
  | _ => False
  end.

Definition is_write_event (e : io_event) : Prop :=
  match e with
  | Io_write _ _ => True
  | _ => False
  end.

Definition is_discard_event (e : io_event) : Prop :=
  match e with
  | Io_discard _ _ => True
  | _ => False
  end.

(** Bytes the transport was told to skip, over a log. *)
Definition discarded (log : list io_event) : Z :=
  fold_right (fun e acc => match e with
                           | Io_discard _ r => r + acc
                           | _ => acc
                           end) 0 log.

Definition io_positive (e : io_event) : Prop := 0 < io_ret e.

(** Bytes moved by a sequence of transport calls. *)
Definition transferred (evs : list io_event) : Z :=
  fold_right (fun e acc => io_ret e + acc) 0 evs.

(** Descriptor sizes are [size_t] values. *)
Definition sizes_ok (bufs : list iiod_buf) : Prop :=
  Forall (fun b => 0 <= size b < 2 ^ 64) bufs.

(** A transport call never reports more bytes than the descriptors it
    was handed can hold, and its result is an [ssize_t]. *)
Definition transport_bounded {T} (ops : iiod_responder_ops T) : Prop :=
  (forall t m bufs, sizes_ok bufs ->
     fst (fst (op_read ops t m bufs)) <= capacity bufs
     /\ fst (fst (op_read ops t m bufs)) < 2 ^ 63)
  /\ (forall t m bufs, sizes_ok bufs ->
        fst (op_write ops t m bufs) <= capacity bufs
        /\ fst (op_write ops t m bufs) < 2 ^ 63).

(** What a returning transfer loop reports: either every transport call
    moved bytes and the result is their total, or the last call returned
    a value [<= 0], which is the result. *)
Definition rw_reports (r : Z) (count : Z) (evs : list io_event) : Prop :=
  (Forall io_positive evs /\ r = count + transferred evs)
  \/ (exists evs0 e, evs = evs0 ++ [e] /\ Forall io_positive evs0
                     /\ io_ret e = r /\ r <= 0).

(** The caller's arguments to [iiod_rw_all] are in order: the sizes are
    [size_t] values and [buf] really points to [nb] descriptors. *)
Definition descriptors_ok (cmd_buf : option iiod_buf)
    (bufs : option (list iiod_buf)) (nb : Z) : Prop :=
  match cmd_buf with
  | Some cb => 0 <= size cb < 2 ^ 64
  | None => True
  end
  /\ match bufs with
     | Some l => nb <= Z.of_nat (length l) /\ sizes_ok (firstn (Z.to_nat nb) l)
     | None => nb = 0
     end.

(** The number of descriptors [iiod_rw_all] works on. *)
Definition effective_nb (cmd_buf : option iiod_buf) (nb : Z) : Z :=
  nb + match cmd_buf with
       | Some _ => 1
       | None => 0
       end.

(** The result [r] of a transfer as the specification words it: the
    total moved, or the transport's negative error. *)
Definition rw_reports_as_specified (r : Z) (evs : list io_event) : Prop :=
  r = transferred evs
  \/ (r < 0 /\ exists e, In e evs /\ io_ret e = r).

(** Three bytes of a header, after which the peer closes. *)
Definition truncated_header : list byte := [x2a; x00; x00].

(** A response for client 42 with code [-EPIPE]. *)
Definition error_frame : list byte :=
  encode_cmd {| cmd_client_id := 42; cmd_op := IIOD_OP_RESPONSE;
                cmd_dev := 0; cmd_code := - EPIPE |}.

(** A response for client 42 announcing 20 bytes, the 20 bytes, and a
    [PRINT] command from client 7 behind them. *)
Definition oversize_header : list byte :=
  encode_cmd {| cmd_client_id := 42; cmd_op := IIOD_OP_RESPONSE;
                cmd_dev := 0; cmd_code := 20 |}.

Definition oversize_payload : list byte := repeat x41 20.

Definition print_frame : list byte :=
  encode_cmd {| cmd_client_id := 7; cmd_op := IIOD_OP_PRINT;
                cmd_dev := 0; cmd_code := 0 |}.

(* ------------------------------------------------------------------ *)
(** ** Producers and the writer thread, interleaved *)

(** The responder, the stream, and the handle the writer thread has
    detached from the queue and is writing out, if any. *)
Record config : Type := mk_config {
  c_st : state;
  c_world : world stream;
  c_writing : option handle
}.

(** What can be observed of a step: a handle was enqueued with the
    outbound slot [io]; the writer thread detached a handle; the writer
    thread wrote a handle's frame, [frame] being the bytes that went
    out. *)
Inductive event : Type :=
| Ev_enqueue (writer : handle) (io : iiod_client_data)
| Ev_dequeue (writer : handle)
| Ev_transfer (writer : handle) (frame : list byte).

(** Steps are taken under [wlock], so they interleave in any order.  A
    producer enqueues a handle that is neither queued nor being written
    (a handle has one send in flight at most) and passes a descriptor
    array of the length it announces. *)
Inductive step (cmd_ptr : Z) : config -> event -> config -> Prop :=
| step_enqueue st w wr writer op dev code bufs nb cb d fuel st' q :
    writers_queue (length q) st = Some q ->
    ~ In writer q -> wr <> Some writer ->
    0 <= nb < 2 ^ 64 -> descriptors_ok None bufs nb ->
    iiod_enqueue_command fuel st writer op dev code bufs nb cb d
    = Some (0, st') ->
    step cmd_ptr (mk_config st w wr)
         (Ev_enqueue writer (w_io (heap st' writer)))
         (mk_config st' w wr)
| step_dequeue st w writer st' :
    writer_thrd_dequeue st = (Running, Some writer, st') ->
    step cmd_ptr (mk_config st w None) (Ev_dequeue writer)
         (mk_config st' w (Some writer))
| step_transfer st w writer fuel st' w' :
    writer_thrd_transfer stream stream_ops fuel cmd_ptr writer (st, w)
    = (Ret tt, (st', w')) ->
    step cmd_ptr (mk_config st w (Some writer))
         (Ev_transfer writer
            (skipn (length (outbox (w_tr w))) (outbox (w_tr w'))))
         (mk_config st' w' None).

(** Runs, with the events in the order they happened. *)
Inductive run (cmd_ptr : Z) : config -> list event -> config -> Prop :=
| run_nil c : run cmd_ptr c [] c
| run_snoc c tr c1 e c2 :
    run cmd_ptr c tr c1 -> step cmd_ptr c1 e c2 ->
    run cmd_ptr c (tr ++ [e]) c2.

Definition enqueued (tr : list event) : list (handle * iiod_client_data) :=
  flat_map (fun e => match e with
                     | Ev_enqueue h io => [(h, io)]
                     | _ => []
                     end) tr.

Definition transfers (tr : list event) : list (handle * list byte) :=
  flat_map (fun e => match e with
                     | Ev_transfer h f => [(h, f)]
                     | _ => []
                     end) tr.

Definition opt_list {A} (o : option A) : list A :=
  match o with
  | Some a => [a]
  | None => []
  end.

(** The bytes of the frame queued in [io], as the writer thread sends
    them with its local [cmd] at [cmd_ptr]: nothing when the descriptor
    count is refused, else the 8-byte header and then the payload. *)
Definition frame_bytes (cmd_ptr : Z) (m : mem) (io : iiod_client_data)
  : list byte :=
  if 32 <=? nb_buf io then []
  else
    encode_cmd (cmd io)
    ++ gather (store_bytes m cmd_ptr (encode_cmd (cmd io)))
              (firstn (Z.to_nat (nb_buf io))
                      (match buf io with
                       | Some l => l
                       | None => []
                       end)).

(** Every creation step succeeds; the resources a log shows created and
    destroyed, in order. *)
Definition all_ok (env : create_env) : bool :=
  zalloc_ok env && lock_ok env && rlock_ok env && wlock_ok env
  && wcond_ok env && read_thrd_ok env && write_thrd_ok env.

Definition created (log : list res_event) : list resource :=
  flat_map (fun e => match e with Created r => [r] | Destroyed _ => [] end) log.

Definition destroyed (log : list res_event) : list resource :=
  flat_map (fun e => match e with Destroyed r => [r] | Created _ => [] end) log.

(** An enqueued frame and the frame written for it belong together. *)
Definition frame_of (cmd_ptr : Z) (e : handle * iiod_client_data)
    (x : handle * list byte) : Prop :=
  fst x = fst e /\ exists m, snd x = frame_bytes cmd_ptr m (snd e).

(** A frame waits in handle [fst e] as it was enqueued, and its
    descriptor array is as long as announced. *)
Definition pending_ok (st : state) (e : handle * iiod_client_data) : Prop :=
  w_io (heap st (fst e)) = snd e
  /\ 0 <= nb_buf (snd e) < 2 ^ 64
  /\ descriptors_ok None (buf (snd e)) (nb_buf (snd e)).

(** A 2-byte payload at address 2000. *)
Definition sample_payload : list iiod_buf := [{| ptr := 2000; size := 2 |}].

(** Handles 1 and 2 (client ids 41 and 42) idle; then handle 2 queued
    with a [PRINT] command and handle 1 behind it with a [VERSION]
    command. *)
Definition two_idle : state :=
  {| priv := zero_responder;
     heap := fun p =>
       match p with
       | 1%nat => set_client_id 41 zero_reader
       | 2%nat => set_client_id 42 zero_reader
       | _ => zero_reader
       end |}.

Definition two_enqueued : state :=
  match iiod_enqueue_command 4 two_idle 2%nat IIOD_OP_PRINT 0 0 None 0 None 0
  with
  | Some (_, st1) =>
      match iiod_enqueue_command 4 st1 1%nat IIOD_OP_VERSION 0 0 None 0
              None 0 with
      | Some (_, st2) => st2
      | None => st1
      end
  | None => two_idle
  end.

(** A run with two frames in flight.  Handle 2 enqueues a [PRINT]
    command with the 2-byte payload; the writer thread detaches it;
    while it is being written handle 1 enqueues a [VERSION] command
    without payload; the writer thread writes out handle 2's frame,
    detaches handle 1 and writes its frame, three bytes at a time. *)
Definition fifo_st1 : state :=
  match iiod_enqueue_command 4 two_idle 2%nat IIOD_OP_PRINT 0 0
          (Some sample_payload) 1 None 0 with
  | Some (_, st) => st
  | None => two_idle
  end.

Definition fifo_st2 : state :=
  with_priv fifo_st1 (set_writers (w_next (heap fifo_st1 2%nat))).

Definition fifo_st3 : state :=
  match iiod_enqueue_command 4 fifo_st2 1%nat IIOD_OP_VERSION 0 0 None 0
          None 0 with
  | Some (_, st) => st
  | None => fifo_st2
  end.

Definition fifo_s4 : sys stream :=
  snd (writer_thrd_transfer stream stream_ops 16 cmd_addr 2%nat
         (fifo_st3, incoming [] 3)).

Definition fifo_st5 : state :=
  with_priv (fst fifo_s4) (set_writers (w_next (heap (fst fifo_s4) 1%nat))).

Definition fifo_s6 : sys stream :=
  snd (writer_thrd_transfer stream stream_ops 16 cmd_addr 1%nat
         (fifo_st5, snd fifo_s4)).


Definition fifo_c6 : config :=
  {| c_st := fst fifo_s6; c_world := snd fifo_s6; c_writing := None |}.



(** A byte stream with a countdown: its [n]-th write from now fails
    with [-EPIPE] and moves nothing, every other call goes through to
    the stream (with the countdown at 0 no write fails). *)
Definition failing_write_ops : iiod_responder_ops (nat * stream) :=
  {| op_cmd := fun c t m =>
       let '(r, s, m') := stream_cmd c (snd t) m in (r, (fst t, s), m');
     op_read := fun t m bufs =>
       let '(r, s, m') := stream_read (snd t) m bufs in (r, (fst t, s), m');
     op_write := fun t m bufs =>
       match fst t with
       | 1%nat => (- EPIPE, (0%nat, snd t))
       | n =>
           let '(r, s) := stream_write (snd t) m bufs in
           (r, (Nat.pred n, s))
       end;
     op_discard := fun t k =>
       let '(r, s) := stream_discard (snd t) k in (r, (fst t, s)) |}.

(** Handle 2 queued with a [PRINT] command and the 2-byte payload, and
    handle 1 behind it with a [VERSION] command. *)
Definition payload_then_version : state :=
  match iiod_enqueue_command 4 two_idle 2%nat IIOD_OP_PRINT 0 0
          (Some sample_payload) 1 None 0 with
  | Some (_, st1) =>
      match iiod_enqueue_command 4 st1 1%nat IIOD_OP_VERSION 0 0 None 0
              None 0 with
      | Some (_, st2) => st2
      | None => st1
      end
  | None => two_idle
  end.

(** The descriptors [iiod_rw_all] copies into its working array: the
    header descriptor, if any, then [nb] descriptors of the caller's
    array. *)
Definition payload_descriptors (bufs : option (list iiod_buf)) (nb : Z)
  : list iiod_buf :=
  firstn (Z.to_nat nb) (match bufs with
                        | Some l => l
                        | None => []
                        end).

Definition working_array (cmd_buf : option iiod_buf)
    (bufs : option (list iiod_buf)) (nb : Z) : list iiod_buf :=
  opt_list cmd_buf ++ payload_descriptors bufs nb.

(** What the reader thread does to a matched handle: it stores the
    response code in the inbound slot and sets [r_done]. *)
Definition delivered (st : state) (reader : handle) (code : Z) : state :=
  with_reader
    (with_reader st reader
       (fun r => set_r_io (set_io_code (r_io r) code) r))
    reader (set_r_done true).

(** The byte-stream transport with a command handler of the
    application's in place of the one that does nothing. *)
Definition stream_ops_with
    (handler : iiod_command -> stream -> mem -> Z * stream * mem)
  : iiod_responder_ops stream :=
  {| op_cmd := handler; op_read := stream_read;
     op_write := stream_write; op_discard := stream_discard |}.

(* ------------------------------------------------------------------ *)
(** ** The rest of the client interface *)

(** [iiod_reader_read_response]: [wait_for_response], then the code. *)
Definition iiod_reader_read_response (st : state) (reader : handle)
    (unlock : bool) : option (Z * state) :=
  match wait_for_response st reader unlock with
  | Some st1 => Some (cmd_code (cmd (r_io (heap st1 reader))), st1)
  | None => None
  end.

(** [iiod_reader_get_and_request_response]: under [rlock] all along, the
    code of the response that has arrived, and the handle registered
    anew. *)
Definition iiod_reader_get_and_request_response (fuel : nat) (st : state)
    (reader : handle) (bufs : option (list iiod_buf)) (nb : Z)
  : option (Z * state) :=
  match iiod_reader_read_response st reader false with
  | Some (ret, st1) =>
      match iiod_reader_enqueue_response_request fuel st1 reader bufs nb false
      with
      | Some st2 => Some (ret, st2)
      | None => None
      end
  | None => None
  end.

(** The optional single descriptor [buf] of [iiod_reader_exec_command],
    as the array and the count [buf != NULL] it passes on. *)
Definition single_buf (b : option iiod_buf) : option (list iiod_buf) :=
  match b with
  | Some x => Some [x]
  | None => None
  end.

Definition is_non_null {A} (b : option A) : Z :=
  match b with
  | Some _ => 1
  | None => 0
  end.

Section Client.

Variable T : Type.



(** [iiod_reader_send_response_code] (iiod-responder.h). *)
Definition iiod_reader_send_response_code (fuel : nat)
    (others : sys T -> sys T) (s : sys T) (reader : handle) (code : Z)
  : option (Z * sys T) :=
  iiod_reader_send_response T fuel others s reader code None 0.

(** [iiod_reader_exec_command].  [while_sending] is what the other
    threads do while the caller sleeps in [iiod_reader_send_command],
    [while_waiting] what they do while it sleeps in
    [iiod_reader_wait_for_response]. *)
Definition iiod_reader_exec_command (fuel : nat)
    (while_sending while_waiting : sys T -> sys T) (s : sys T)
    (reader : handle) (c : iiod_command) (cmd_buf b : option iiod_buf)
  : option (Z * sys T) :=
  match iiod_reader_get_response_async fuel (fst s) reader (single_buf b)
          (is_non_null b) with
  | None => None
  | Some st1 =>
      match iiod_reader_send_command T fuel while_sending (st1, snd s) reader
              c (single_buf cmd_buf) (is_non_null cmd_buf) with
      | None => None
      | Some (ret, s2) =>
          if ret <? 0 then
            match iiod_reader_cancel fuel (fst s2) reader with
            | Some st3 => Some (ret, (st3, snd s2))
            | None => None
            end
          else
            let s3 := while_waiting s2 in
            match iiod_reader_wait_for_response (fst s3) reader with
            | Some (code, st4) => Some (to_int32 code, (st4, snd s3))
            | None => None
            end
      end
  end.

(** [iiod_reader_exec_simple_command] (iiod-responder.h). *)
Definition iiod_reader_exec_simple_command (fuel : nat)
    (while_sending while_waiting : sys T -> sys T) (s : sys T)
    (reader : handle) (c : iiod_command) : option (Z * sys T) :=
  iiod_reader_exec_command fuel while_sending while_waiting s reader c
                           None None.

End Client.

(** The writer thread and the reader thread on the stream, once round
    their loops: what a sleeping caller is woken by. *)
Definition writer_pass (fuel : nat) (cmd_ptr : Z) (s : sys stream)
  : sys stream :=
  snd (writer_thrd_iteration stream stream_ops fuel cmd_ptr s).

Definition reader_pass (fuel : nat) (cmd_ptr : Z) (s : sys stream)
  : sys stream :=
  snd (reader_thrd_iteration stream stream_ops fuel cmd_ptr s).

(* ------------------------------------------------------------------ *)
(** ** More sample configurations and notions *)

(** The header of a response for client [id] with code [code]. *)
Definition response_frame (id code : Z) : list byte :=
  encode_cmd {| cmd_client_id := id; cmd_op := IIOD_OP_RESPONSE;
                cmd_dev := 0; cmd_code := code |}.

(** Handles 1, 2 and 3 (client ids 41, 42 and 43) waiting for a
    response, in that order, none with a buffer. *)
Definition three_waiting : state :=
  {| priv := set_readers (Some 1%nat) zero_responder;
     heap := fun p =>
       match p with
       | 1%nat => set_r_next (Some 2%nat) (set_client_id 41 zero_reader)
       | 2%nat => set_r_next (Some 3%nat) (set_client_id 42 zero_reader)
       | 3%nat => set_client_id 43 zero_reader
       | _ => zero_reader
       end |}.

(** A command handler that knows [PRINT] only and refuses the rest. *)
Definition print_only (c : iiod_command) (t : stream) (m : mem)
  : Z * stream * mem :=
  (if cmd_op c =? IIOD_OP_PRINT then 0 else - EINVAL, t, m).

(** The outbound slot of a [VERSION] command with the 2-byte payload and
    the cleanup callback 7, and handle 1 (client id 42) holding it, off
    the queue and about to be written. *)
Definition version_with_cleanup : iiod_client_data :=
  {| cmd := {| cmd_client_id := 42; cmd_op := IIOD_OP_VERSION; cmd_dev := 0;
               cmd_code := 0 |};
     buf := Some sample_payload; nb_buf := 1;
     cleanup_cb := Some 7%nat; cleanup_cb_d := 99 |}.

Definition one_dequeued : state :=
  {| priv := zero_responder;
     heap := fun p =>
       match p with
       | 1%nat => set_w_io version_with_cleanup (set_client_id 42 zero_reader)
       | _ => zero_reader
       end |}.

(** [three_waiting] after handle 2 has been unlinked, as a response for
    client 42 or a cancellation leaves it. *)
Definition three_waiting_less_2 : state :=
  match __iiod_reader_cancel_unlocked 4 three_waiting 2%nat with
  | Some st => st
  | None => three_waiting
  end.

(** The address of the reader thread's local [cmd] in the samples. *)
Definition cmd_addr_r : Z := 1100.

(** Handles 1, 2 and 3 waiting for a response in that order, and queued
    for writing in the order 3, 2, 1. *)
Definition three_queued : state :=
  {| priv := set_writers (Some 3%nat) (set_readers (Some 1%nat) zero_responder);
     heap := fun p =>
       match p with
       | 1%nat => set_r_next (Some 2%nat) (set_client_id 41 zero_reader)
       | 2%nat => set_w_next (Some 1%nat)
                    (set_r_next (Some 3%nat) (set_client_id 42 zero_reader))
       | 3%nat => set_w_next (Some 2%nat) (set_client_id 43 zero_reader)
       | _ => zero_reader
       end |}.

(** The outbound slot [iiod_reader_send_command] fills for the command
    [c] with the optional payload descriptor [cmd_buf]. *)
Definition command_slot (id : Z) (c : iiod_command) (cmd_buf : option iiod_buf)
  : iiod_client_data :=
  {| cmd := {| cmd_client_id := id; cmd_op := cmd_op c; cmd_dev := cmd_dev c;
               cmd_code := cmd_code c |};
     buf := single_buf cmd_buf; nb_buf := is_non_null cmd_buf;
     cleanup_cb := None; cleanup_cb_d := 0 |}.

(** The bytes the writer thread sends for the handles [q], in order,
    starting with the memory [m]: each transfer leaves the header it
    sent in the thread's local [cmd], at [cmd_ptr]. *)
Fixpoint frames_from (cmd_ptr : Z) (m : mem) (st : state) (q : list handle)
  : list byte :=
  match q with
  | [] => []
  | p :: q' =>
      frame_bytes cmd_ptr m (w_io (heap st p))
      ++ frames_from cmd_ptr
           (store_bytes m cmd_ptr (encode_cmd (cmd (w_io (heap st p)))))
           st q'
  end.

(** A queued frame the writer thread can send: fewer than 32 payload
    descriptors, as many as announced, none of them empty. *)
Definition sendable (io : iiod_client_data) : Prop :=
  0 <= nb_buf io < 32
  /\ descriptors_ok None (buf io) (nb_buf io)
  /\ sizes_pos (payload_descriptors (buf io) (nb_buf io)).

(** The size of the frame queued in [io]. *)
Definition frame_size (io : iiod_client_data) : Z :=
  8 + capacity (payload_descriptors (buf io) (nb_buf io)).

(** Proof steps that recur: reading a field of a handle that has just
    been updated ([same] is the equation for [upd] at the updated
    pointer), and the descriptors of a command slot. *)
Ltac heap_simpl_with same :=
  repeat first
    [ rewrite same
    | progress cbn [with_priv with_reader heap priv
                    set_w_done set_w_next set_w_io set_r_done set_r_io
                    set_r_next set_io_code set_cmd_code set_client_id
                    w_io r_io w_done r_done w_next r_next client_id
                    cmd buf nb_buf cleanup_cb cleanup_cb_d
                    set_writers set_readers set_thrd_stop
                    writers readers thrd_stop] ].

Ltac slot_simpl :=
  unfold payload_descriptors, command_slot, single_buf, is_non_null;
  cbn [buf nb_buf];
  change (Z.to_nat 1) with 1%nat; change (Z.to_nat 0) with 0%nat;
  cbn [firstn capacity length].

(* ================================================================== *)
(** * Properties *)

(* ------------------------------------------------------------------ *)
(** ** iiod_rw_all *)



Section RwAll.

Variable T : Type.
Variable ops : iiod_responder_ops T.

Lemma transferred_app (l1 l2 : list io_event) :
  transferred (l1 ++ l2) = transferred l1 + transferred l2.
Proof.
  induction l1 as [|e l1 IH]; simpl; [reflexivity|]. rewrite IH. lia.
Qed.

Lemma do_read_log w bufs ret w1 :
  do_read T ops w bufs = (ret, w1) ->
  w_log w1 = w_log w ++ [Io_read bufs ret].
Proof.
  unfold do_read. destruct (op_read ops (w_tr w) (w_mem w) bufs) as [[r t] m].
  intros H; inversion H; subst; reflexivity.
Qed.

Lemma do_write_log w bufs ret w1 :
  do_write T ops w bufs = (ret, w1) ->
  w_log w1 = w_log w ++ [Io_write bufs ret].
Proof.
  unfold do_write. destruct (op_write ops (w_tr w) (w_mem w) bufs) as [r t].
  intros H; inversion H; subst; reflexivity.
Qed.

(** The inner loop keeps [count + ret] constant. *)
Lemma rw_advance_sum curr : forall ret count nb ret2 count2 nb2 curr2,
  rw_advance curr ret count nb = Some (ret2, count2, nb2, curr2) ->
  count2 + ret2 = count + ret.
Proof.
  induction curr as [|c rest IH]; intros ret count nb ret2 count2 nb2 curr2;
    simpl; destruct (ret =? 0) eqn:E0; intros H; try discriminate;
    try (inversion H; subst; reflexivity).
  destruct (size c <=? to_size_t ret).
  - apply IH in H. lia.
  - inversion H; subst; reflexivity.
Qed.


(** One iteration of the transfer loop, as an equation. *)
Lemma rw_loop_step fuel bytes is_read w c rest nb count :
  rw_loop T ops (S fuel) bytes is_read w (c :: rest) nb count =
  let trunc := is_read && (to_size_t (bytes - count) <=? size c) in
  let c1 := if trunc then set_size c (to_size_t (bytes - count)) else c in
  let nb1 := if trunc then 1 else nb in
  if Z.of_nat (length (c1 :: rest)) <? nb1 then (Undefined, w)
  else
    let '(ret, w1) :=
      if is_read then do_read T ops w (firstn (Z.to_nat nb1) (c1 :: rest))
      else do_write T ops w (firstn (Z.to_nat nb1) (c1 :: rest)) in
    if ret <=? 0 then (Ret ret, w1)
    else
      match rw_advance (c1 :: rest) ret count nb1 with
      | None => (Undefined, w1)
      | Some (ret2, count2, nb2, curr2) =>
          if (ret2 =? 0) && (nb2 =? 0) then (Ret count2, w1)
          else
            match curr2 with
            | [] => (Undefined, w1)
            | c2 :: rest2 =>
                rw_loop T ops fuel bytes is_read w1
                  ({| ptr := ptr c2 + ret2; size := size c2 - ret2 |}
                     :: rest2)
                  nb2 (count2 + ret2)
            end
      end.
Proof. reflexivity. Qed.

Lemma rw_loop_reports bytes is_read : forall fuel w curr nb count r w',
  rw_loop T ops fuel bytes is_read w curr nb count = (Ret r, w') ->
  exists evs, w_log w' = w_log w ++ evs /\ rw_reports r count evs.
Proof.
  induction fuel as [|fuel IH]; intros w curr nb count r w' H;
    [discriminate|].
  destruct curr as [|c rest]; [discriminate|].
  rewrite rw_loop_step in H. cbv zeta in H.
  set (trunc := is_read && (to_size_t (bytes - count) <=? size c)) in *.
  set (c1 := if trunc then set_size c (to_size_t (bytes - count)) else c) in *.
  set (nb1 := if trunc then 1 else nb) in *.
  destruct (Z.of_nat (length (c1 :: rest)) <? nb1); [discriminate|].
  set (bufs := firstn (Z.to_nat nb1) (c1 :: rest)) in *.
  assert (Hio : exists ret w1 e,
             (if is_read then do_read T ops w bufs else do_write T ops w bufs)
             = (ret, w1)
             /\ w_log w1 = w_log w ++ [e] /\ io_ret e = ret).
  { destruct is_read.
    - destruct (do_read T ops w bufs) as [ret w1] eqn:E.
      exists ret, w1, (Io_read bufs ret). split; [reflexivity|].
      split; [eapply do_read_log; eassumption | reflexivity].
    - destruct (do_write T ops w bufs) as [ret w1] eqn:E.
      exists ret, w1, (Io_write bufs ret). split; [reflexivity|].
      split; [eapply do_write_log; eassumption | reflexivity]. }
  destruct Hio as (ret & w1 & e & Eio & Hlog & Hret).
  rewrite Eio in H.
  destruct (ret <=? 0) eqn:Eret.
  - inversion H; subst r w'. exists [e]. split; [assumption|].
    right. exists [], e. repeat split; auto. apply Z.leb_le; assumption.
  - apply Z.leb_gt in Eret.
    destruct (rw_advance (c1 :: rest) ret count nb1)
      as [[[[ret2 count2] nb2] curr2]|] eqn:Eadv; [|discriminate].
    apply rw_advance_sum in Eadv.
    destruct ((ret2 =? 0) && (nb2 =? 0)) eqn:Ebrk.
    + inversion H; subst r w'. exists [e]. split; [assumption|].
      left. split.
      * constructor; [unfold io_positive; lia | constructor].
      * apply andb_prop in Ebrk. destruct Ebrk as [E2 _].
        apply Z.eqb_eq in E2. simpl. lia.
    + destruct curr2 as [|c2 rest2]; [discriminate|].
      apply IH in H. destruct H as (evs & Hlog' & Hrep).
      exists (e :: evs). split.
      * rewrite Hlog', Hlog, <- app_assoc. reflexivity.
      * destruct Hrep as [[Hall Hr] | (evs0 & e' & Hev & Hall & Hr & Hle)].
        -- left. split.
           ++ constructor; [unfold io_positive; lia | assumption].
           ++ simpl. lia.
        -- right. exists (e :: evs0), e'. subst evs. repeat split; auto.
           constructor; [unfold io_positive; lia | assumption].
Qed.

(** *** Termination on a transport that respects the capacity offered *)

Lemma sizes_ok_capacity bufs : sizes_ok bufs -> 0 <= capacity bufs.
Proof.
  induction 1 as [|b l Hb _ IH]; simpl; lia.
Qed.

Lemma sizes_ok_firstn n bufs : sizes_ok bufs -> sizes_ok (firstn n bufs).
Proof.
  intros H. revert n.
  induction H as [|b l Hb Hl IH]; intros [|n]; simpl; constructor; auto.
  apply IH.
Qed.

Lemma firstn_Z_cons (nb : Z) (c : iiod_buf) rest :
  1 <= nb ->
  firstn (Z.to_nat nb) (c :: rest) = c :: firstn (Z.to_nat (nb - 1)) rest.
Proof.
  intros H. replace (Z.to_nat nb) with (S (Z.to_nat (nb - 1))) by lia.
  reflexivity.
Qed.

Lemma to_size_t_small x : 0 <= x < 2 ^ 64 -> to_size_t x = x.
Proof. intros H. unfold to_size_t. apply Z.mod_small. exact H. Qed.

Lemma to_size_t_range x : 0 <= to_size_t x < 2 ^ 64.
Proof. unfold to_size_t. apply Z.mod_pos_bound. lia. Qed.

Lemma rw_advance_ok curr : forall ret count nb,
  sizes_ok curr ->
  0 <= nb <= Z.of_nat (length curr) -> nb < 2 ^ 64 ->
  0 <= ret < 2 ^ 64 ->
  ret <= capacity (firstn (Z.to_nat nb) curr) ->
  exists ret2 count2 nb2 curr2,
    rw_advance curr ret count nb = Some (ret2, count2, nb2, curr2)
    /\ sizes_ok curr2
    /\ 0 <= nb2 <= Z.of_nat (length curr2) /\ nb2 < 2 ^ 64
    /\ 0 <= ret2
    /\ capacity (firstn (Z.to_nat nb2) curr2)
       = capacity (firstn (Z.to_nat nb) curr) - (ret - ret2)
    /\ (ret2 = 0
        \/ exists c2 rest2, curr2 = c2 :: rest2 /\ ret2 < size c2
                            /\ 1 <= nb2).
Proof.
  induction curr as [|c rest IH]; intros ret count nb Hok Hnb Hnb64 Hret Hcap.
  - cbn [length] in Hnb. assert (nb = 0) by lia. subst nb.
    cbn [Z.to_nat firstn capacity] in Hcap.
    assert (ret = 0) by lia. subst ret.
    exists 0, count, 0, []. cbn [length].
    split; [reflexivity|]. repeat split; auto; try lia.
  - destruct (Z.eq_dec ret 0) as [E|E].
    + subst ret. exists 0, count, nb, (c :: rest).
      split; [reflexivity|]. repeat split; auto; lia.
    + assert (1 <= nb).
      { destruct (Z.eq_dec nb 0) as [E0|E0]; [|lia].
        subst nb. simpl in Hcap. lia. }
      inversion Hok as [|c' rest' Hc Hrest]; subst.
      rewrite firstn_Z_cons in Hcap |- * by assumption.
      cbn [capacity] in Hcap. cbn [length] in Hnb.
      cbn [rw_advance]. apply Z.eqb_neq in E. rewrite E.
      rewrite (to_size_t_small ret) by assumption.
      destruct (size c <=? ret) eqn:Ele.
      * apply Z.leb_le in Ele.
        rewrite (to_size_t_small (nb - 1)) by lia.
        destruct (IH (ret - size c) (count + size c) (nb - 1))
          as (ret2 & count2 & nb2 & curr2 & Heq & H1 & H2 & H3 & H4 & H5 & H6);
          auto; try lia.
        exists ret2, count2, nb2, curr2. rewrite Heq.
        split; [reflexivity|]. repeat split; auto; try lia.
        cbn [capacity]. lia.
      * apply Z.leb_gt in Ele.
        exists ret, count, nb, (c :: rest).
        rewrite firstn_Z_cons by assumption.
        split; [reflexivity|]. cbn [length].
        repeat split; auto; try lia.
        right. exists c, rest. repeat split; auto.
Qed.

Lemma rw_loop_returns bytes is_read :
  transport_bounded ops ->
  forall fuel w curr nb count,
    sizes_ok curr ->
    1 <= nb <= Z.of_nat (length curr) -> nb < 2 ^ 64 ->
    capacity (firstn (Z.to_nat nb) curr) < Z.of_nat fuel ->
    exists r w', rw_loop T ops fuel bytes is_read w curr nb count = (Ret r, w').
Proof.
  intros [Hrd Hwr].
  induction fuel as [|fuel IH]; intros w curr nb count Hok Hnb Hnb64 Hcap.
  - pose proof (sizes_ok_capacity _ (sizes_ok_firstn (Z.to_nat nb) _ Hok)).
    lia.
  - destruct curr as [|c rest]; [cbn [length] in Hnb; lia|].
    rewrite rw_loop_step. cbv zeta.
    set (trunc := is_read && (to_size_t (bytes - count) <=? size c)).
    set (c1 := if trunc then set_size c (to_size_t (bytes - count)) else c).
    set (nb1 := if trunc then 1 else nb).
    inversion Hok as [|c' rest' Hc Hrest]; subst.
    assert (Hc1 : 0 <= size c1 <= size c).
    { unfold c1. destruct trunc eqn:Et; [|lia].
      unfold trunc in Et. apply andb_prop in Et. destruct Et as [_ Et].
      apply Z.leb_le in Et. cbn [set_size size].
      pose proof (to_size_t_range (bytes - count)). lia. }
    assert (Hok1 : sizes_ok (c1 :: rest)).
    { constructor; [lia | assumption]. }
    assert (Hnb1 : 1 <= nb1 <= Z.of_nat (length (c1 :: rest)) /\ nb1 <= nb).
    { unfold nb1. cbn [length] in *. destruct trunc; lia. }
    destruct Hnb1 as [Hnb1 Hnb1'].
    assert (Hcap1 : capacity (firstn (Z.to_nat nb1) (c1 :: rest))
                    <= capacity (firstn (Z.to_nat nb) (c :: rest))).
    { rewrite (firstn_Z_cons nb) by lia. unfold nb1.
      destruct trunc.
      - change (Z.to_nat 1) with 1%nat. cbn [firstn capacity].
        pose proof (sizes_ok_capacity _
                      (sizes_ok_firstn (Z.to_nat (nb - 1)) _ Hrest)). lia.
      - rewrite firstn_Z_cons by lia. cbn [capacity]. lia. }
    destruct (Z.of_nat (length (c1 :: rest)) <? nb1) eqn:El;
      [apply Z.ltb_lt in El; lia|].
    set (bufs := firstn (Z.to_nat nb1) (c1 :: rest)) in *.
    assert (Hbufs : sizes_ok bufs) by (apply sizes_ok_firstn; assumption).
    assert (Hio : exists ret w1,
               (if is_read then do_read T ops w bufs
                else do_write T ops w bufs) = (ret, w1)
               /\ ret <= capacity bufs /\ ret < 2 ^ 63).
    { destruct is_read.
      - unfold do_read.
        pose proof (Hrd (w_tr w) (w_mem w) bufs Hbufs) as Hb.
        destruct (op_read ops (w_tr w) (w_mem w) bufs) as [[r t] m].
        cbn [fst] in Hb. eexists _, _. split; [reflexivity | exact Hb].
      - unfold do_write.
        pose proof (Hwr (w_tr w) (w_mem w) bufs Hbufs) as Hb.
        destruct (op_write ops (w_tr w) (w_mem w) bufs) as [r t].
        cbn [fst] in Hb. eexists _, _. split; [reflexivity | exact Hb]. }
    destruct Hio as (ret & w1 & Eio & Hle & H63). rewrite Eio.
    destruct (ret <=? 0) eqn:Eret; [eexists _, _; reflexivity|].
    apply Z.leb_gt in Eret.
    destruct (rw_advance_ok (c1 :: rest) ret count nb1)
      as (ret2 & count2 & nb2 & curr2 & Heq & H1 & H2 & H3 & H4 & H5 & H6);
      auto; try lia.
    rewrite Heq.
    destruct ((ret2 =? 0) && (nb2 =? 0)) eqn:Ebrk;
      [eexists _, _; reflexivity|].
    assert (Hcurr2 : exists c2 rest2, curr2 = c2 :: rest2 /\ 1 <= nb2
                                      /\ ret2 <= size c2).
    { destruct H6 as [E2 | (c2 & rest2 & E2 & Hlt & Hnb2)].
      - subst ret2. rewrite Z.eqb_refl in Ebrk. cbn [andb] in Ebrk.
        apply Z.eqb_neq in Ebrk.
        destruct curr2 as [|c2 rest2]; [cbn [length] in H2; lia|].
        inversion H1; subst. exists c2, rest2. repeat split; lia.
      - exists c2, rest2. repeat split; auto; lia. }
    destruct Hcurr2 as (c2 & rest2 & E2 & Hnb2 & Hr2). subst curr2.
    inversion H1 as [|c2' rest2' Hc2 Hrest2]; subst.
    apply IH.
    + constructor; [cbn [size]; lia | assumption].
    + cbn [length] in *. lia.
    + assumption.
    + rewrite firstn_Z_cons in H5 |- * by assumption.
      cbn [capacity size] in H5 |- *. fold bufs in H5. lia.
Qed.

End RwAll.

(* ------------------------------------------------------------------ *)
(** ** The handle store *)

Lemma upd_same h p f : upd h p f p = f (h p).
Proof. unfold upd. rewrite Nat.eqb_refl. reflexivity. Qed.

Lemma upd_other h p f q : q <> p -> upd h p f q = h q.
Proof.
  intros H. unfold upd. apply Nat.eqb_neq in H. rewrite H. reflexivity.
Qed.

(* ------------------------------------------------------------------ *)
(** ** Creation of the responder *)

(** When the writer thread does start, creation fails exactly when a
    step fails, and what was created is destroyed in reverse order. *)
Lemma iiod_responder_create_rollback (env : create_env) :
  write_thrd_ok env = true ->
  match iiod_responder_create env with
  | (Some p, log) => all_ok env = true /\ destroyed log = []
  | (None, log) => all_ok env = false /\ destroyed log = rev (created log)
  end.
Proof.
  destruct env as [a b c d e f g]. cbn [write_thrd_ok]. intros ->.
  destruct a, b, c, d, e, f; vm_compute; split; reflexivity.
Qed.

(** C8 (evaluation at the failing input): when only the start of the
    writer thread fails, [iiod_responder_create] still returns the
    responder, its [write_thrd] holding the error pointer, and nothing is
    released: the second test looks at [read_thrd] again. *)
Theorem iiod_responder_create_misses_writer_failure :
  all_ok writer_thread_fails = false
  /\ exists p,
       iiod_responder_create writer_thread_fails
       = (Some p, [Created Res_priv; Created Res_lock; Created Res_rlock;
                   Created Res_wlock; Created Res_wcond;
                   Created Res_read_thrd])
       /\ write_thrd p = Thrd_err /\ read_thrd p = Thrd_ok.
Proof.
  split; [reflexivity|]. eexists. split; [vm_compute; reflexivity|].
  split; reflexivity.
Qed.

(* ------------------------------------------------------------------ *)
(** ** Client identifiers *)

Lemma created_ids_from (allocs : list handle) : forall st,
  0 <= next_client_id (priv st) < 2 ^ 16 ->
  created_ids st allocs
  = map (fun i => (next_client_id (priv st) + Z.of_nat i) mod 2 ^ 16)
        (seq 0 (length allocs)).
Proof.
  induction allocs as [|a rest IH]; intros st Hn; [reflexivity|].
  cbn [created_ids length seq map].
  unfold iiod_responder_create_reader, iiod_responder_get_new_id,
    iiod_responder_create_reader_from_id.
  cbn [with_reader with_priv heap priv].
  rewrite upd_same. cbn [set_client_id client_id].
  f_equal.
  - rewrite Z.add_0_r. symmetry. apply Z.mod_small. exact Hn.
  - rewrite IH.
    + rewrite <- seq_shift, map_map. apply map_ext. intros i.
      cbn [with_reader with_priv priv set_next_client_id next_client_id].
      unfold to_uint16. rewrite Zplus_mod_idemp_l. f_equal. lia.
    + cbn [with_reader with_priv priv set_next_client_id next_client_id].
      unfold to_uint16. apply Z.mod_pos_bound. lia.
Qed.

(** C9: a call of [iiod_responder_create_reader] leaves [next_client_id]
    incremented by one modulo 2^16 and gives the handle it returns the
    previous value as [client_id]; hence successive creations receive the
    consecutive ids n, n+1, ... taken modulo 2^16. *)
Theorem iiod_responder_create_reader_ids (st : state) :
  0 <= next_client_id (priv st) < 2 ^ 16 ->
  (forall alloc cond_ok,
      next_client_id
        (priv (snd (iiod_responder_create_reader st alloc cond_ok)))
      = (next_client_id (priv st) + 1) mod 2 ^ 16
      /\ forall reader,
          fst (iiod_responder_create_reader st alloc cond_ok) = Some reader ->
          client_id
            (heap (snd (iiod_responder_create_reader st alloc cond_ok)) reader)
          = next_client_id (priv st))
  /\ (forall allocs,
         created_ids st allocs
         = map (fun i => (next_client_id (priv st) + Z.of_nat i) mod 2 ^ 16)
               (seq 0 (length allocs))).
Proof.
  intros Hn. split.
  - intros alloc cond_ok.
    unfold iiod_responder_create_reader, iiod_responder_get_new_id,
      iiod_responder_create_reader_from_id.
    destruct alloc as [a|]; [destruct cond_ok|]; cbn [fst snd];
      (split; [reflexivity|]); intros reader H; try discriminate.
    inversion H; subst reader.
    cbn [with_reader with_priv heap priv]. rewrite upd_same.
    reflexivity.
  - intros allocs. apply created_ids_from. exact Hn.
Qed.

Lemma iiod_responder_create_reader_ids_witness :
  created_ids
    (with_priv fresh_state (set_next_client_id 65535)) [1%nat; 2%nat; 3%nat]
  = [65535; 0; 1].
Proof.
  destruct (iiod_responder_create_reader_ids
              (with_priv fresh_state (set_next_client_id 65535)))
    as [_ H].
  - cbn. lia.
  - rewrite H. reflexivity.
Defined.

(* ------------------------------------------------------------------ *)
(** ** Cancellation *)

(** C4 (evaluation at the failing input): with handles 1 and 2 on both
    lists, 1 at the head, [iiod_reader_cancel] of handle 1 empties both
    lists: handle 2 is dropped from the waiters and from the writers
    queue as well. *)
Theorem iiod_reader_cancel_head_drops_rest :
  waiters_list 4 two_queued = Some [1%nat; 2%nat]
  /\ writers_queue 4 two_queued = Some [1%nat; 2%nat]
  /\ exists st',
       iiod_reader_cancel 4 two_queued 1%nat = Some st'
       /\ waiters_list 4 st' = Some []
       /\ writers_queue 4 st' = Some [].
Proof.
  split; [reflexivity|]. split; [reflexivity|].
  eexists. split; [reflexivity|]. split; reflexivity.
Qed.

(* ------------------------------------------------------------------ *)
(** ** Sending *)

(** Whatever the other threads do, a synchronous send that returns,
    returns 0. *)
Lemma iiod_reader_send_command_returns_zero T fuel (others : sys T -> sys T)
    s reader c bufs nb r s' :
  iiod_reader_send_command T fuel others s reader c bufs nb = Some (r, s') ->
  r = 0.
Proof.
  unfold iiod_reader_send_command, iiod_reader_send_command_async,
    iiod_enqueue_command.
  match goal with
  | |- context [match writers ?p with _ => _ end] => destruct (writers p)
  end.
  - match goal with
    | |- context [last_writer ?f ?st ?h] => destruct (last_writer f st h)
    end; [|discriminate].
    cbn [negb Z.eqb]. cbn [fst snd].
    match goal with
    | |- context [iiod_reader_wait_for_command_done ?a ?b] =>
        destruct (iiod_reader_wait_for_command_done a b)
    end; [|discriminate].
    intros H; inversion H; reflexivity.
  - cbn [negb Z.eqb]. cbn [fst snd].
    match goal with
    | |- context [iiod_reader_wait_for_command_done ?a ?b] =>
        destruct (iiod_reader_wait_for_command_done a b)
    end; [|discriminate].
    intros H; inversion H; reflexivity.
Qed.

(** ... and it does not return before the writer thread has set
    [w_done]. *)
Lemma iiod_reader_send_command_blocks T fuel (others : sys T -> sys T)
    s reader c bufs nb st1 :
  iiod_reader_send_command_async fuel (fst s) reader c bufs nb None 0
  = Some (0, st1) ->
  w_done (heap (fst (others (st1, snd s))) reader) = false ->
  iiod_reader_send_command T fuel others s reader c bufs nb = None.
Proof.
  intros Ha Hd. unfold iiod_reader_send_command. rewrite Ha.
  cbn [Z.eqb negb]. unfold iiod_reader_wait_for_command_done.
  rewrite Hd. reflexivity.
Qed.

(** C1 (evaluation at the failing input): handle 1 sends a [VERSION]
    command on a stream whose peer is gone.  The writer thread's write
    fails with [-EPIPE], which it stores in the handle's [w_io.cmd.code];
    [iiod_reader_send_command] wakes up and returns 0. *)
Theorem iiod_reader_send_command_hides_write_error :
  exists st' w',
    iiod_reader_send_command stream 4 writer_runs_once (one_idle, hung_up)
                             1%nat version_cmd None 0
    = Some (0, (st', w'))
    /\ cmd_code (cmd (w_io (heap st' 1%nat))) = - EPIPE
    /\ w_log w' = [Io_write [{| ptr := 1000; size := 8 |}] (- EPIPE)].
Proof.
  eexists _, _. split; [vm_compute; reflexivity|].
  split; vm_compute; reflexivity.
Qed.

(** The tail walk of the enqueue ends on every queue that [chain] can
    follow to its end, also after next pointers were cleared. *)
Lemma last_writer_total : forall fuel st st1 head l,
  chain w_next (heap st) fuel (Some head) = Some l ->
  (forall p, w_next (heap st1 p) = w_next (heap st p)
             \/ w_next (heap st1 p) = None) ->
  exists last, last_writer fuel st1 head = Some last.
Proof.
  induction fuel as [|fuel IH]; intros st st1 head l Hc Hn;
    [discriminate|].
  cbn [chain] in Hc. cbn [last_writer].
  destruct (chain w_next (heap st) fuel (w_next (heap st head)))
    as [l'|] eqn:El; [|discriminate].
  destruct (w_next (heap st1 head)) as [n|] eqn:En; [|eexists; reflexivity].
  destruct (Hn head) as [E|E]; [|congruence].
  rewrite En in E. rewrite <- E in El. eapply IH; eassumption.
Qed.

Lemma iiod_enqueue_command_returns_zero fuel st l writer op dev code bufs nb
    cb d :
  writers_queue fuel st = Some l ->
  exists st',
    iiod_enqueue_command fuel st writer op dev code bufs nb cb d
    = Some (0, st').
Proof.
  intros Hq. unfold iiod_enqueue_command. unfold writers_queue in Hq.
  cbn [with_reader priv].
  destruct (writers (priv st)) as [head|] eqn:Eh; [|eexists; reflexivity].
  match goal with
  | |- context [last_writer fuel ?st1 head] =>
      destruct (last_writer_total fuel st st1 head l Hq) as [last Hl]
  end.
  - intros p. cbn [heap with_reader].
    destruct (Nat.eq_dec p writer) as [E|E].
    + subst p. rewrite upd_same. right. reflexivity.
    + rewrite upd_other by assumption. left. reflexivity.
  - rewrite Hl. eexists; reflexivity.
Qed.


(* ------------------------------------------------------------------ *)
(** ** Orphan responses *)

(** C2 (evaluation at the failing input): a response with code [-EPIPE]
    for a client nobody waits for, followed by a [PRINT] command.  The
    reader thread hands [(size_t) -32] to [iiod_discard_data], which eats
    the command that follows and stops only on the transport's error. *)
Theorem reader_thrd_orphan_error_discards :
  exists st' w',
    reader_thrd_iteration stream stream_ops 8 cmd_addr
      (fresh_state, incoming orphan_error_then_print 8)
    = (Ret (Continue, 8), (st', w'))
    /\ inbox (w_tr w') = []
    /\ w_log w'
       = [Io_read [{| ptr := cmd_addr; size := 8 |}] 8;
          Io_discard (2 ^ 64 - 32) 8;
          Io_discard (2 ^ 64 - 40) (- EPIPE)].
Proof.
  eexists _, _. split; [vm_compute; reflexivity|].
  split; vm_compute; reflexivity.
Qed.

(* ------------------------------------------------------------------ *)
(** ** Bytes, descriptors and resumption *)

Lemma load_bytes_length m : forall n a, length (load_bytes m a n) = n.
Proof.
  induction n as [|n IH]; intros a; cbn [load_bytes length];
    [reflexivity|]. rewrite IH. reflexivity.
Qed.

Lemma load_bytes_skipn m : forall n k a,
  skipn n (load_bytes m a (n + k)) = load_bytes m (a + Z.of_nat n) k.
Proof.
  induction n as [|n IH]; intros k a.
  - cbn [Nat.add skipn]. rewrite Z.add_0_r. reflexivity.
  - cbn [Nat.add load_bytes skipn]. rewrite IH. f_equal. lia.
Qed.

Lemma store_bytes_app : forall b1 b2 m a,
  store_bytes m a (b1 ++ b2)
  = store_bytes (store_bytes m a b1) (a + Z.of_nat (length b1)) b2.
Proof.
  induction b1 as [|x b1 IH]; intros b2 m a.
  - cbn [app store_bytes length]. rewrite Z.add_0_r. reflexivity.
  - cbn [app store_bytes length]. rewrite IH. f_equal. lia.
Qed.

Lemma scatter_nil : forall bufs m, scatter m bufs [] = m.
Proof.
  induction bufs as [|b rest IH]; intros m; cbn [scatter]; [reflexivity|].
  rewrite firstn_nil, skipn_nil. cbn [store_bytes]. apply IH.
Qed.

Lemma gather_length m : forall bufs,
  sizes_ok bufs -> Z.of_nat (length (gather m bufs)) = capacity bufs.
Proof.
  induction 1 as [|b rest Hb _ IH]; cbn [gather capacity length];
    [reflexivity|].
  rewrite length_app, load_bytes_length, Nat2Z.inj_add, IH. lia.
Qed.

Lemma resume_zero : forall curr, resume curr 0 = curr.
Proof.
  intros [|[p sz] rest]; cbn [resume ptr size]; [reflexivity|].
  rewrite Z.add_0_r, Z.sub_0_r. reflexivity.
Qed.

(** What the inner loop leaves behind: the descriptors not yet filled,
    which hold exactly the bytes after the first [ret]. *)
Lemma rw_advance_effects curr : forall ret count nb ret2 count2 nb2 curr2,
  sizes_ok curr ->
  0 <= nb <= Z.of_nat (length curr) -> nb < 2 ^ 64 ->
  0 <= ret < 2 ^ 64 ->
  ret <= capacity (firstn (Z.to_nat nb) curr) ->
  rw_advance curr ret count nb = Some (ret2, count2, nb2, curr2) ->
  nb2 <= nb
  /\ (exists pre, curr = pre ++ curr2)
  /\ (forall m,
        skipn (Z.to_nat ret) (gather m (firstn (Z.to_nat nb) curr))
        = gather m (firstn (Z.to_nat nb2) (resume curr2 ret2)))
  /\ (forall m b1 b2,
        Z.of_nat (length b1) = ret ->
        scatter m (firstn (Z.to_nat nb) curr) (b1 ++ b2)
        = scatter (scatter m (firstn (Z.to_nat nb) curr) b1)
                  (firstn (Z.to_nat nb2) (resume curr2 ret2)) b2).
Proof.
  induction curr as [|c rest IH];
    intros ret count nb ret2 count2 nb2 curr2 Hok Hnb Hnb64 Hret Hcap Heq.
  - cbn [length] in Hnb. assert (nb = 0) by lia. subst nb.
    cbn [Z.to_nat firstn capacity] in Hcap.
    assert (ret = 0) by lia. subst ret.
    cbn in Heq. inversion Heq; subst.
    split; [lia|]. split; [exists []; reflexivity|].
    split; intros; cbn; [reflexivity|].
    destruct b1; [reflexivity | cbn [length] in *; lia].
  - destruct (Z.eq_dec ret 0) as [E|E].
    + subst ret. cbn in Heq. inversion Heq; subst.
      rewrite resume_zero.
      split; [lia|]. split; [exists []; reflexivity|].
      split; intros.
      * reflexivity.
      * destruct b1; [|cbn [length] in *; lia].
        cbn [app]. rewrite scatter_nil. reflexivity.
    + assert (1 <= nb).
      { destruct (Z.eq_dec nb 0) as [E0|E0]; [|lia].
        subst nb. cbn [Z.to_nat firstn capacity] in Hcap. lia. }
      inversion Hok as [|c' rest' Hc Hrest]; subst.
      rewrite firstn_Z_cons in Hcap |- * by assumption.
      cbn [capacity] in Hcap. cbn [length] in Hnb.
      cbn [rw_advance] in Heq. apply Z.eqb_neq in E. rewrite E in Heq.
      rewrite (to_size_t_small ret) in Heq by assumption.
      destruct (size c <=? ret) eqn:Ele.
      * apply Z.leb_le in Ele.
        rewrite (to_size_t_small (nb - 1)) in Heq by lia.
        destruct (IH (ret - size c) (count + size c) (nb - 1)
                     ret2 count2 nb2 curr2)
          as (H1 & [pre H2] & H3 & H4); auto; try lia.
        split; [lia|]. split; [exists (c :: pre); rewrite H2; reflexivity|].
        split.
        -- intros m. cbn [gather]. rewrite <- H3.
           rewrite skipn_app, load_bytes_length.
           rewrite skipn_all2 by (rewrite load_bytes_length; lia).
           cbn [app]. f_equal. lia.
        -- intros m b1 b2 Hlen. cbn [scatter].
           set (n := Z.to_nat (size c)).
           assert (Hn : (n <= length b1)%nat) by lia.
           rewrite firstn_app, skipn_app.
           replace (n - length b1)%nat with 0%nat by lia.
           cbn [firstn skipn]. rewrite app_nil_r.
           apply H4. rewrite length_skipn. lia.
      * apply Z.leb_gt in Ele. inversion Heq; subst.
        split; [lia|]. split; [exists []; reflexivity|].
        cbn [resume]. rewrite firstn_Z_cons by assumption.
        split.
        -- intros m. cbn [gather ptr size].
           rewrite skipn_app, load_bytes_length.
           replace (Z.to_nat ret2 - Z.to_nat (size c))%nat with 0%nat by lia.
           cbn [skipn]. f_equal.
           replace (Z.to_nat (size c))
             with (Z.to_nat ret2 + Z.to_nat (size c - ret2))%nat by lia.
           rewrite load_bytes_skipn. f_equal. lia.
        -- intros m b1 b2 Hlen. cbn [scatter ptr size].
           set (n := Z.to_nat (size c)).
           assert (Hn : (length b1 < n)%nat) by lia.
           rewrite (firstn_all2 (n := n) b1) by lia.
           rewrite (skipn_all2 (n := n) b1) by lia.
           rewrite scatter_nil.
           rewrite firstn_app, skipn_app.
           rewrite (firstn_all2 (n := n) b1) by lia.
           rewrite (skipn_all2 (n := n) b1) by lia.
           cbn [app].
           replace (Z.to_nat (size c - ret2)) with (n - length b1)%nat by lia.
           rewrite store_bytes_app. f_equal. f_equal. lia.
Qed.

(** One iteration of the transfer loop in which the transport moved
    [ret > 0] bytes and the cap, if any, did not cut the current
    descriptor short: either the list is exhausted and the loop returns,
    or it resumes on the list that holds the remaining bytes. *)
Lemma rw_loop_iteration T (ops : iiod_responder_ops T) fuel bytes is_read
    (w : world T) c rest nb count ret w1 :
  sizes_ok (c :: rest) ->
  1 <= nb <= Z.of_nat (length (c :: rest)) -> nb < 2 ^ 64 ->
  (is_read = true -> to_size_t (bytes - count) <= size c ->
   to_size_t (bytes - count) = size c /\ nb = 1) ->
  (if is_read then do_read T ops w (firstn (Z.to_nat nb) (c :: rest))
   else do_write T ops w (firstn (Z.to_nat nb) (c :: rest))) = (ret, w1) ->
  0 < ret <= capacity (firstn (Z.to_nat nb) (c :: rest)) -> ret < 2 ^ 63 ->
  (rw_loop T ops (S fuel) bytes is_read w (c :: rest) nb count
   = (Ret (count + ret), w1)
   /\ ret = capacity (firstn (Z.to_nat nb) (c :: rest)))
  \/ exists curr' nb',
       rw_loop T ops (S fuel) bytes is_read w (c :: rest) nb count
       = rw_loop T ops fuel bytes is_read w1 curr' nb' (count + ret)
       /\ sizes_ok curr'
       /\ 1 <= nb' <= Z.of_nat (length curr') /\ nb' <= nb
       /\ capacity (firstn (Z.to_nat nb') curr')
          = capacity (firstn (Z.to_nat nb) (c :: rest)) - ret
       /\ (forall m,
             skipn (Z.to_nat ret) (gather m (firstn (Z.to_nat nb) (c :: rest)))
             = gather m (firstn (Z.to_nat nb') curr'))
       /\ (forall m b1 b2,
             Z.of_nat (length b1) = ret ->
             scatter m (firstn (Z.to_nat nb) (c :: rest)) (b1 ++ b2)
             = scatter (scatter m (firstn (Z.to_nat nb) (c :: rest)) b1)
                       (firstn (Z.to_nat nb') curr') b2)
       /\ (sizes_pos (c :: rest) -> sizes_pos curr').
Proof.
  intros Hok Hnb Hnb64 Htrunc Hio Hret H63.
  rewrite rw_loop_step. cbv zeta.
  set (trunc := is_read && (to_size_t (bytes - count) <=? size c)).
  set (c1 := if trunc then set_size c (to_size_t (bytes - count)) else c).
  set (nb1 := if trunc then 1 else nb).
  assert (Hsame : c1 = c /\ nb1 = nb).
  { unfold c1, nb1. destruct trunc eqn:Et; [|split; reflexivity].
    unfold trunc in Et. apply andb_prop in Et. destruct Et as [Er Et].
    apply Z.leb_le in Et. destruct (Htrunc Er Et) as [E1 E2].
    rewrite E1, E2. destruct c; split; reflexivity. }
  destruct Hsame as [Ec Enb]. rewrite Ec, Enb. clear trunc c1 nb1 Ec Enb.
  destruct (Z.of_nat (length (c :: rest)) <? nb) eqn:El;
    [apply Z.ltb_lt in El; lia|].
  rewrite Hio.
  destruct (ret <=? 0) eqn:Eret; [apply Z.leb_le in Eret; lia|].
  destruct (rw_advance_ok (c :: rest) ret count nb)
    as (ret2 & count2 & nb2 & curr2 & Heq & H1 & H2 & H3 & H4 & H5 & H6);
    auto; try lia.
  destruct (rw_advance_effects (c :: rest) ret count nb ret2 count2 nb2 curr2)
    as (G1 & [pre G2] & G3 & G4); auto; try lia.
  pose proof (rw_advance_sum _ _ _ _ _ _ _ _ Heq) as Hsum.
  rewrite Heq.
  destruct ((ret2 =? 0) && (nb2 =? 0)) eqn:Ebrk.
  - left. apply andb_prop in Ebrk. destruct Ebrk as [E2 E3].
    apply Z.eqb_eq in E2. apply Z.eqb_eq in E3. subst ret2 nb2.
    cbn [Z.to_nat firstn capacity] in H5.
    split; [f_equal; f_equal; lia | lia].
  - right.
    assert (Hcurr2 : exists c2 rest2, curr2 = c2 :: rest2 /\ 1 <= nb2
                                      /\ (ret2 = 0 \/ ret2 < size c2)).
    { destruct H6 as [E2 | (c2 & rest2 & E2 & Hlt & Hnb2)].
      - subst ret2. rewrite Z.eqb_refl in Ebrk. cbn [andb] in Ebrk.
        apply Z.eqb_neq in Ebrk.
        destruct curr2 as [|c2 rest2]; [cbn [length] in H2; lia|].
        exists c2, rest2. split; [reflexivity|]. split; [lia|].
        left; reflexivity.
      - exists c2, rest2. split; [assumption|]. split; [assumption|].
        right; assumption. }
    destruct Hcurr2 as (c2 & rest2 & E2 & Hnb2 & Hr2). subst curr2.
    inversion H1 as [|c2' rest2' Hc2 Hrest2]; subst.
    exists (resume (c2 :: rest2) ret2), nb2.
    split; [cbn [resume]; f_equal; lia|].
    split; [constructor; [cbn [size]; lia | assumption]|].
    split; [cbn [resume length] in *; lia|].
    split; [assumption|].
    split.
    { cbn [resume]. rewrite firstn_Z_cons in H5 |- * by assumption.
      cbn [capacity size] in H5 |- *. lia. }
    split; [exact G3|]. split; [exact G4|].
    intros Hpos. unfold sizes_pos in *. rewrite G2 in Hpos.
    apply Forall_app in Hpos. destruct Hpos as [_ Hpos].
    inversion Hpos as [|c2' rest2' Hp Hprest]; subst.
    cbn [resume]. constructor; [cbn [size]; lia | assumption].
Qed.

(* ------------------------------------------------------------------ *)
(** ** Transfers over the byte stream *)

Lemma firstn_plus {A} : forall a b (l : list A),
  firstn (a + b) l = firstn a l ++ firstn b (skipn a l).
Proof.
  induction a as [|a IH]; intros b l; [reflexivity|].
  destruct l as [|x l]; cbn [Nat.add firstn skipn app].
  - rewrite firstn_nil. reflexivity.
  - rewrite IH. reflexivity.
Qed.

Lemma sizes_pos_ok bufs : sizes_pos bufs -> sizes_ok bufs.
Proof.
  intros H. eapply Forall_impl; [|exact H]. cbn beta. intros; lia.
Qed.

(** Writing a descriptor list to the stream appends the bytes it
    designates, however short the individual writes are. *)
Lemma stream_write_loop bytes : forall fuel (w : world stream) curr nb count,
  closed (w_tr w) = false -> 0 < chunk (w_tr w) < 2 ^ 63 ->
  sizes_ok curr ->
  1 <= nb <= Z.of_nat (length curr) -> nb < 2 ^ 64 ->
  capacity (firstn (Z.to_nat nb) curr) < Z.of_nat fuel ->
  exists r w',
    rw_loop stream stream_ops fuel bytes false w curr nb count = (Ret r, w')
    /\ w_mem w' = w_mem w
    /\ outbox (w_tr w')
       = outbox (w_tr w) ++ gather (w_mem w) (firstn (Z.to_nat nb) curr)
    /\ inbox (w_tr w') = inbox (w_tr w)
    /\ chunk (w_tr w') = chunk (w_tr w)
    /\ closed (w_tr w') = false.
Proof.
  induction fuel as [|fuel IH]; intros w curr nb count Hcl Hch Hok Hnb Hnb64 Hcap.
  - pose proof (sizes_ok_capacity _ (sizes_ok_firstn (Z.to_nat nb) _ Hok)).
    lia.
  - destruct curr as [|c rest]; [cbn [length] in Hnb; lia|].
    set (bufs := firstn (Z.to_nat nb) (c :: rest)) in *.
    assert (Hbufs : sizes_ok bufs) by (apply sizes_ok_firstn; assumption).
    pose proof (sizes_ok_capacity _ Hbufs) as Hcap0.
    pose proof (gather_length (w_mem w) bufs Hbufs) as Hlen.
    assert (Hq : quota (w_tr w) = chunk (w_tr w))
      by (unfold quota, SSIZE_MAX; lia).
    set (k := Z.to_nat (Z.min (chunk (w_tr w)) (capacity bufs))).
    set (w1 := {| w_mem := w_mem w;
                  w_tr := {| inbox := inbox (w_tr w);
                             outbox := outbox (w_tr w)
                                       ++ firstn k (gather (w_mem w) bufs);
                             chunk := chunk (w_tr w);
                             closed := false |};
                  w_log := w_log w ++ [Io_write bufs (Z.of_nat k)] |}).
    assert (Hio : do_write stream stream_ops w bufs = (Z.of_nat k, w1)).
    { unfold do_write. cbn [op_write stream_ops]. unfold stream_write.
      rewrite Hcl, Hq. reflexivity. }
    destruct (Z.eq_dec (capacity bufs) 0) as [Ez|Ez].
    + assert (Hk : k = 0%nat) by (unfold k; lia).
      exists (Z.of_nat k), w1. split.
      * rewrite rw_loop_step. cbv zeta. cbn [andb].
        destruct (Z.of_nat (length (c :: rest)) <? nb) eqn:El;
          [apply Z.ltb_lt in El; lia|].
        fold bufs. rewrite Hio. rewrite Hk. reflexivity.
      * cbn [w_mem w_tr w1 inbox outbox chunk closed].
        repeat split; auto.
        rewrite Hk. cbn [firstn].
        assert (gather (w_mem w) bufs = []) as ->
            by (apply length_zero_iff_nil; lia).
        reflexivity.
    + assert (Hk : 0 < Z.of_nat k <= capacity bufs /\ Z.of_nat k < 2 ^ 63)
        by (unfold k; lia).
      destruct (rw_loop_iteration stream stream_ops fuel bytes false w c rest
                  nb count (Z.of_nat k) w1)
        as [[Hr Hall] | (curr' & nb' & Hr & H1 & H2 & H3 & H4 & H5 & _)];
        auto; try (fold bufs; lia); try discriminate.
      * exists (count + Z.of_nat k), w1. split; [exact Hr|].
        cbn [w_mem w_tr w1 inbox outbox chunk closed].
        repeat split; auto.
        fold bufs in Hall.
        rewrite firstn_all2 by lia. reflexivity.
      * fold bufs in H4, H5.
        destruct (IH w1 curr' nb' (count + Z.of_nat k))
          as (r & w' & Hr' & M1 & M2 & M3 & M4 & M5); auto; try lia.
        exists r, w'. split; [rewrite Hr; exact Hr'|].
        cbn [w_mem w_tr w1 inbox outbox chunk closed] in M1, M2, M3, M4, M5.
        repeat split; auto; try congruence.
        rewrite M2, <- app_assoc. f_equal.
        rewrite <- (H5 (w_mem w)). rewrite Nat2Z.id.
        apply firstn_skipn.
Qed.

(** Reading from the stream into a descriptor list that the cap does not
    cut short fills the list, in order, with the first bytes of the
    inbox, however short the individual reads are. *)
Lemma stream_read_loop bytes : forall fuel (w : world stream) curr nb count,
  0 < chunk (w_tr w) < 2 ^ 63 ->
  sizes_pos curr ->
  1 <= nb <= Z.of_nat (length curr) -> nb < 2 ^ 64 ->
  capacity (firstn (Z.to_nat nb) curr) <= bytes - count < 2 ^ 64 ->
  (capacity (firstn (Z.to_nat nb) curr) = bytes - count -> nb = 1) ->
  capacity (firstn (Z.to_nat nb) curr) <= Z.of_nat (length (inbox (w_tr w))) ->
  capacity (firstn (Z.to_nat nb) curr) < Z.of_nat fuel ->
  exists w',
    rw_loop stream stream_ops fuel bytes true w curr nb count
    = (Ret (count + capacity (firstn (Z.to_nat nb) curr)), w')
    /\ w_mem w'
       = scatter (w_mem w) (firstn (Z.to_nat nb) curr)
           (firstn (Z.to_nat (capacity (firstn (Z.to_nat nb) curr)))
                   (inbox (w_tr w)))
    /\ inbox (w_tr w')
       = skipn (Z.to_nat (capacity (firstn (Z.to_nat nb) curr)))
               (inbox (w_tr w))
    /\ outbox (w_tr w') = outbox (w_tr w)
    /\ chunk (w_tr w') = chunk (w_tr w)
    /\ closed (w_tr w') = closed (w_tr w).
Proof.
  induction fuel as [|fuel IH];
    intros w curr nb count Hch Hpos Hnb Hnb64 Hcap Heqcap Hin Hfuel.
  - pose proof (sizes_ok_capacity _
                  (sizes_ok_firstn (Z.to_nat nb) _ (sizes_pos_ok _ Hpos))).
    lia.
  - destruct curr as [|c rest]; [cbn [length] in Hnb; lia|].
    pose proof (sizes_pos_ok _ Hpos) as Hok.
    set (bufs := firstn (Z.to_nat nb) (c :: rest)) in *.
    assert (Hbufs : sizes_ok bufs) by (apply sizes_ok_firstn; assumption).
    assert (Hc : 0 < size c <= capacity bufs).
    { unfold bufs. rewrite firstn_Z_cons by lia. cbn [capacity].
      inversion Hpos as [|c' rest' Hpc Hprest]; subst.
      inversion Hok as [|c' rest' _ Hrest]; subst.
      pose proof (sizes_ok_capacity _
                    (sizes_ok_firstn (Z.to_nat (nb - 1)) _ Hrest)). lia. }
    set (k := Z.to_nat (Z.min (Z.min (chunk (w_tr w))
                                     (Z.of_nat (length (inbox (w_tr w)))))
                              (capacity bufs))).
    set (w1 := {| w_mem := scatter (w_mem w) bufs (firstn k (inbox (w_tr w)));
                  w_tr := {| inbox := skipn k (inbox (w_tr w));
                             outbox := outbox (w_tr w);
                             chunk := chunk (w_tr w);
                             closed := closed (w_tr w) |};
                  w_log := w_log w ++ [Io_read bufs (Z.of_nat k)] |}).
    assert (Hio : do_read stream stream_ops w bufs = (Z.of_nat k, w1)).
    { unfold do_read. cbn [op_read stream_ops]. unfold stream_read.
      replace (quota (w_tr w)) with (chunk (w_tr w))
        by (unfold quota, SSIZE_MAX; lia).
      reflexivity. }
    assert (Hk : 0 < Z.of_nat k <= capacity bufs
                 /\ (k <= length (inbox (w_tr w)))%nat) by (unfold k; lia).
    destruct (rw_loop_iteration stream stream_ops fuel bytes true w c rest
                nb count (Z.of_nat k) w1)
      as [[Hr Hall] | (curr' & nb' & Hr & H1 & H2 & H3 & H4 & H5 & H6 & H7)];
      auto; try (fold bufs; lia).
    + intros _ Hle. rewrite to_size_t_small in Hle |- * by lia.
      fold bufs in Heqcap. split; [lia|]. apply Heqcap. lia.
    + fold bufs in Hall. exists w1. rewrite <- Hall.
      split; [exact Hr|].
      cbn [w_mem w_tr w1 inbox outbox chunk closed].
      rewrite Nat2Z.id. repeat split; reflexivity.
    + fold bufs in H4, H5, H6.
      destruct (IH w1 curr' nb' (count + Z.of_nat k)) as
          (w' & Hr' & M1 & M2 & M3 & M4 & M5); auto; try lia.
      { cbn [w_tr w1 inbox]. rewrite length_skipn. lia. }
      exists w'. rewrite H4 in Hr', M1, M2.
      split.
      { rewrite Hr, Hr'. f_equal. f_equal. lia. }
      cbn [w_mem w_tr w1 inbox outbox chunk closed] in M1, M2, M3, M4, M5.
      repeat split; auto.
      * rewrite M1.
        replace (Z.to_nat (capacity bufs))
          with (k + Z.to_nat (capacity bufs - Z.of_nat k))%nat by lia.
        rewrite firstn_plus. symmetry. apply H6.
        rewrite length_firstn. lia.
      * rewrite M2, skipn_skipn. f_equal. lia.
Qed.

Lemma store_bytes_outside : forall bs m a a',
  ~ (a <= a' < a + Z.of_nat (length bs)) ->
  store_bytes m a bs a' = m a'.
Proof.
  induction bs as [|b bs IH]; intros m a a' H; cbn [store_bytes];
    [reflexivity|].
  cbn [length] in H. rewrite IH by lia. unfold mem_set.
  destruct (a' =? a) eqn:E; [apply Z.eqb_eq in E; lia | reflexivity].
Qed.

Lemma load_store_bytes : forall bs m a,
  load_bytes (store_bytes m a bs) a (length bs) = bs.
Proof.
  induction bs as [|b bs IH]; intros m a; cbn [store_bytes load_bytes length];
    [reflexivity|].
  rewrite IH. f_equal. rewrite store_bytes_outside by lia.
  unfold mem_set. rewrite Z.eqb_refl. reflexivity.
Qed.

(** The transfer loop in read mode calls nothing but [read]. *)
Lemma rw_loop_reads T (ops : iiod_responder_ops T) bytes :
  forall fuel w curr nb count o w',
    rw_loop T ops fuel bytes true w curr nb count = (o, w') ->
    exists evs, w_log w' = w_log w ++ evs /\ Forall is_read_event evs.
Proof.
  induction fuel as [|fuel IH]; intros w curr nb count o w' H.
  - inversion H; subst. exists []. rewrite app_nil_r. split; constructor.
  - destruct curr as [|c rest].
    { inversion H; subst. exists []. rewrite app_nil_r. split; constructor. }
    rewrite rw_loop_step in H. cbv zeta in H.
    set (trunc := true && (to_size_t (bytes - count) <=? size c)) in *.
    set (c1 := if trunc then set_size c (to_size_t (bytes - count)) else c) in *.
    set (nb1 := if trunc then 1 else nb) in *.
    destruct (Z.of_nat (length (c1 :: rest)) <? nb1).
    { inversion H; subst. exists []. rewrite app_nil_r. split; constructor. }
    set (bufs := firstn (Z.to_nat nb1) (c1 :: rest)) in *.
    destruct (do_read T ops w bufs) as [ret w1] eqn:Eio.
    pose proof (do_read_log T ops _ _ _ _ Eio) as Hlog.
    assert (Hone : exists evs, w_log w1 = w_log w ++ evs
                               /\ Forall is_read_event evs).
    { exists [Io_read bufs ret]. split; [assumption|].
      constructor; [exact I | constructor]. }
    destruct (ret <=? 0); [inversion H; subst; assumption|].
    destruct (rw_advance (c1 :: rest) ret count nb1)
      as [[[[ret2 count2] nb2] curr2]|]; [|inversion H; subst; assumption].
    destruct ((ret2 =? 0) && (nb2 =? 0)); [inversion H; subst; assumption|].
    destruct curr2 as [|c2 rest2]; [inversion H; subst; assumption|].
    apply IH in H. destruct H as (evs & Hl & Hall).
    exists (Io_read bufs ret :: evs). split.
    + rewrite Hl, Hlog, <- app_assoc. reflexivity.
    + constructor; [exact I | assumption].
Qed.

(** ... and in write mode nothing but [write]. *)
Lemma rw_loop_writes T (ops : iiod_responder_ops T) bytes :
  forall fuel w curr nb count o w',
    rw_loop T ops fuel bytes false w curr nb count = (o, w') ->
    exists evs, w_log w' = w_log w ++ evs /\ Forall is_write_event evs.
Proof.
  induction fuel as [|fuel IH]; intros w curr nb count o w' H.
  - inversion H; subst. exists []. rewrite app_nil_r. split; constructor.
  - destruct curr as [|c rest].
    { inversion H; subst. exists []. rewrite app_nil_r. split; constructor. }
    rewrite rw_loop_step in H. cbv zeta in H. cbn [andb] in H.
    destruct (Z.of_nat (length (c :: rest)) <? nb).
    { inversion H; subst. exists []. rewrite app_nil_r. split; constructor. }
    set (bufs := firstn (Z.to_nat nb) (c :: rest)) in *.
    destruct (do_write T ops w bufs) as [ret w1] eqn:Eio.
    pose proof (do_write_log T ops _ _ _ _ Eio) as Hlog.
    assert (Hone : exists evs, w_log w1 = w_log w ++ evs
                               /\ Forall is_write_event evs).
    { exists [Io_write bufs ret]. split; [assumption|].
      constructor; [exact I | constructor]. }
    destruct (ret <=? 0); [inversion H; subst; assumption|].
    destruct (rw_advance (c :: rest) ret count nb)
      as [[[[ret2 count2] nb2] curr2]|]; [|inversion H; subst; assumption].
    destruct ((ret2 =? 0) && (nb2 =? 0)); [inversion H; subst; assumption|].
    destruct curr2 as [|c2 rest2]; [inversion H; subst; assumption|].
    apply IH in H. destruct H as (evs & Hl & Hall).
    exists (Io_write bufs ret :: evs). split.
    + rewrite Hl, Hlog, <- app_assoc. reflexivity.
    + constructor; [exact I | assumption].
Qed.

(** Discarding [bytes] bytes that the stream holds removes exactly
    those, by calls of [discard] alone. *)
Lemma stream_discard_all : forall fuel (w : world stream) bytes,
  0 < chunk (w_tr w) < 2 ^ 63 ->
  0 <= bytes <= Z.of_nat (length (inbox (w_tr w))) -> bytes < 2 ^ 64 ->
  bytes <= Z.of_nat fuel ->
  exists w' evs,
    iiod_discard_data stream stream_ops fuel w bytes = (Ret 0, w')
    /\ w_mem w' = w_mem w
    /\ inbox (w_tr w') = skipn (Z.to_nat bytes) (inbox (w_tr w))
    /\ outbox (w_tr w') = outbox (w_tr w)
    /\ chunk (w_tr w') = chunk (w_tr w)
    /\ closed (w_tr w') = closed (w_tr w)
    /\ w_log w' = w_log w ++ evs
    /\ Forall is_discard_event evs /\ transferred evs = bytes.
Proof.
  induction fuel as [|fuel IH]; intros w bytes Hch Hb Hb64 Hfuel.
  - assert (bytes = 0) by lia. subst bytes. exists w, [].
    cbn. rewrite app_nil_r. repeat split; auto.
  - destruct (Z.eq_dec bytes 0) as [E|E].
    + subst bytes. exists w, []. cbn. rewrite app_nil_r. repeat split; auto.
    + cbn [iiod_discard_data]. apply Z.eqb_neq in E. rewrite E.
      apply Z.eqb_neq in E.
      unfold do_discard. cbn [op_discard stream_ops]. unfold stream_discard.
      replace (quota (w_tr w)) with (chunk (w_tr w))
        by (unfold quota, SSIZE_MAX; lia).
      destruct (inbox (w_tr w)) as [|x xs] eqn:Ein;
        [cbn [length] in Hb; lia|].
      rewrite <- Ein in *.
      set (k := Z.to_nat (Z.min (Z.min (chunk (w_tr w)) bytes)
                                (Z.of_nat (length (inbox (w_tr w)))))).
      assert (Hk : 0 < Z.of_nat k <= bytes
                   /\ Z.of_nat k <= Z.of_nat (length (inbox (w_tr w))))
        by (unfold k; lia).
      destruct (Z.of_nat k <? 0) eqn:Eneg; [apply Z.ltb_lt in Eneg; lia|].
      rewrite (to_size_t_small (Z.of_nat k)) by lia.
      rewrite (to_size_t_small (bytes - Z.of_nat k)) by lia.
      match goal with
      | |- context [iiod_discard_data _ _ fuel ?w1 _] =>
          destruct (IH w1 (bytes - Z.of_nat k))
            as (w' & evs & Hr & M1 & M2 & M3 & M4 & M5 & M6 & M7 & M8)
      end; cbn [w_tr w_mem w_log inbox outbox chunk closed];
        try rewrite length_skipn; try lia.
      exists w', (Io_discard bytes (Z.of_nat k) :: evs).
      rewrite Hr.
      cbn [w_tr w_mem w_log inbox outbox chunk closed] in M1, M2, M3, M4, M5, M6.
      repeat split; auto.
      * rewrite M2, skipn_skipn. f_equal. lia.
      * rewrite M6, <- app_assoc. reflexivity.
      * constructor; [exact I | assumption].
      * cbn [transferred fold_right io_ret]. fold (transferred evs). lia.
Qed.

(** Reading a header off the stream. *)
Lemma stream_read_header fuel (w : world stream) cmd_ptr hdr rest :
  0 < chunk (w_tr w) < 2 ^ 63 ->
  inbox (w_tr w) = hdr ++ rest -> length hdr = 8%nat -> (8 < fuel)%nat ->
  exists w' evs,
    iiod_rw_all stream stream_ops fuel w None
      (Some [{| ptr := cmd_ptr; size := sizeof_cmd |}]) 1 sizeof_cmd true
    = (Ret 8, w')
    /\ w_mem w' = store_bytes (w_mem w) cmd_ptr hdr
    /\ inbox (w_tr w') = rest
    /\ outbox (w_tr w') = outbox (w_tr w)
    /\ chunk (w_tr w') = chunk (w_tr w)
    /\ closed (w_tr w') = closed (w_tr w)
    /\ w_log w' = w_log w ++ evs /\ Forall is_read_event evs.
Proof.
  intros Hch Hin Hlen Hfuel.
  unfold iiod_rw_all. cbn [Z.eqb orb Z.ltb Z.compare ARRAY_SIZE_bufs].
  change (Z.to_nat 1) with 1%nat. cbn [firstn].
  destruct (stream_read_loop sizeof_cmd fuel w
              [{| ptr := cmd_ptr; size := sizeof_cmd |}] 1 0)
    as (w' & Hr & M1 & M2 & M3 & M4 & M5); auto;
    try (change (Z.to_nat 1) with 1%nat; cbn [firstn capacity length size];
         unfold sizeof_cmd; try rewrite Hin, length_app, Hlen; lia).
  { constructor; [cbn [size]; unfold sizeof_cmd; lia | constructor]. }
  destruct (rw_loop_reads _ _ _ _ _ _ _ _ _ _ Hr) as (evs & Hl & Hall).
  exists w', evs. change (Z.to_nat 1) with 1%nat in *.
  cbn [firstn capacity size scatter ptr] in *.
  change (Z.to_nat (sizeof_cmd + 0)) with 8%nat in *.
  change (Z.to_nat sizeof_cmd) with 8%nat in *.
  rewrite Hin in M1, M2.
  rewrite firstn_app, Hlen, Nat.sub_diag, firstn_O, app_nil_r in M1.
  rewrite !(firstn_all2 (n := 8) hdr) in M1 by lia.
  rewrite skipn_app, Hlen, Nat.sub_diag, skipn_O in M2.
  rewrite (skipn_all2 (n := 8) hdr) in M2 by lia.
  cbn [app] in M2.
  change (ARRAY_SIZE_bufs <? 1) with false. cbv iota.
  split; [exact Hr|]. repeat split; auto.
Qed.

(* ------------------------------------------------------------------ *)
(** ** Walking the waiters list *)

Lemma chain_cons next h fuel p x l :
  chain next h fuel p = Some (x :: l) ->
  p = Some x
  /\ exists fuel', fuel = S fuel' /\ chain next h fuel' (next (h x)) = Some l.
Proof.
  destruct p as [q|]; [|destruct fuel; discriminate].
  destruct fuel as [|fuel']; [discriminate|]. cbn [chain].
  destruct (chain next h fuel' (next (h q))) as [l'|] eqn:E; [|discriminate].
  intros H; inversion H; subst. split; [reflexivity|].
  exists fuel'. split; [reflexivity | assumption].
Qed.

(** A chain only depends on the next pointers of its own members. *)
Lemma chain_frame next h h' : forall l fuel p,
  chain next h fuel p = Some l ->
  (forall q, In q l -> next (h' q) = next (h q)) ->
  chain next h' fuel p = Some l.
Proof.
  induction l as [|x l IH]; intros fuel p Hc Hsame.
  - destruct p as [q|]; [|destruct fuel; reflexivity].
    destruct fuel as [|fuel]; [discriminate|]. cbn [chain] in Hc.
    destruct (chain next h fuel (next (h q))); discriminate.
  - apply chain_cons in Hc. destruct Hc as [-> (fuel' & -> & Hc)].
    cbn [chain]. rewrite Hsame by (left; reflexivity).
    rewrite (IH _ _ Hc); [reflexivity|].
    intros q Hq. apply Hsame. right. assumption.
Qed.

Lemma chain_nil next h fuel p :
  chain next h fuel p = Some [] -> p = None.
Proof.
  destruct p as [q|]; [|reflexivity].
  destruct fuel as [|fuel]; [discriminate|]. cbn [chain].
  destruct (chain next h fuel (next (h q))); discriminate.
Qed.

Lemma chain_length next h : forall l fuel p,
  chain next h fuel p = Some l -> (length l <= fuel)%nat.
Proof.
  induction l as [|x l IH]; intros fuel p Hc; [cbn; lia|].
  apply chain_cons in Hc. destruct Hc as [_ (fuel' & -> & Hc)].
  apply IH in Hc. cbn [length]. lia.
Qed.

(** More fuel follows the same chain. *)
Lemma chain_more_fuel next h : forall l fuel p fuel',
  chain next h fuel p = Some l -> (fuel <= fuel')%nat ->
  chain next h fuel' p = Some l.
Proof.
  induction l as [|x l IH]; intros fuel p fuel' Hc Hle.
  - apply chain_nil in Hc. subst p. destruct fuel'; reflexivity.
  - apply chain_cons in Hc. destruct Hc as [-> (f & -> & Hc)].
    destruct fuel' as [|f']; [lia|]. cbn [chain].
    rewrite (IH f _ f' Hc) by lia. reflexivity.
Qed.

(** ... and the length of the chain is fuel enough. *)
Lemma chain_exact_fuel next h : forall l fuel p,
  chain next h fuel p = Some l ->
  chain next h (length l) p = Some l.
Proof.
  induction l as [|x l IH]; intros fuel p Hc.
  - apply chain_nil in Hc. subst p. reflexivity.
  - apply chain_cons in Hc. destruct Hc as [-> (f & -> & Hc)].
    cbn [length chain]. rewrite (IH _ _ Hc). reflexivity.
Qed.

Lemma chain_none next h fuel : chain next h fuel None = Some [].
Proof. destruct fuel; reflexivity. Qed.

Lemma chain_step next h fuel q :
  chain next h (S fuel) (Some q)
  = match chain next h fuel (next (h q)) with
    | Some l => Some (q :: l)
    | None => None
    end.
Proof. reflexivity. Qed.

Lemma chain_nil_inv next h fuel l :
  chain next h fuel None = Some l -> l = [].
Proof. destruct fuel; cbn [chain]; intros H; inversion H; reflexivity. Qed.

(** Two walks from the same head that end agree. *)
Lemma chain_det next h f1 f2 p l1 l2 :
  chain next h f1 p = Some l1 -> chain next h f2 p = Some l2 -> l1 = l2.
Proof.
  intros H1 H2.
  apply (chain_more_fuel _ _ _ _ _ (Nat.max f1 f2)) in H1; [|lia].
  apply (chain_more_fuel _ _ _ _ _ (Nat.max f1 f2)) in H2; [|lia].
  congruence.
Qed.

(** A walk along next pointers that ends visits no handle twice. *)
Lemma chain_suffix next h : forall a fuel p q b,
  chain next h fuel p = Some (a ++ q :: b) ->
  exists fuel', chain next h fuel' (Some q) = Some (q :: b).
Proof.
  induction a as [|x a IH]; intros fuel p q b Hc.
  - cbn [app] in Hc. pose proof Hc as Hc'.
    apply chain_cons in Hc'. destruct Hc' as [-> _]. exists fuel. exact Hc.
  - cbn [app] in Hc. apply chain_cons in Hc.
    destruct Hc as [_ (f & _ & Hc)]. eapply IH. exact Hc.
Qed.

Lemma chain_NoDup next h : forall l fuel p,
  chain next h fuel p = Some l -> NoDup l.
Proof.
  induction l as [|x l IH]; intros fuel p Hc; [constructor|].
  pose proof Hc as Hc0.
  apply chain_cons in Hc. destruct Hc as [-> (f & -> & Hc)].
  constructor; [|eapply IH; exact Hc].
  intros Hin. apply in_split in Hin. destruct Hin as (a & b & ->).
  destruct (chain_suffix _ _ _ _ _ _ _ Hc) as [f' Hs].
  pose proof (chain_det _ _ _ _ _ _ _ Hc0 Hs) as E.
  apply (f_equal (@length _)) in E. cbn [length] in E.
  rewrite length_app in E. cbn [length] in E. lia.
Qed.

(** The lookup finds the first waiter with the identifier looked for. *)
Lemma find_reader_first : forall l1 fuel st head reader l2 id,
  chain r_next (heap st) fuel head = Some (l1 ++ reader :: l2) ->
  Forall (fun p => client_id (heap st p) <> id) l1 ->
  client_id (heap st reader) = id ->
  find_reader fuel st head id = Some (Some reader).
Proof.
  induction l1 as [|x l1 IH]; intros fuel st head reader l2 id Hc Hall Hid.
  - cbn [app] in Hc. apply chain_cons in Hc.
    destruct Hc as [-> (fuel' & -> & _)].
    cbn [find_reader]. apply Z.eqb_eq in Hid. rewrite Hid. reflexivity.
  - cbn [app] in Hc. apply chain_cons in Hc.
    destruct Hc as [-> (fuel' & -> & Hc)].
    inversion Hall as [|x' l1' Hx Hall']; subst.
    cbn [find_reader]. apply Z.eqb_neq in Hx. rewrite Hx.
    eapply IH; eauto.
Qed.

Lemma set_r_next_same r : set_r_next (r_next r) r = r.
Proof. destruct r; reflexivity. Qed.

(** Removal from the waiters list returns on a list that ends, and
    touches nothing but [r_next] fields and the list head. *)
Lemma reader_cancel_walk_total : forall fuel st tmp io l,
  chain r_next (heap st) fuel (Some tmp) = Some l ->
  exists st1,
    reader_cancel_walk fuel st tmp io = Some st1
    /\ priv st1 = priv st
    /\ forall p, exists n, heap st1 p = set_r_next n (heap st p).
Proof.
  induction fuel as [|fuel IH]; intros st tmp io l Hc; [discriminate|].
  cbn [chain] in Hc. cbn [reader_cancel_walk].
  destruct (chain r_next (heap st) fuel (r_next (heap st tmp)))
    as [l'|] eqn:El; [|discriminate].
  destruct (r_next (heap st tmp)) as [n|] eqn:En.
  - destruct (Nat.eqb n io).
    + eexists. split; [reflexivity|]. split; [reflexivity|].
      intros p. cbn [with_reader heap].
      destruct (Nat.eq_dec p tmp) as [E|E].
      * subst p. rewrite upd_same. eexists; reflexivity.
      * rewrite upd_other by assumption.
        exists (r_next (heap st p)). symmetry. apply set_r_next_same.
    + eapply IH; eassumption.
  - eexists. split; [reflexivity|]. split; [reflexivity|].
    intros p. exists (r_next (heap st p)). symmetry. apply set_r_next_same.
Qed.

Lemma reader_cancel_total fuel st io l :
  waiters_list fuel st = Some l ->
  exists st1,
    __iiod_reader_cancel_unlocked fuel st io = Some st1
    /\ writers (priv st1) = writers (priv st)
    /\ forall p, exists n, heap st1 p = set_r_next n (heap st p).
Proof.
  unfold waiters_list, __iiod_reader_cancel_unlocked. intros Hc.
  destruct (readers (priv st)) as [head|] eqn:Eh.
  - destruct (Nat.eqb io head).
    + eexists. split; [reflexivity|]. split; [reflexivity|].
      intros p. exists (r_next (heap st p)). symmetry. apply set_r_next_same.
    + destruct (reader_cancel_walk_total fuel st head io l Hc)
        as (st1 & H1 & H2 & H3).
      exists st1. split; [assumption|]. split; [congruence | assumption].
  - eexists. split; [reflexivity|]. split; [reflexivity|].
    intros p. exists (r_next (heap st p)). symmetry. apply set_r_next_same.
Qed.

(* ------------------------------------------------------------------ *)
(** ** Cancellation away from the list heads *)

(** Off the head, the walk unlinks the handle and nothing else. *)
Lemma reader_cancel_walk_spec : forall l fuel st tmp io,
  chain r_next (heap st) fuel (Some tmp) = Some (tmp :: l) ->
  NoDup (tmp :: l) -> io <> tmp ->
  exists st',
    reader_cancel_walk fuel st tmp io = Some st'
    /\ priv st' = priv st
    /\ chain r_next (heap st') fuel (Some tmp)
       = Some (tmp :: remove Nat.eq_dec io l)
    /\ (forall p, ~ In p (tmp :: l) -> heap st' p = heap st p)
    /\ (forall p, w_next (heap st' p) = w_next (heap st p)).
Proof.
  induction l as [|n l IH]; intros fuel st tmp io Hc Hnd Hio.
  - apply chain_cons in Hc. destruct Hc as [_ (f & -> & Hc)].
    apply chain_nil in Hc. cbn [reader_cancel_walk]. rewrite Hc.
    exists st. split; [reflexivity|]. split; [reflexivity|].
    split; [rewrite chain_step, Hc, chain_none; reflexivity|].
    split; intros; reflexivity.
  - apply chain_cons in Hc. destruct Hc as [_ (f & -> & Hc)].
    pose proof Hc as Hc'.
    apply chain_cons in Hc'. destruct Hc' as [Hn (f' & -> & Hl)].
    inversion Hnd as [|x1 l1 Htmp Hnd1]; subst x1 l1.
    inversion Hnd1 as [|x2 l2 Hnl Hnd2]; subst x2 l2.
    cbn [reader_cancel_walk]. rewrite Hn.
    destruct (Nat.eqb n io) eqn:E.
    + apply Nat.eqb_eq in E. subst n.
      eexists. split; [reflexivity|]. split; [reflexivity|].
      cbn [with_reader heap]. split.
      { rewrite chain_step, upd_same. cbn [set_r_next r_next].
        rewrite (chain_frame r_next (heap st) _ l (S f') (r_next (heap st io))).
        - cbn [remove]. destruct (Nat.eq_dec io io) as [_|C]; [|contradiction].
          rewrite notin_remove by assumption. reflexivity.
        - eapply chain_more_fuel; [exact Hl | lia].
        - intros q Hq. rewrite upd_other; [reflexivity|].
          intros ->. apply Htmp. right. assumption. }
      split.
      { intros p Hp. rewrite upd_other; [reflexivity|].
        intros ->. apply Hp. left. reflexivity. }
      intros p. destruct (Nat.eq_dec p tmp) as [->|Hp];
        [rewrite upd_same | rewrite upd_other by assumption]; reflexivity.
    + apply Nat.eqb_neq in E.
      destruct (IH (S f') st n io) as (st' & W1 & W2 & W3 & W4 & W5); auto.
      { rewrite <- Hn. exact Hc. }
      exists st'. split; [assumption|]. split; [assumption|].
      split.
      { rewrite chain_step.
        rewrite W4 by (intros Hin; apply Htmp; assumption).
        rewrite Hn, W3. cbn [remove].
        destruct (Nat.eq_dec io n) as [C|_]; [congruence | reflexivity]. }
      split; [|assumption].
      intros p Hp. apply W4. intros Hin. apply Hp. right. assumption.
Qed.

(** [__iiod_reader_cancel_unlocked] of a handle that is not the head
    of the waiters list: the handle leaves the list, the others stay in
    their order, and the writers queue is not touched. *)
Lemma reader_cancel_not_head fuel st io l :
  waiters_list fuel st = Some l -> NoDup l ->
  readers (priv st) <> Some io ->
  exists st',
    __iiod_reader_cancel_unlocked fuel st io = Some st'
    /\ waiters_list fuel st' = Some (remove Nat.eq_dec io l)
    /\ writers (priv st') = writers (priv st)
    /\ (forall p, w_next (heap st' p) = w_next (heap st p)).
Proof.
  unfold waiters_list, __iiod_reader_cancel_unlocked. intros Hc Hnd Hhead.
  destruct (readers (priv st)) as [head|] eqn:Eh.
  - assert (Hio : io <> head) by congruence.
    apply Nat.eqb_neq in Hio. rewrite Hio. apply Nat.eqb_neq in Hio.
    destruct l as [|x l]; [apply chain_nil in Hc; discriminate|].
    pose proof Hc as Hc'. apply chain_cons in Hc'.
    destruct Hc' as [E _]. inversion E; subst x.
    destruct (reader_cancel_walk_spec l fuel st head io Hc Hnd Hio)
      as (st' & W1 & W2 & W3 & _ & W5).
    exists st'. split; [assumption|]. rewrite W2, Eh.
    split; [|split; [reflexivity | assumption]].
    rewrite W3. cbn [remove].
    destruct (Nat.eq_dec io head) as [C|_]; [contradiction | reflexivity].
  - exists st. split; [reflexivity|]. rewrite Eh.
    apply chain_nil_inv in Hc. subst l.
    split; [apply chain_none|]. split; reflexivity.
Qed.

(** The same for the writers queue. *)
Lemma writer_cancel_walk_spec : forall l fuel st tmp io,
  chain w_next (heap st) fuel (Some tmp) = Some (tmp :: l) ->
  NoDup (tmp :: l) -> io <> tmp ->
  exists st',
    writer_cancel_walk fuel st tmp io = Some st'
    /\ priv st' = priv st
    /\ chain w_next (heap st') fuel (Some tmp)
       = Some (tmp :: remove Nat.eq_dec io l)
    /\ (forall p, ~ In p (tmp :: l) -> heap st' p = heap st p)
    /\ (forall p, r_next (heap st' p) = r_next (heap st p)).
Proof.
  induction l as [|n l IH]; intros fuel st tmp io Hc Hnd Hio.
  - apply chain_cons in Hc. destruct Hc as [_ (f & -> & Hc)].
    apply chain_nil in Hc. cbn [writer_cancel_walk]. rewrite Hc.
    exists st. split; [reflexivity|]. split; [reflexivity|].
    split; [rewrite chain_step, Hc, chain_none; reflexivity|].
    split; intros; reflexivity.
  - apply chain_cons in Hc. destruct Hc as [_ (f & -> & Hc)].
    pose proof Hc as Hc'.
    apply chain_cons in Hc'. destruct Hc' as [Hn (f' & -> & Hl)].
    inversion Hnd as [|x1 l1 Htmp Hnd1]; subst x1 l1.
    inversion Hnd1 as [|x2 l2 Hnl Hnd2]; subst x2 l2.
    cbn [writer_cancel_walk]. rewrite Hn.
    destruct (Nat.eqb n io) eqn:E.
    + apply Nat.eqb_eq in E. subst n.
      eexists. split; [reflexivity|]. split; [reflexivity|].
      cbn [with_reader heap]. split.
      { rewrite chain_step, upd_same. cbn [set_w_next w_next].
        rewrite (chain_frame w_next (heap st) _ l (S f') (w_next (heap st io))).
        - cbn [remove]. destruct (Nat.eq_dec io io) as [_|C]; [|contradiction].
          rewrite notin_remove by assumption. reflexivity.
        - eapply chain_more_fuel; [exact Hl | lia].
        - intros q Hq. rewrite upd_other; [reflexivity|].
          intros ->. apply Htmp. right. assumption. }
      split.
      { intros p Hp. rewrite upd_other; [reflexivity|].
        intros ->. apply Hp. left. reflexivity. }
      intros p. destruct (Nat.eq_dec p tmp) as [->|Hp];
        [rewrite upd_same | rewrite upd_other by assumption]; reflexivity.
    + apply Nat.eqb_neq in E.
      destruct (IH (S f') st n io) as (st' & W1 & W2 & W3 & W4 & W5); auto.
      { rewrite <- Hn. exact Hc. }
      exists st'. split; [assumption|]. split; [assumption|].
      split.
      { rewrite chain_step.
        rewrite W4 by (intros Hin; apply Htmp; assumption).
        rewrite Hn, W3. cbn [remove].
        destruct (Nat.eq_dec io n) as [C|_]; [congruence | reflexivity]. }
      split; [|assumption].
      intros p Hp. apply W4. intros Hin. apply Hp. right. assumption.
Qed.

(** [__iiod_writer_cancel_unlocked] of a handle that is not the head
    of the writers queue: the handle leaves the queue, the others stay in
    their order, and the waiters list is not touched. *)
Lemma writer_cancel_not_head fuel st io l :
  writers_queue fuel st = Some l -> NoDup l ->
  writers (priv st) <> Some io ->
  exists st',
    __iiod_writer_cancel_unlocked fuel st io = Some st'
    /\ writers_queue fuel st' = Some (remove Nat.eq_dec io l)
    /\ readers (priv st') = readers (priv st)
    /\ (forall p, r_next (heap st' p) = r_next (heap st p)).
Proof.
  unfold writers_queue, __iiod_writer_cancel_unlocked. intros Hc Hnd Hhead.
  destruct (writers (priv st)) as [head|] eqn:Eh.
  - assert (Hio : io <> head) by congruence.
    apply Nat.eqb_neq in Hio. rewrite Hio. apply Nat.eqb_neq in Hio.
    destruct l as [|x l]; [apply chain_nil in Hc; discriminate|].
    pose proof Hc as Hc'. apply chain_cons in Hc'.
    destruct Hc' as [E _]. inversion E; subst x.
    destruct (writer_cancel_walk_spec l fuel st head io Hc Hnd Hio)
      as (st' & W1 & W2 & W3 & _ & W5).
    exists st'. split; [assumption|]. rewrite W2, Eh.
    split; [|split; [reflexivity | assumption]].
    rewrite W3. cbn [remove].
    destruct (Nat.eq_dec io head) as [C|_]; [contradiction | reflexivity].
  - exists st. split; [reflexivity|]. rewrite Eh.
    apply chain_nil_inv in Hc. subst l.
    split; [apply chain_none|]. split; reflexivity.
Qed.

(** [iiod_reader_cancel] of a handle that heads neither list removes
    that handle from both and keeps the others in order; a handle that
    is on neither list changes neither. *)
Lemma iiod_reader_cancel_not_head fuel st reader lr lw :
  waiters_list fuel st = Some lr -> NoDup lr ->
  writers_queue fuel st = Some lw -> NoDup lw ->
  readers (priv st) <> Some reader -> writers (priv st) <> Some reader ->
  exists st',
    iiod_reader_cancel fuel st reader = Some st'
    /\ waiters_list fuel st' = Some (remove Nat.eq_dec reader lr)
    /\ writers_queue fuel st' = Some (remove Nat.eq_dec reader lw)
    /\ (~ In reader lr -> waiters_list fuel st' = Some lr)
    /\ (~ In reader lw -> writers_queue fuel st' = Some lw).
Proof.
  intros Hr Hndr Hw Hndw Hhr Hhw. unfold iiod_reader_cancel.
  destruct (reader_cancel_not_head fuel st reader lr Hr Hndr Hhr)
    as (st1 & R1 & R2 & R3 & R4).
  rewrite R1.
  assert (Hw1 : writers_queue fuel st1 = Some lw).
  { unfold writers_queue in *. rewrite R3.
    eapply chain_frame; [exact Hw|]. intros q _. apply R4. }
  destruct (writer_cancel_not_head fuel st1 reader lw Hw1 Hndw
              ltac:(rewrite R3; assumption))
    as (st2 & W1 & W2 & W3 & W4).
  exists st2. split; [assumption|].
  assert (Hr2 : waiters_list fuel st2 = Some (remove Nat.eq_dec reader lr)).
  { unfold waiters_list in *. rewrite W3.
    eapply chain_frame; [exact R2|]. intros q _. apply W4. }
  split; [assumption|]. split; [assumption|].
  split; intros Hn; [rewrite Hr2 | rewrite W2];
    rewrite notin_remove by assumption; reflexivity.
Qed.

(* ------------------------------------------------------------------ *)
(** ** The reader thread on a response that has a waiter *)

Lemma discarded_app l1 l2 : discarded (l1 ++ l2) = discarded l1 + discarded l2.
Proof.
  induction l1 as [|e l1 IH]; cbn [app discarded fold_right]; [reflexivity|].
  fold (discarded (l1 ++ l2)). fold (discarded l1). rewrite IH.
  destruct e; lia.
Qed.

Lemma discarded_reads evs : Forall is_read_event evs -> discarded evs = 0.
Proof.
  induction 1 as [|e l He _ IH]; [reflexivity|].
  cbn [discarded fold_right]. fold (discarded l).
  destruct e; cbn [is_read_event] in He; try contradiction. exact IH.
Qed.

Lemma discarded_discards evs :
  Forall is_discard_event evs -> discarded evs = transferred evs.
Proof.
  induction 1 as [|e l He _ IH]; [reflexivity|].
  cbn [discarded transferred fold_right]. fold (discarded l).
  fold (transferred l).
  destruct e; cbn [is_discard_event] in He; try contradiction.
  cbn [io_ret]. lia.
Qed.

Lemma to_int32_range x : - 2 ^ 31 <= to_int32 x < 2 ^ 31.
Proof.
  unfold to_int32.
  pose proof (Z.mod_pos_bound (x + 2 ^ 31) (2 ^ 32) ltac:(lia)). lia.
Qed.

Lemma decode_cmd_code_range bs :
  - 2 ^ 31 <= cmd_code (decode_cmd bs) < 2 ^ 31.
Proof. unfold decode_cmd. cbn [cmd_code]. apply to_int32_range. Qed.

(** Up to the payload: the header is read into the thread's [cmd], the
    first waiter with the header's identifier is taken off the list and
    is given the code. *)
Lemma reader_thrd_iteration_matched fuel st (w : world stream) cmd_ptr
    hdr rest l1 reader l2 :
  0 < chunk (w_tr w) < 2 ^ 63 ->
  inbox (w_tr w) = hdr ++ rest -> length hdr = 8%nat ->
  cmd_op (decode_cmd hdr) = IIOD_OP_RESPONSE ->
  waiters_list fuel st = Some (l1 ++ reader :: l2) ->
  Forall (fun p => client_id (heap st p) <> cmd_client_id (decode_cmd hdr))
         l1 ->
  client_id (heap st reader) = cmd_client_id (decode_cmd hdr) ->
  (8 < fuel)%nat ->
  exists w1 st1,
    w_mem w1 = store_bytes (w_mem w) cmd_ptr hdr
    /\ inbox (w_tr w1) = rest
    /\ chunk (w_tr w1) = chunk (w_tr w)
    /\ discarded (w_log w1) = discarded (w_log w)
    /\ (forall p, exists n, heap st1 p = set_r_next n (heap st p))
    /\ reader_thrd_iteration stream stream_ops fuel cmd_ptr (st, w)
       = let code := cmd_code (decode_cmd hdr) in
         let st2 :=
           with_reader st1 reader
             (fun r => set_r_io (set_io_code (r_io r) code) r) in
         let rio := r_io (heap st2 reader) in
         obind (on_world stream st2
                  (reader_thrd_payload stream stream_ops fuel w1 rio code 8))
           (fun ret2 s3 =>
              let st3 := with_reader (fst s3) reader (set_r_done true) in
              let w3 :=
                match cleanup_cb rio with
                | Some cb =>
                    if negb (nb_buf rio =? 0)
                    then do_cleanup stream (snd s3) cb (cleanup_cb_d rio) ret2
                    else snd s3
                | None => snd s3
                end in
              (Ret (Continue, ret2), (st3, w3))).
Proof.
  intros Hch Hin Hlen Hop Hl Hall Hid Hfuel.
  destruct (stream_read_header fuel w cmd_ptr hdr rest Hch Hin Hlen Hfuel)
    as (w1 & evs & Hr & M1 & M2 & M3 & M4 & M5 & M6 & M7).
  destruct (reader_cancel_total fuel st reader _ Hl) as (st1 & Hc & _ & Hf).
  exists w1, st1. split; [assumption|]. split; [assumption|].
  split; [assumption|].
  split; [rewrite M6, discarded_app, (discarded_reads _ M7); lia|].
  split; [assumption|].
  assert (Hload : load_bytes (w_mem w1) cmd_ptr 8 = hdr).
  { rewrite M1, <- Hlen. apply load_store_bytes. }
  unfold reader_thrd_iteration. rewrite Hr.
  cbn [on_world obind snd fst].
  change (8 <=? 0) with false. cbv iota.
  rewrite Hload, Hop.
  change (negb (IIOD_OP_RESPONSE =? IIOD_OP_RESPONSE)) with false.
  cbv iota.
  unfold waiters_list in Hl.
  rewrite (find_reader_first l1 fuel st _ reader l2 _ Hl Hall Hid).
  rewrite Hc. reflexivity.
Qed.


(** The payload of a response whose code exceeds the room the waiter
    offers (between 1 and 32 descriptors, none empty): the list is
    filled with the first bytes, the others are discarded. *)
Lemma reader_thrd_payload_oversize fuel (w1 : world stream) rio code
    bufs nb payload rest :
  0 < chunk (w_tr w1) < 2 ^ 63 ->
  inbox (w_tr w1) = payload ++ rest ->
  Z.of_nat (length payload) = code -> code < 2 ^ 31 ->
  buf rio = Some bufs -> nb_buf rio = nb ->
  1 <= nb <= 32 -> nb <= Z.of_nat (length bufs) ->
  sizes_pos (firstn (Z.to_nat nb) bufs) ->
  capacity (firstn (Z.to_nat nb) bufs) < code ->
  code < Z.of_nat fuel ->
  exists w2,
    reader_thrd_payload stream stream_ops fuel w1 rio code 8
    = (Ret (capacity (firstn (Z.to_nat nb) bufs)), w2)
    /\ w_mem w2
       = scatter (w_mem w1) (firstn (Z.to_nat nb) bufs)
           (firstn (Z.to_nat (capacity (firstn (Z.to_nat nb) bufs))) payload)
    /\ inbox (w_tr w2) = rest
    /\ discarded (w_log w2)
       = discarded (w_log w1) + (code - capacity (firstn (Z.to_nat nb) bufs)).
Proof.
  intros Hch Hin Hlen H31 Hbuf Hnb Hrange Hnbl Hpos Hcap Hfuel.
  set (curr := firstn (Z.to_nat nb) bufs) in *.
  set (c := capacity curr) in *.
  assert (Hcurr : firstn (Z.to_nat nb) curr = curr).
  { unfold curr. rewrite firstn_firstn, Nat.min_id. reflexivity. }
  assert (Hlcurr : Z.of_nat (length curr) = nb).
  { unfold curr. rewrite length_firstn. lia. }
  assert (Hc0 : 0 < c).
  { unfold c. destruct curr as [|b0 rest0]; [cbn [length] in Hlcurr; lia|].
    inversion Hpos as [|b' r' Hb Hr]; subst. cbn [capacity].
    pose proof (sizes_ok_capacity _ (sizes_pos_ok _ Hr)). lia. }
  destruct (stream_read_loop (to_size_t code) fuel w1 curr nb 0)
    as (w2 & Hr & M1 & M2 & M3 & M4 & M5); auto;
    try rewrite Hcurr; try rewrite (to_size_t_small code) by lia;
    fold c; try lia.
  { rewrite Hin, length_app. lia. }
  rewrite Hcurr in Hr, M1, M2. fold c in Hr, M1, M2.
  destruct (rw_loop_reads _ _ _ _ _ _ _ _ _ _ Hr) as (evs & Hl & Hall).
  destruct (stream_discard_all fuel w2 (code - c))
    as (w3 & evd & Hd & D1 & D2 & D3 & D4 & D5 & D6 & D7 & D8);
    try rewrite M4; try lia.
  { rewrite M2, length_skipn, Hin, length_app. lia. }
  exists w3. split.
  - unfold reader_thrd_payload. rewrite Hbuf.
    assert (E : (0 <? code) = true) by (apply Z.ltb_lt; lia). rewrite E.
    unfold iiod_rw_all. rewrite Hnb.
    assert (E0 : (nb =? 0) || (ARRAY_SIZE_bufs <? nb) = false).
    { apply orb_false_iff. split; [apply Z.eqb_neq; lia|].
      apply Z.ltb_ge. unfold ARRAY_SIZE_bufs. lia. }
    rewrite E0. fold curr. rewrite Hr. cbn [obind].
    rewrite Z.add_0_l.
    rewrite (to_size_t_small c), (to_size_t_small code),
      (to_size_t_small (code - c)) by lia.
    assert (E1 : (0 <? c) && (c <? code) = true).
    { apply andb_true_iff. split; apply Z.ltb_lt; lia. }
    rewrite E1, Hd. reflexivity.
  - split.
    { rewrite D1, M1, Hin. f_equal. rewrite firstn_app.
      replace (Z.to_nat c - length payload)%nat with 0%nat by lia.
      rewrite firstn_O, app_nil_r. reflexivity. }
    split.
    { rewrite D2, M2, Hin, skipn_skipn.
      replace (Z.to_nat (code - c) + Z.to_nat c)%nat
        with (length payload) by lia.
      rewrite skipn_app, Nat.sub_diag, skipn_all. reflexivity. }
    rewrite D6, discarded_app, (discarded_discards _ D7), D8.
    rewrite Hl, discarded_app, (discarded_reads _ Hall). lia.
Qed.

(** C3 (amended): a response whose code exceeds the capacity [c] of the
    receive buffer list that a registered waiter offers, the list
    holding between 1 and 32 descriptors, none of them empty.  The
    reader thread writes the first [c] payload bytes into the list,
    discards the other [code - c], leaves the stream at the next frame,
    and the waiter's [iiod_reader_wait_for_response] returns the code. *)
Theorem reader_thrd_oversize_response fuel st (w : world stream) cmd_ptr
    hdr payload rest l1 reader l2 bufs nb :
  0 < chunk (w_tr w) < 2 ^ 63 ->
  inbox (w_tr w) = hdr ++ payload ++ rest -> length hdr = 8%nat ->
  cmd_op (decode_cmd hdr) = IIOD_OP_RESPONSE ->
  Z.of_nat (length payload) = cmd_code (decode_cmd hdr) ->
  waiters_list fuel st = Some (l1 ++ reader :: l2) ->
  Forall (fun p => client_id (heap st p) <> cmd_client_id (decode_cmd hdr))
         l1 ->
  client_id (heap st reader) = cmd_client_id (decode_cmd hdr) ->
  buf (r_io (heap st reader)) = Some bufs ->
  nb_buf (r_io (heap st reader)) = nb ->
  1 <= nb <= 32 -> nb <= Z.of_nat (length bufs) ->
  sizes_pos (firstn (Z.to_nat nb) bufs) ->
  capacity (firstn (Z.to_nat nb) bufs) < cmd_code (decode_cmd hdr) ->
  (8 < fuel)%nat -> cmd_code (decode_cmd hdr) < Z.of_nat fuel ->
  exists st' w',
    reader_thrd_iteration stream stream_ops fuel cmd_ptr (st, w)
    = (Ret (Continue, capacity (firstn (Z.to_nat nb) bufs)), (st', w'))
    /\ w_mem w'
       = scatter (store_bytes (w_mem w) cmd_ptr hdr)
           (firstn (Z.to_nat nb) bufs)
           (firstn (Z.to_nat (capacity (firstn (Z.to_nat nb) bufs))) payload)
    /\ discarded (w_log w')
       = discarded (w_log w)
         + (cmd_code (decode_cmd hdr) - capacity (firstn (Z.to_nat nb) bufs))
    /\ inbox (w_tr w') = rest
    /\ exists st'',
         iiod_reader_wait_for_response st' reader
         = Some (cmd_code (decode_cmd hdr), st'').
Proof.
  intros Hch Hin Hlen Hop Hpl Hl Hall Hid Hbuf Hnb Hrange Hnbl Hpos Hcap
         Hfuel Hfuel'.
  destruct (reader_thrd_iteration_matched fuel st w cmd_ptr hdr
              (payload ++ rest) l1 reader l2 Hch Hin Hlen Hop Hl Hall Hid
              Hfuel)
    as (w1 & st1 & M1 & M2 & M3 & M4 & Hf & Heq).
  rewrite Heq. cbv zeta.
  cbn [with_reader heap]. rewrite upd_same.
  set (code := cmd_code (decode_cmd hdr)) in *.
  set (rio := r_io (set_r_io (set_io_code (r_io (heap st1 reader)) code)
                             (heap st1 reader))).
  assert (Hrio : buf rio = Some bufs /\ nb_buf rio = nb).
  { unfold rio. destruct (Hf reader) as [n Hn]. rewrite Hn.
    cbn [set_r_io set_r_next r_io set_io_code buf nb_buf]. split; assumption. }
  destruct Hrio as [Hb Hn].
  pose proof (decode_cmd_code_range hdr) as Hcr. fold code in Hcr.
  destruct (reader_thrd_payload_oversize fuel w1 rio code bufs nb payload rest)
    as (w2 & Hpay & P1 & P2 & P3); auto; try lia.
  rewrite Hpay. cbn [on_world obind fst snd].
  eexists _, _. split; [reflexivity|].
  assert (Hw3 : forall w3,
             w3 = match cleanup_cb rio with
                  | Some cb =>
                      if negb (nb_buf rio =? 0)
                      then do_cleanup stream w2 cb (cleanup_cb_d rio)
                             (capacity (firstn (Z.to_nat nb) bufs))
                      else w2
                  | None => w2
                  end ->
             w_tr w3 = w_tr w2 /\ w_mem w3 = w_mem w2
             /\ discarded (w_log w3) = discarded (w_log w2)).
  { intros w3 ->. destruct (cleanup_cb rio); [|repeat split; reflexivity].
    destruct (negb (nb_buf rio =? 0)); [|repeat split; reflexivity].
    cbn [do_cleanup w_tr w_mem w_log]. rewrite discarded_app.
    repeat split; cbn; lia. }
  destruct (Hw3 _ eq_refl) as (Ht & Hm & Hd). rewrite Ht, Hm, Hd.
  split; [rewrite P1, M1; reflexivity|].
  split; [rewrite P3, M4; reflexivity|].
  split; [assumption|].
  unfold iiod_reader_wait_for_response, wait_for_response.
  cbn [with_reader heap]. rewrite !upd_same.
  cbn [set_r_done r_done]. eexists. f_equal. f_equal.
  cbn [with_reader heap]. rewrite !upd_same. reflexivity.
Qed.

(* ------------------------------------------------------------------ *)
(** ** The contract of iiod_rw_all *)

Lemma iiod_rw_all_invalid T (ops : iiod_responder_ops T) fuel (w : world T)
    cmd_buf bufs nb bytes is_read :
  0 <= nb < 2 ^ 64 ->
  effective_nb cmd_buf nb = 0 \/ 32 < effective_nb cmd_buf nb ->
  iiod_rw_all T ops fuel w cmd_buf bufs nb bytes is_read = (Ret EINVAL, w).
Proof.
  intros Hnb Heff. unfold iiod_rw_all, effective_nb in *.
  match goal with
  | |- (if ?b then _ else _) = _ => assert (E : b = true); [|rewrite E; reflexivity]
  end.
  apply orb_true_iff. unfold ARRAY_SIZE_bufs.
  destruct cmd_buf as [cb|].
  - destruct (Z.eq_dec nb (2 ^ 64 - 1)) as [Ew|Ew].
    + left. rewrite Ew. reflexivity.
    + right. rewrite to_size_t_small by lia. apply Z.ltb_lt. lia.
  - destruct Heff as [E|E]; [left; apply Z.eqb_eq | right; apply Z.ltb_lt];
      lia.
Qed.

Lemma iiod_rw_all_reports T (ops : iiod_responder_ops T) fuel (w : world T)
    cmd_buf bufs nb bytes is_read r w' :
  0 <= nb < 2 ^ 64 ->
  0 < effective_nb cmd_buf nb <= 32 ->
  iiod_rw_all T ops fuel w cmd_buf bufs nb bytes is_read = (Ret r, w') ->
  exists evs, w_log w' = w_log w ++ evs /\ rw_reports r 0 evs.
Proof.
  intros Hnb Heff. unfold iiod_rw_all, effective_nb in *.
  match goal with
  | |- (if ?b then _ else _) = _ -> _ =>
      assert (E : b = false); [|rewrite E; apply rw_loop_reports]
  end.
  apply orb_false_iff. unfold ARRAY_SIZE_bufs.
  destruct cmd_buf as [cb|]; [rewrite to_size_t_small by lia|];
    (split; [apply Z.eqb_neq | apply Z.ltb_ge]); lia.
Qed.

Lemma iiod_rw_all_returns T (ops : iiod_responder_ops T) (w : world T)
    cmd_buf bufs nb bytes is_read :
  0 <= nb < 2 ^ 64 ->
  0 < effective_nb cmd_buf nb <= 32 ->
  transport_bounded ops -> descriptors_ok cmd_buf bufs nb ->
  exists fuel r w',
    iiod_rw_all T ops fuel w cmd_buf bufs nb bytes is_read = (Ret r, w').
Proof.
  intros Hnb Heff Hbd [Hcb Hbufs]. unfold iiod_rw_all, effective_nb in *.
  set (nb' := match cmd_buf with
              | Some _ => to_size_t (nb + 1)
              | None => nb
              end).
  set (curr := match cmd_buf with
               | Some cb =>
                   cb :: match bufs with
                         | Some l => firstn (Z.to_nat (nb' - 1)) l
                         | None => []
                         end
               | None => match bufs with
                         | Some l => firstn (Z.to_nat nb') l
                         | None => []
                         end
               end).
  assert (H : 1 <= nb' <= 32 /\ nb' = Z.of_nat (length curr) /\ sizes_ok curr).
  { unfold curr, nb'. destruct cmd_buf as [cb|].
    - rewrite to_size_t_small by lia.
      replace (nb + 1 - 1) with nb by lia.
      destruct bufs as [l|].
      + destruct Hbufs as [Hl Hs]. cbn [length]. rewrite length_firstn.
        split; [lia|]. split; [lia|]. constructor; assumption.
      + subst nb. cbn [length]. split; [lia|]. split; [reflexivity|].
        constructor; [assumption | constructor].
    - destruct bufs as [l|].
      + destruct Hbufs as [Hl Hs]. rewrite length_firstn.
        split; [lia|]. split; [lia | assumption].
      + lia. }
  destruct H as (H1 & H2 & H3).
  assert (E : (nb' =? 0) || (ARRAY_SIZE_bufs <? nb') = false).
  { apply orb_false_iff. unfold ARRAY_SIZE_bufs.
    split; [apply Z.eqb_neq | apply Z.ltb_ge]; lia. }
  rewrite E.
  exists (S (Z.to_nat (capacity (firstn (Z.to_nat nb') curr)))).
  apply rw_loop_returns; auto; try lia.
Qed.

(** C7 (amended): without a header buffer and with no payload
    descriptor, or with more than 32 descriptors in all, [iiod_rw_all]
    returns [EINVAL] and leaves the world as it was.  Otherwise, when it
    returns, either every transport call moved bytes and the result is
    their total, or the result is what the last transport call returned,
    a value that is negative or zero; and it does return on a transport
    that reports no more than it was offered, given a descriptor array of
    the announced length. *)
Theorem iiod_rw_all_contract T (ops : iiod_responder_ops T) (w : world T)
    cmd_buf bufs nb bytes is_read :
  0 <= nb < 2 ^ 64 ->
  (effective_nb cmd_buf nb = 0 \/ 32 < effective_nb cmd_buf nb ->
   forall fuel,
     iiod_rw_all T ops fuel w cmd_buf bufs nb bytes is_read = (Ret EINVAL, w))
  /\ (0 < effective_nb cmd_buf nb <= 32 ->
      (forall fuel r w',
          iiod_rw_all T ops fuel w cmd_buf bufs nb bytes is_read = (Ret r, w') ->
          exists evs, w_log w' = w_log w ++ evs /\ rw_reports r 0 evs)
      /\ (transport_bounded ops -> descriptors_ok cmd_buf bufs nb ->
          exists fuel r w',
            iiod_rw_all T ops fuel w cmd_buf bufs nb bytes is_read
            = (Ret r, w'))).
Proof.
  intros Hnb. split.
  - intros Heff fuel. apply iiod_rw_all_invalid; assumption.
  - intros Heff. split.
    + intros fuel r w'. apply iiod_rw_all_reports; assumption.
    + intros Hbd Hok. apply iiod_rw_all_returns; assumption.
Qed.

(** C7 as stated fails: the peer closes after three bytes of a header.
    [iiod_rw_all] returns 0, which is neither the three bytes moved nor a
    negative error. *)
Lemma iiod_rw_all_zero_after_progress :
  exists w',
    iiod_rw_all stream stream_ops 4 (incoming truncated_header 8) None
      (Some [{| ptr := cmd_addr; size := 8 |}]) 1 8 true
    = (Ret 0, w')
    /\ transferred (w_log w') = 3
    /\ ~ rw_reports_as_specified 0 (w_log w').
Proof.
  eexists. split; [vm_compute; reflexivity|].
  split; [reflexivity|].
  intros [H | [H _]]; [vm_compute in H; discriminate | lia].
Qed.

Lemma stream_ops_bounded : transport_bounded stream_ops.
Proof.
  split; intros t m bufs Hok; pose proof (sizes_ok_capacity _ Hok);
    cbn [op_read op_write stream_ops]; unfold stream_read, stream_write.
  - cbn [fst]. unfold quota, SSIZE_MAX. lia.
  - destruct (closed t); cbn [fst]; unfold quota, SSIZE_MAX, EPIPE; lia.
Qed.

Lemma iiod_rw_all_contract_witness :
  (forall fuel,
      iiod_rw_all stream stream_ops fuel (incoming error_frame 3) None
        None 0 8 true
      = (Ret EINVAL, incoming error_frame 3))
  /\ (exists fuel r w',
         iiod_rw_all stream stream_ops fuel (incoming error_frame 3) None
           (Some [{| ptr := cmd_addr; size := 8 |}]) 1 8 true
         = (Ret r, w')).
Proof.
  split.
  - apply (iiod_rw_all_contract stream stream_ops (incoming error_frame 3)
             None None 0 8 true); [lia | left; reflexivity].
  - apply (iiod_rw_all_contract stream stream_ops (incoming error_frame 3)
             None (Some [{| ptr := cmd_addr; size := 8 |}]) 1 8 true).
    + lia.
    + unfold effective_nb. lia.
    + exact stream_ops_bounded.
    + split; [exact I|]. split; [cbn; lia|].
      constructor; [cbn; lia | constructor].
Defined.

(* ------------------------------------------------------------------ *)
(** ** The reader thread on a response that has no waiter *)

Lemma find_reader_none : forall l fuel st head id,
  chain r_next (heap st) fuel head = Some l ->
  Forall (fun p => client_id (heap st p) <> id) l ->
  find_reader fuel st head id = Some None.
Proof.
  induction l as [|x l IH]; intros fuel st head id Hc Hall.
  - apply chain_nil in Hc. subst head. destruct fuel; reflexivity.
  - apply chain_cons in Hc. destruct Hc as [-> (fuel' & -> & Hc)].
    inversion Hall as [|x' l' Hx Hall']; subst.
    cbn [find_reader]. apply Z.eqb_neq in Hx. rewrite Hx.
    eapply IH; eassumption.
Qed.

(** With a code that is not negative the orphan's payload, and nothing
    else, is discarded, and the loop goes on. *)
Lemma reader_thrd_orphan_discards fuel st (w : world stream) cmd_ptr
    hdr payload rest l :
  0 < chunk (w_tr w) < 2 ^ 63 ->
  inbox (w_tr w) = hdr ++ payload ++ rest -> length hdr = 8%nat ->
  cmd_op (decode_cmd hdr) = IIOD_OP_RESPONSE ->
  0 <= cmd_code (decode_cmd hdr) ->
  Z.of_nat (length payload) = cmd_code (decode_cmd hdr) ->
  waiters_list fuel st = Some l ->
  Forall (fun p => client_id (heap st p) <> cmd_client_id (decode_cmd hdr)) l ->
  (8 < fuel)%nat -> cmd_code (decode_cmd hdr) <= Z.of_nat fuel ->
  exists w',
    reader_thrd_iteration stream stream_ops fuel cmd_ptr (st, w)
    = (Ret (Continue, 8), (st, w'))
    /\ inbox (w_tr w') = rest
    /\ discarded (w_log w') = discarded (w_log w) + cmd_code (decode_cmd hdr)
    /\ w_mem w' = store_bytes (w_mem w) cmd_ptr hdr.
Proof.
  intros Hch Hin Hlen Hop Hpos Hpl Hl Hall Hfuel Hfuel'.
  destruct (stream_read_header fuel w cmd_ptr hdr (payload ++ rest)
              Hch Hin Hlen Hfuel)
    as (w1 & evs & Hr & M1 & M2 & M3 & M4 & M5 & M6 & M7).
  assert (Hload : load_bytes (w_mem w1) cmd_ptr 8 = hdr).
  { rewrite M1, <- Hlen. apply load_store_bytes. }
  pose proof (decode_cmd_code_range hdr) as Hcr.
  set (code := cmd_code (decode_cmd hdr)) in *.
  destruct (stream_discard_all fuel w1 code)
    as (w2 & evd & Hd & D1 & D2 & D3 & D4 & D5 & D6 & D7 & D8);
    try rewrite M4; try lia.
  { rewrite M2, length_app. lia. }
  exists w2. split.
  - unfold reader_thrd_iteration. rewrite Hr.
    cbn [on_world obind snd fst].
    change (8 <=? 0) with false. cbv iota.
    rewrite Hload, Hop.
    change (negb (IIOD_OP_RESPONSE =? IIOD_OP_RESPONSE)) with false.
    cbv iota. unfold waiters_list in Hl.
    rewrite (find_reader_none l fuel st _ _ Hl Hall).
    fold code. rewrite (to_size_t_small code) by lia.
    rewrite Hd. reflexivity.
  - split.
    { rewrite D2, M2. rewrite skipn_app.
      replace (Z.to_nat code - length payload)%nat with 0%nat by lia.
      rewrite skipn_all2 by lia. reflexivity. }
    split; [|congruence].
    rewrite D6, discarded_app, (discarded_discards _ D7), D8.
    rewrite M6, discarded_app, (discarded_reads _ M7). lia.
Qed.

(* ------------------------------------------------------------------ *)
(** ** Instances *)


Lemma reader_thrd_oversize_response_witness :
  exists st' w',
    reader_thrd_iteration stream stream_ops 32 cmd_addr
      (one_waiting (Some [{| ptr := 2000; size := 8 |}]) 1,
       incoming (oversize_header ++ oversize_payload ++ print_frame) 5)
    = (Ret (Continue, 8), (st', w'))
    /\ load_bytes (w_mem w') 2000 8 = repeat x41 8
    /\ discarded (w_log w') = 12
    /\ inbox (w_tr w') = print_frame
    /\ exists st'', iiod_reader_wait_for_response st' 1%nat = Some (20, st'').
Proof.
  destruct (reader_thrd_oversize_response 32
              (one_waiting (Some [{| ptr := 2000; size := 8 |}]) 1)
              (incoming (oversize_header ++ oversize_payload ++ print_frame) 5)
              cmd_addr oversize_header oversize_payload print_frame
              [] 1%nat [] [{| ptr := 2000; size := 8 |}] 1)
    as (st' & w' & H1 & H2 & H3 & H4 & H5).
  - cbn. lia.
  - reflexivity.
  - reflexivity.
  - reflexivity.
  - reflexivity.
  - reflexivity.
  - constructor.
  - reflexivity.
  - reflexivity.
  - reflexivity.
  - lia.
  - cbn. lia.
  - constructor; [cbn; lia | constructor].
  - vm_compute. reflexivity.
  - lia.
  - vm_compute. reflexivity.
  - exists st', w'. split; [exact H1|]. split; [rewrite H2; reflexivity|].
    split; [exact H3|]. split; [exact H4 | exact H5].
Defined.

(** C3 as stated fails: the waiter offers an 8-byte descriptor followed
    by an empty one, and the response announces 20 bytes.  The first 8
    are stored; the read into the empty descriptor returns 0, so nothing
    is discarded and 12 payload bytes stay in front of the next frame. *)
Lemma reader_thrd_oversize_empty_descriptor :
  capacity [{| ptr := 2000; size := 8 |}; {| ptr := 3000; size := 0 |}] = 8
  /\ exists st' w',
       reader_thrd_iteration stream stream_ops 32 cmd_addr
         (one_waiting (Some [{| ptr := 2000; size := 8 |};
                             {| ptr := 3000; size := 0 |}]) 2,
          incoming (oversize_header ++ oversize_payload ++ print_frame) 8)
       = (Ret (Continue, 0), (st', w'))
       /\ discarded (w_log w') = 0
       /\ discarded (w_log w')
          <> cmd_code (decode_cmd oversize_header)
             - capacity [{| ptr := 2000; size := 8 |};
                         {| ptr := 3000; size := 0 |}]
       /\ inbox (w_tr w') = repeat x41 12 ++ print_frame
       /\ inbox (w_tr w') <> print_frame.
Proof.
  split; [reflexivity|]. eexists _, _.
  split; [vm_compute; reflexivity|]. split; [reflexivity|].
  split; [vm_compute; discriminate|]. split; [reflexivity|].
  vm_compute. discriminate.
Qed.

(** The same with an empty list behind a non-null pointer: [EINVAL],
    being positive, is taken for a byte count, and 22 bytes too few are
    discarded. *)
Lemma reader_thrd_oversize_empty_list :
  exists st' w',
    reader_thrd_iteration stream stream_ops 32 cmd_addr
      (one_waiting (Some []) 0,
       incoming (oversize_header ++ oversize_payload ++ print_frame) 8)
    = (Ret (Continue, EINVAL), (st', w'))
    /\ inbox (w_tr w') = oversize_payload ++ print_frame.
Proof.
  eexists _, _. split; [vm_compute; reflexivity|]. reflexivity.
Qed.

(* ------------------------------------------------------------------ *)
(** ** The writers queue as a list *)

(** The tail walk stops at the last member of the chain. *)
Lemma last_writer_chain : forall l fuelc st head fuel last,
  chain w_next (heap st) fuelc (Some head) = Some l ->
  last_writer fuel st head = Some last ->
  exists l', l = l' ++ [last] /\ w_next (heap st last) = None.
Proof.
  induction l as [|x l IH]; intros fuelc st head fuel last Hc Hl.
  - apply chain_nil in Hc. discriminate.
  - apply chain_cons in Hc. destruct Hc as [E (f & -> & Hc)].
    inversion E; subst x.
    destruct fuel as [|fuel]; [discriminate|]. cbn [last_writer] in Hl.
    destruct (w_next (heap st head)) as [n|] eqn:En.
    + destruct (IH _ _ _ _ _ Hc Hl) as (l' & -> & Hn).
      exists (head :: l'). split; [reflexivity | assumption].
    + inversion Hl; subst last. apply chain_nil_inv in Hc. subst l.
      exists []. split; [reflexivity | assumption].
Qed.

(** Linking a new handle behind the last member extends the chain by
    that handle. *)
Lemma chain_snoc h : forall l' fuel head last writer,
  chain w_next h fuel (Some head) = Some (l' ++ [last]) ->
  ~ In writer (l' ++ [last]) -> NoDup (l' ++ [last]) ->
  w_next (h writer) = None ->
  chain w_next (upd h last (set_w_next (Some writer))) (S fuel) (Some head)
  = Some (l' ++ [last; writer]).
Proof.
  induction l' as [|x l' IH]; intros fuel head last writer Hc Hnin Hnd Hw.
  - cbn [app] in *. apply chain_cons in Hc.
    destruct Hc as [E (f & -> & Hc)]. inversion E; subst head.
    assert (Hwl : writer <> last) by (intros ->; apply Hnin; left; reflexivity).
    cbn [chain]. rewrite upd_same. cbn [set_w_next w_next].
    rewrite upd_other by assumption. rewrite Hw, chain_none. reflexivity.
  - cbn [app] in *. apply chain_cons in Hc.
    destruct Hc as [E (f & -> & Hc)]. inversion E; subst head.
    inversion Hnd as [|x' l'' Hx Hnd']; subst.
    assert (Hxl : x <> last).
    { intros ->. apply Hx. apply in_or_app. right. left. reflexivity. }
    rewrite chain_step. rewrite upd_other by assumption.
    destruct (w_next (h x)) as [n|] eqn:En.
    + rewrite (IH f n last writer); auto.
      intros Hin. apply Hnin. right. assumption.
    + apply chain_nil_inv in Hc. destruct l'; discriminate.
Qed.

(** [iiod_enqueue_command] appends the handle to the queue, and leaves
    the other handles' [w_io] alone. *)
Lemma iiod_enqueue_command_appends fuel st writer op dev code bufs nb cb d
    q ret st' :
  writers_queue (length q) st = Some q ->
  ~ In writer q -> NoDup q ->
  iiod_enqueue_command fuel st writer op dev code bufs nb cb d
  = Some (ret, st') ->
  ret = 0
  /\ writers_queue (length (q ++ [writer])) st' = Some (q ++ [writer])
  /\ w_io (heap st' writer)
     = {| cmd := {| cmd_client_id := client_id (heap st writer);
                    cmd_op := op; cmd_dev := dev; cmd_code := code |};
          buf := bufs; nb_buf := nb; cleanup_cb := cb; cleanup_cb_d := d |}
  /\ (forall p, p <> writer -> w_io (heap st' p) = w_io (heap st p))
  /\ readers (priv st') = readers (priv st).
Proof.
  unfold writers_queue, iiod_enqueue_command. intros Hq Hnin Hnd.
  set (io := {| cmd := _; buf := bufs |}).
  set (st1 := with_reader st writer
                (fun r => set_w_done false (set_w_next None (set_w_io io r)))).
  assert (Hq1 : chain w_next (heap st1) (length q) (writers (priv st)) = Some q).
  { eapply chain_frame; [exact Hq|]. intros p Hp. unfold st1.
    cbn [with_reader heap]. rewrite upd_other; [reflexivity|].
    intros ->. contradiction. }
  assert (Hw1 : w_next (heap st1 writer) = None).
  { unfold st1. cbn [with_reader heap]. rewrite upd_same. reflexivity. }
  assert (Hio1 : w_io (heap st1 writer) = io).
  { unfold st1. cbn [with_reader heap]. rewrite upd_same. reflexivity. }
  assert (Hoth : forall p, p <> writer -> w_io (heap st1 p) = w_io (heap st p)).
  { intros p Hp. unfold st1. cbn [with_reader heap].
    rewrite upd_other by assumption. reflexivity. }
  change (priv st1) with (priv st).
  destruct (writers (priv st)) as [head|] eqn:Eh.
  - destruct (last_writer fuel st1 head) as [last|] eqn:El; [|discriminate].
    intros H; inversion H; subst ret st'. clear H.
    destruct (last_writer_chain _ _ _ _ _ _ Hq1 El) as (l' & -> & Hln).
    assert (Hlw : last <> writer).
    { intros ->. apply Hnin. apply in_or_app. right. left. reflexivity. }
    split; [reflexivity|]. cbn [with_reader heap priv].
    split.
    { change (priv st1) with (priv st).
      rewrite Eh. rewrite <- app_assoc. cbn [app].
      rewrite length_app. cbn [length].
      replace (length l' + 2)%nat with (S (length (l' ++ [last])))
        by (rewrite length_app; cbn [length]; lia).
      apply chain_snoc; assumption. }
    split; [rewrite upd_other by auto; assumption|].
    split; [|reflexivity].
    intros p Hp. destruct (Nat.eq_dec p last) as [->|Hpl].
    + rewrite upd_same. cbn [set_w_next w_io]. apply Hoth. assumption.
    + rewrite upd_other by assumption. apply Hoth. assumption.
  - intros H; inversion H; subst ret st'. clear H.
    apply chain_nil_inv in Hq. subst q.
    split; [reflexivity|]. cbn [with_priv with_reader heap priv set_writers
                                  writers app length chain].
    fold st1. rewrite Hw1.
    split; [reflexivity|]. split; [assumption|]. split; [|reflexivity].
    exact Hoth.
Qed.

(* ------------------------------------------------------------------ *)
(** ** Asynchronous sends *)

(** [iiod_enqueue_command] records the caller's arguments in the
    handle's outbound slot and clears [w_done], whatever the queue. *)
Lemma iiod_enqueue_command_slot fuel st writer op dev code bufs nb cb d
    ret st' :
  iiod_enqueue_command fuel st writer op dev code bufs nb cb d
  = Some (ret, st') ->
  w_io (heap st' writer)
  = {| cmd := {| cmd_client_id := client_id (heap st writer);
                 cmd_op := op; cmd_dev := dev; cmd_code := code |};
       buf := bufs; nb_buf := nb; cleanup_cb := cb; cleanup_cb_d := d |}
  /\ w_done (heap st' writer) = false.
Proof.
  unfold iiod_enqueue_command.
  set (io := {| cmd := _; buf := bufs |}).
  set (st1 := with_reader st writer
                (fun r => set_w_done false (set_w_next None (set_w_io io r)))).
  assert (H1 : w_io (heap st1 writer) = io /\ w_done (heap st1 writer) = false).
  { unfold st1. cbn [with_reader heap]. rewrite upd_same.
    split; reflexivity. }
  change (priv st1) with (priv st).
  destruct (writers (priv st)) as [head|].
  - destruct (last_writer fuel st1 head) as [last|]; [|discriminate].
    intros H; inversion H; subst ret st'. cbn [with_reader heap].
    destruct (Nat.eq_dec writer last) as [->|E];
      [rewrite upd_same | rewrite upd_other by assumption]; exact H1.
  - intros H; inversion H; subst ret st'. exact H1.
Qed.

(** Where the enqueue leaves a handle that was not queued. *)
Lemma iiod_enqueue_command_queue fuel st l writer op dev code bufs nb cb d
    st' :
  writers_queue fuel st = Some l -> ~ In writer l ->
  iiod_enqueue_command fuel st writer op dev code bufs nb cb d
  = Some (0, st') ->
  writers_queue (length (l ++ [writer])) st' = Some (l ++ [writer]).
Proof.
  intros Hq Hnin He.
  assert (Hnd : NoDup l) by (eapply chain_NoDup; exact Hq).
  apply chain_exact_fuel in Hq.
  destruct (iiod_enqueue_command_appends _ _ _ _ _ _ _ _ _ _ l _ _
              Hq Hnin Hnd He) as (_ & A2 & _).
  exact A2.
Qed.




(* ------------------------------------------------------------------ *)
(** ** The writer thread on the stream *)

Lemma rw_loop_fuel_mono T (ops : iiod_responder_ops T) bytes is_read :
  forall fuel w curr nb count o w',
    rw_loop T ops fuel bytes is_read w curr nb count = (o, w') ->
    o <> OutOfFuel ->
    forall fuel', (fuel <= fuel')%nat ->
      rw_loop T ops fuel' bytes is_read w curr nb count = (o, w').
Proof.
  induction fuel as [|fuel IH]; intros w curr nb count o w' H Ho fuel' Hle.
  - inversion H; subst. contradiction.
  - destruct fuel' as [|fuel']; [lia|].
    destruct curr as [|c rest]; [exact H|].
    rewrite rw_loop_step in H |- *. cbv zeta in H |- *.
    set (trunc := is_read && (to_size_t (bytes - count) <=? size c)) in *.
    set (c1 := if trunc then set_size c (to_size_t (bytes - count)) else c) in *.
    set (nb1 := if trunc then 1 else nb) in *.
    destruct (Z.of_nat (length (c1 :: rest)) <? nb1); [exact H|].
    destruct (if is_read
              then do_read T ops w (firstn (Z.to_nat nb1) (c1 :: rest))
              else do_write T ops w (firstn (Z.to_nat nb1) (c1 :: rest)))
      as [ret w1].
    destruct (ret <=? 0); [exact H|].
    destruct (rw_advance (c1 :: rest) ret count nb1)
      as [[[[ret2 count2] nb2] curr2]|]; [|exact H].
    destruct ((ret2 =? 0) && (nb2 =? 0)); [exact H|].
    destruct curr2 as [|c2 rest2]; [exact H|].
    apply (IH _ _ _ _ _ _ H Ho). lia.
Qed.

Lemma encode_cmd_length c : length (encode_cmd c) = 8%nat.
Proof. reflexivity. Qed.

(** A transfer by the writer thread that returns puts the frame's bytes
    on the stream, and touches neither the queue nor the other
    handles. *)
Lemma writer_thrd_transfer_stream fuel cmd_ptr writer st (w : world stream)
    st' w' :
  closed (w_tr w) = false -> 0 < chunk (w_tr w) < 2 ^ 63 ->
  0 <= nb_buf (w_io (heap st writer)) < 2 ^ 64 ->
  descriptors_ok None (buf (w_io (heap st writer)))
                 (nb_buf (w_io (heap st writer))) ->
  writer_thrd_transfer stream stream_ops fuel cmd_ptr writer (st, w)
  = (Ret tt, (st', w')) ->
  priv st' = priv st
  /\ (forall p, w_next (heap st' p) = w_next (heap st p))
  /\ (forall p, p <> writer -> w_io (heap st' p) = w_io (heap st p))
  /\ closed (w_tr w') = false
  /\ chunk (w_tr w') = chunk (w_tr w)
  /\ outbox (w_tr w')
     = outbox (w_tr w) ++ frame_bytes cmd_ptr (w_mem w) (w_io (heap st writer)).
Proof.
  intros Hcl Hch Hnb [_ Hdesc]. unfold writer_thrd_transfer.
  set (wio := w_io (heap st writer)) in *.
  set (hdr := encode_cmd (cmd wio)).
  set (w0 := {| w_mem := store_bytes (w_mem w) cmd_ptr hdr;
                w_tr := w_tr w; w_log := w_log w |}).
  set (cmd_buf := {| ptr := cmd_ptr; size := sizeof_cmd |}).
  assert (Hstate : forall ret (w2 : world stream),
             let st1 := with_reader st writer
                          (fun r => set_w_done true
                                      (set_w_io (set_io_code (w_io r)
                                                             (to_int32 ret)) r)) in
             priv st1 = priv st
             /\ (forall p, w_next (heap st1 p) = w_next (heap st p))
             /\ (forall p, p <> writer -> w_io (heap st1 p) = w_io (heap st p))).
  { intros ret w2 st1. split; [reflexivity|]. unfold st1.
    cbn [with_reader heap]. split; intros p.
    - destruct (Nat.eq_dec p writer) as [->|E];
        [rewrite upd_same | rewrite upd_other by assumption]; reflexivity.
    - intros E. rewrite upd_other by assumption. reflexivity. }
  assert (Hclean : forall ret (w2 : world stream) w3,
             w3 = match cleanup_cb wio with
                  | Some cb =>
                      if negb (nb_buf wio =? 0)
                      then do_cleanup stream w2 cb (cleanup_cb_d wio) ret
                      else w2
                  | None => w2
                  end -> w_tr w3 = w_tr w2).
  { intros ret w2 w3 ->. destruct (cleanup_cb wio); [|reflexivity].
    destruct (negb (nb_buf wio =? 0)); reflexivity. }
  unfold frame_bytes. fold wio.
  destruct (32 <=? nb_buf wio) eqn:E32.
  - apply Z.leb_le in E32.
    rewrite iiod_rw_all_invalid
      by (try lia; right; unfold effective_nb; lia).
    cbn [on_world obind fst snd]. intros H; inversion H; subst st' w'.
    destruct (Hstate EINVAL w0) as (S1 & S2 & S3).
    rewrite (Hclean EINVAL w0 _ eq_refl).
    repeat split; auto. cbn [w0 w_tr]. rewrite app_nil_r. reflexivity.
  - apply Z.leb_gt in E32.
    unfold iiod_rw_all. rewrite to_size_t_small by lia.
    assert (E : (nb_buf wio + 1 =? 0) || (ARRAY_SIZE_bufs <? nb_buf wio + 1)
                = false).
    { apply orb_false_iff. unfold ARRAY_SIZE_bufs.
      split; [apply Z.eqb_neq | apply Z.ltb_ge]; lia. }
    rewrite E. replace (nb_buf wio + 1 - 1) with (nb_buf wio) by lia.
    set (payload := match buf wio with Some l => l | None => [] end).
    set (curr := cmd_buf :: match buf wio with
                            | Some l => firstn (Z.to_nat (nb_buf wio)) l
                            | None => []
                            end).
    assert (Hcurr : curr = cmd_buf :: firstn (Z.to_nat (nb_buf wio)) payload
                    /\ sizes_ok curr
                    /\ Z.of_nat (length curr) = nb_buf wio + 1).
    { unfold curr, payload. destruct (buf wio) as [l|].
      - destruct Hdesc as [Hl Hs]. split; [reflexivity|]. split.
        + constructor; [cbn; unfold sizeof_cmd; lia | assumption].
        + cbn [length]. rewrite length_firstn. lia.
      - rewrite Hdesc. cbn [Z.to_nat firstn length]. split; [reflexivity|].
        split; [|reflexivity].
        constructor; [cbn; unfold sizeof_cmd; lia | constructor]. }
    destruct Hcurr as (Hc1 & Hc2 & Hc3).
    destruct (rw_loop stream stream_ops fuel 0 false w0 curr
                      (nb_buf wio + 1) 0) as [o w2] eqn:Hr.
    destruct o as [r| |]; cbn [on_world obind fst snd]; try discriminate.
    intros H; inversion H; subst st' w'. clear H.
    set (big := S (Z.to_nat (capacity (firstn (Z.to_nat (nb_buf wio + 1))
                                              curr)))).
    destruct (stream_write_loop 0 big w0 curr (nb_buf wio + 1) 0)
      as (r' & w2' & Hr' & M1 & M2 & M3 & M4 & M5); auto; try lia.
    pose proof (rw_loop_fuel_mono _ _ _ _ _ _ _ _ _ _ _ Hr
                  ltac:(discriminate) (Nat.max fuel big) ltac:(lia)) as A1.
    pose proof (rw_loop_fuel_mono _ _ _ _ _ _ _ _ _ _ _ Hr'
                  ltac:(discriminate) (Nat.max fuel big) ltac:(lia)) as A2.
    rewrite A1 in A2. inversion A2; subst r' w2'. clear A1 A2.
    destruct (Hstate r w2) as (S1 & S2 & S3).
    rewrite (Hclean r w2 _ eq_refl).
    repeat split; auto.
    rewrite M2. cbn [w0 w_tr w_mem]. f_equal.
    rewrite firstn_all2 by lia. rewrite Hc1. cbn [gather cmd_buf ptr size].
    change (Z.to_nat sizeof_cmd) with (length hdr).
    rewrite load_store_bytes. reflexivity.
Qed.

(** Such a transfer does return. *)
Lemma writer_thrd_transfer_returns cmd_ptr writer st (w : world stream) :
  0 <= nb_buf (w_io (heap st writer)) < 2 ^ 64 ->
  descriptors_ok None (buf (w_io (heap st writer)))
                 (nb_buf (w_io (heap st writer))) ->
  exists fuel st' w',
    writer_thrd_transfer stream stream_ops fuel cmd_ptr writer (st, w)
    = (Ret tt, (st', w')).
Proof.
  intros Hnb [_ Hdesc]. unfold writer_thrd_transfer.
  set (wio := w_io (heap st writer)) in *.
  set (w0 := {| w_mem := store_bytes (w_mem w) cmd_ptr (encode_cmd (cmd wio));
                w_tr := w_tr w; w_log := w_log w |}).
  destruct (Z_le_gt_dec 32 (nb_buf wio)) as [Hbig|Hsmall].
  - exists 0%nat.
    rewrite iiod_rw_all_invalid
      by (try lia; right; unfold effective_nb; lia).
    cbn [on_world obind]. eexists _, _. reflexivity.
  - destruct (iiod_rw_all_returns stream stream_ops w0
                (Some {| ptr := cmd_ptr; size := sizeof_cmd |})
                (buf wio) (nb_buf wio) 0 false)
      as (fuel & r & w2 & Hr); auto.
    + unfold effective_nb. lia.
    + exact stream_ops_bounded.
    + split; [cbn; unfold sizeof_cmd; lia | exact Hdesc].
    + exists fuel. rewrite Hr. cbn [on_world obind]. eexists _, _. reflexivity.
Qed.

(* ------------------------------------------------------------------ *)
(** ** First in, first out *)

Lemma NoDup_snoc {A} (l : list A) x : NoDup l -> ~ In x l -> NoDup (l ++ [x]).
Proof.
  induction l as [|a l IH]; intros Hnd Hx; cbn [app].
  - constructor; [intros [] | constructor].
  - inversion Hnd as [|a' l' Ha Hl]; subst. constructor.
    + intros Hin. apply in_app_or in Hin. destruct Hin as [Hin|[->|[]]].
      * contradiction.
      * apply Hx. left. reflexivity.
    + apply IH; [assumption|]. intros Hin. apply Hx. right. assumption.
Qed.

Lemma enqueued_snoc tr e :
  enqueued (tr ++ [e])
  = enqueued tr ++ match e with
                   | Ev_enqueue h io => [(h, io)]
                   | _ => []
                   end.
Proof.
  unfold enqueued. rewrite flat_map_app. cbn [flat_map].
  rewrite app_nil_r. reflexivity.
Qed.

Lemma transfers_snoc tr e :
  transfers (tr ++ [e])
  = transfers tr ++ match e with
                    | Ev_transfer h f => [(h, f)]
                    | _ => []
                    end.
Proof.
  unfold transfers. rewrite flat_map_app. cbn [flat_map].
  rewrite app_nil_r. reflexivity.
Qed.

(** What every run from an empty queue preserves. *)
Lemma run_invariant cmd_ptr c0 tr c :
  writers (priv (c_st c0)) = None -> c_writing c0 = None ->
  closed (w_tr (c_world c0)) = false ->
  0 < chunk (w_tr (c_world c0)) < 2 ^ 63 ->
  run cmd_ptr c0 tr c ->
  exists done pending q,
    enqueued tr = done ++ pending
    /\ Forall2 (frame_of cmd_ptr) done (transfers tr)
    /\ map fst pending = opt_list (c_writing c) ++ q
    /\ writers_queue (length q) (c_st c) = Some q
    /\ NoDup (opt_list (c_writing c) ++ q)
    /\ Forall (pending_ok (c_st c)) pending
    /\ closed (w_tr (c_world c)) = false
    /\ chunk (w_tr (c_world c)) = chunk (w_tr (c_world c0))
    /\ outbox (w_tr (c_world c))
       = outbox (w_tr (c_world c0)) ++ concat (map snd (transfers tr)).
Proof.
  intros Hw0 Hwr0 Hcl0 Hch0 Hrun.
  induction Hrun as [c | c tr c1 e c2 Hrun IH Hstep].
  - exists [], [], []. rewrite Hwr0. unfold writers_queue. rewrite Hw0.
    cbn. rewrite app_nil_r. repeat split; auto; constructor.
  - destruct (IH Hw0 Hwr0 Hcl0 Hch0)
      as (done & pending & q & I1 & I2 & I3 & I4 & I5 & I6 & I7 & I8 & I9).
    clear IH. rewrite enqueued_snoc, transfers_snoc.
    inversion Hstep as
        [st w wr writer op dev code bufs nb cb d fuel st' q0 Hq0 Hnin Hwr Hnb
            Hdesc Henq
        | st w writer st' Hdeq
        | st w writer fuel st' w' Hxfer]; subst; cbn [c_st c_world c_writing] in *.
    + (* a producer enqueues *)
      unfold writers_queue in Hq0, I4.
      assert (q0 = q) by (eapply chain_det; eassumption). subst q0.
      assert (Hndq : NoDup q).
      { destruct wr; cbn [opt_list app] in I5; [|assumption].
        inversion I5; assumption. }
      destruct (iiod_enqueue_command_appends _ _ _ _ _ _ _ _ _ _ q _ _
                  I4 Hnin Hndq Henq) as (_ & A2 & A3 & A4 & _).
      exists done, (pending ++ [(writer, w_io (heap st' writer))]),
        (q ++ [writer]).
      rewrite app_nil_r.
      split; [rewrite I1, app_assoc; reflexivity|].
      split; [assumption|].
      split; [rewrite map_app, I3, app_assoc; reflexivity|].
      split; [assumption|].
      split.
      { rewrite app_assoc. apply NoDup_snoc; [assumption|].
        intros Hin. apply in_app_or in Hin. destruct Hin as [Hin|Hin].
        - destruct wr as [x|]; [|contradiction].
          destruct Hin as [->|[]]. apply Hwr. reflexivity.
        - contradiction. }
      split.
      { apply Forall_app. split.
        - rewrite Forall_forall in I6 |- *. intros e He.
          destruct (I6 e He) as (P1 & P2 & P3).
          split; [|split; assumption].
          rewrite A4; [assumption|].
          intros E. assert (Hin : In (fst e) (opt_list wr ++ q)).
          { rewrite <- I3. apply in_map. assumption. }
          rewrite E in Hin. apply in_app_or in Hin. destruct Hin as [Hin|Hin].
          + destruct wr as [x|]; [|contradiction].
            destruct Hin as [->|[]]. apply Hwr. reflexivity.
          + contradiction.
        - constructor; [|constructor]. unfold pending_ok. cbn [fst snd].
          split; [reflexivity|]. rewrite A3. cbn [nb_buf buf].
          split; assumption. }
      repeat split; assumption.
    + (* the writer thread detaches the head *)
      unfold writer_thrd_dequeue in Hdeq.
      destruct (thrd_stop (priv st)); [discriminate|].
      destruct (writers (priv st)) as [head|] eqn:Eh; [|discriminate].
      inversion Hdeq; subst writer st'. clear Hdeq.
      unfold writers_queue in I4. rewrite Eh in I4.
      destruct q as [|x q'].
      { apply chain_nil in I4. discriminate. }
      apply chain_cons in I4. destruct I4 as [E (f & Ef & Hc)].
      inversion E; subst x. clear E.
      exists done, pending, q'. rewrite !app_nil_r.
      split; [assumption|]. split; [assumption|].
      split; [rewrite I3; reflexivity|].
      split.
      { unfold writers_queue. cbn [with_priv priv heap set_writers writers].
        eapply chain_exact_fuel. eassumption. }
      split; [assumption|].
      split; [assumption|]. repeat split; assumption.
    + (* the writer thread writes the detached frame *)
      destruct pending as [|[h io] pending'];
        [cbn [map opt_list app] in I3; discriminate|].
      cbn [map opt_list app fst] in I3. inversion I3 as [[Eh Hq]]. subst h.
      inversion I6 as [|e' l' Hp Hrest]; subst e' l'.
      destruct Hp as (P1 & P2 & P3). cbn [fst snd] in P1, P2, P3.
      rewrite <- P1 in P2, P3.
      destruct (writer_thrd_transfer_stream _ _ _ _ _ _ _ I7
                  ltac:(rewrite I8; assumption) P2 P3 Hxfer)
        as (T1 & T2 & T3 & T4 & T5 & T6).
      rewrite P1 in T6.
      exists (done ++ [(writer, io)]), pending', q.
      split; [rewrite app_nil_r, I1, <- app_assoc; reflexivity|].
      split.
      { apply Forall2_app; [assumption|]. constructor; [|constructor].
        split; [reflexivity|]. exists (w_mem w). cbn [snd].
        rewrite T6, skipn_app, Nat.sub_diag, skipn_all. reflexivity. }
      split; [assumption|].
      split.
      { unfold writers_queue in *. rewrite T1.
        eapply chain_frame; [eassumption|]. intros p _. apply T2. }
      cbn [opt_list app] in I5 |- *. inversion I5 as [|x l Hx Hnd]; subst x l.
      split; [assumption|].
      split.
      { rewrite Forall_forall in Hrest |- *. intros e He.
        destruct (Hrest e He) as (Q1 & Q2 & Q3).
        split; [|split; assumption].
        rewrite T3; [assumption|].
        intros E. apply Hx. rewrite <- Hq, <- E. apply in_map. assumption. }
      split; [assumption|]. split; [congruence|].
      rewrite map_app, concat_app, T6, I9. cbn [map concat snd].
      rewrite skipn_app, Nat.sub_diag, skipn_all, app_nil_r.
      cbn [skipn app]. rewrite <- app_assoc. reflexivity.
Qed.




(** The tail append and the head detach, seen over a run: the enqueues
    not yet written are, in the order of the enqueues, the frame the
    writer thread is busy with and the handles on the queue. *)
Lemma run_pending_in_order cmd_ptr c0 tr c :
  writers (priv (c_st c0)) = None -> c_writing c0 = None ->
  closed (w_tr (c_world c0)) = false ->
  0 < chunk (w_tr (c_world c0)) < 2 ^ 63 ->
  run cmd_ptr c0 tr c ->
  exists done pending q,
    enqueued tr = done ++ pending
    /\ length done = length (transfers tr)
    /\ map fst done = map fst (transfers tr)
    /\ map fst pending = opt_list (c_writing c) ++ q
    /\ writers_queue (length q) (c_st c) = Some q.
Proof.
  intros Hw0 Hwr0 Hcl0 Hch0 Hrun.
  destruct (run_invariant cmd_ptr c0 tr c Hw0 Hwr0 Hcl0 Hch0 Hrun)
    as (done & pending & q & I1 & I2 & I3 & I4 & _).
  exists done, pending, q. split; [exact I1|].
  split; [eapply Forall2_length; exact I2|].
  split; [|split; assumption].
  clear I1. induction I2 as [|e x l l' [Hf _] _ IH]; [reflexivity|].
  cbn [map]. rewrite Hf, IH. reflexivity.
Qed.




(** What the run puts on the stream. *)
Lemma two_frame_run_stream :
  outbox (w_tr (c_world fifo_c6))
  = (encode_cmd {| cmd_client_id := 42; cmd_op := IIOD_OP_PRINT;
                   cmd_dev := 0; cmd_code := 0 |}
     ++ gather mem_init sample_payload)
    ++ encode_cmd {| cmd_client_id := 41; cmd_op := IIOD_OP_VERSION;
                     cmd_dev := 0; cmd_code := 0 |}.
Proof. vm_compute. reflexivity. Qed.

(** Two frames, end to end: handle 2 enqueues before handle 1, and the
    writer thread, run until it sleeps, puts handle 2's frame on the
    stream before handle 1's. *)
Lemma writer_thrd_two_frames :
  writers_queue 4 two_enqueued = Some [2%nat; 1%nat]
  /\ exists st' w',
       iiod_responder_writer_thrd stream stream_ops 8 cmd_addr
         (two_enqueued, incoming [] 3)
       = (Ret Sleeping, (st', w'))
       /\ outbox (w_tr w')
          = encode_cmd {| cmd_client_id := 42; cmd_op := IIOD_OP_PRINT;
                          cmd_dev := 0; cmd_code := 0 |}
            ++ encode_cmd {| cmd_client_id := 41; cmd_op := IIOD_OP_VERSION;
                             cmd_dev := 0; cmd_code := 0 |}
       /\ writers_queue 4 st' = Some [].
Proof.
  split; [reflexivity|]. eexists _, _.
  split; [vm_compute; reflexivity|]. split; reflexivity.
Qed.


(** On a transport that fails a write the order is kept but a frame can
    be cut short: the second write fails, which is that of F1's payload;
    the writer thread stores the error in F1's handle and goes on to F2,
    whose header follows F1's header on the stream. *)
Lemma writer_thrd_failed_write_cuts_frame :
  writers_queue 4 payload_then_version = Some [2%nat; 1%nat]
  /\ exists st' w',
       iiod_responder_writer_thrd (nat * stream) failing_write_ops 8 cmd_addr
         (payload_then_version,
          {| w_mem := mem_init;
             w_tr := (2%nat, {| inbox := []; outbox := []; chunk := 8;
                                closed := false |});
             w_log := [] |})
       = (Ret Sleeping, (st', w'))
       /\ cmd_code (cmd (w_io (heap st' 2%nat))) = - EPIPE
       /\ cmd_code (cmd (w_io (heap st' 1%nat))) = 8
       /\ outbox (snd (w_tr w'))
          = encode_cmd {| cmd_client_id := 42; cmd_op := IIOD_OP_PRINT;
                          cmd_dev := 0; cmd_code := 0 |}
            ++ encode_cmd {| cmd_client_id := 41; cmd_op := IIOD_OP_VERSION;
                             cmd_dev := 0; cmd_code := 0 |}.
Proof.
  split; [reflexivity|].
  set (r := iiod_responder_writer_thrd (nat * stream) failing_write_ops 8
              cmd_addr _).
  assert (H1 : fst r = Ret Sleeping) by (vm_compute; reflexivity).
  assert (H2 : cmd_code (cmd (w_io (heap (fst (snd r)) 2%nat))) = - EPIPE)
    by (vm_compute; reflexivity).
  assert (H3 : cmd_code (cmd (w_io (heap (fst (snd r)) 1%nat))) = 8)
    by (vm_compute; reflexivity).
  assert (H4 : outbox (snd (w_tr (snd (snd r))))
               = encode_cmd {| cmd_client_id := 42; cmd_op := IIOD_OP_PRINT;
                               cmd_dev := 0; cmd_code := 0 |}
                 ++ encode_cmd {| cmd_client_id := 41;
                                  cmd_op := IIOD_OP_VERSION;
                                  cmd_dev := 0; cmd_code := 0 |})
    by (vm_compute; reflexivity).
  clearbody r. destruct r as [o [st' w']]. cbn [fst snd] in H1, H2, H3, H4.
  subst o. exists st', w'. repeat split; assumption.
Qed.

(* ================================================================== *)
(** * Further properties *)

(** Under a valid descriptor count, [iiod_rw_all] is its transfer loop on
    the working array. *)
Lemma iiod_rw_all_loop T (ops : iiod_responder_ops T) fuel (w : world T)
    cmd_buf bufs nb bytes is_read :
  0 <= nb < 2 ^ 64 ->
  0 < effective_nb cmd_buf nb <= 32 ->
  descriptors_ok cmd_buf bufs nb ->
  iiod_rw_all T ops fuel w cmd_buf bufs nb bytes is_read
  = rw_loop T ops fuel bytes is_read w (working_array cmd_buf bufs nb)
            (effective_nb cmd_buf nb) 0
  /\ Z.of_nat (length (working_array cmd_buf bufs nb)) = effective_nb cmd_buf nb
  /\ sizes_ok (working_array cmd_buf bufs nb).
Proof.
  intros Hnb Heff [Hcb Hbufs].
  unfold iiod_rw_all, effective_nb, working_array, payload_descriptors in *.
  destruct cmd_buf as [cb|]; cbn [opt_list app].
  - rewrite to_size_t_small by lia.
    replace (nb + 1 - 1) with nb by lia.
    assert (E : (nb + 1 =? 0) || (ARRAY_SIZE_bufs <? nb + 1) = false).
    { apply orb_false_iff. unfold ARRAY_SIZE_bufs.
      split; [apply Z.eqb_neq | apply Z.ltb_ge]; lia. }
    rewrite E. destruct bufs as [l|].
    + destruct Hbufs as [Hl Hs]. cbn [length]. rewrite length_firstn.
      split; [reflexivity|]. split; [lia|]. constructor; assumption.
    + subst nb. cbn [length Z.to_nat firstn]. split; [reflexivity|].
      split; [reflexivity|]. constructor; [assumption | constructor].
  - replace (nb + 0) with nb in * by lia.
    assert (E : (nb =? 0) || (ARRAY_SIZE_bufs <? nb) = false).
    { apply orb_false_iff. unfold ARRAY_SIZE_bufs.
      split; [apply Z.eqb_neq | apply Z.ltb_ge]; lia. }
    rewrite E. destruct bufs as [l|].
    + destruct Hbufs as [Hl Hs]. rewrite length_firstn.
      split; [reflexivity|]. split; [lia | assumption].
    + lia.
Qed.

(** In write mode a transfer loop that returns a positive value has
    written every descriptor in full. *)
Lemma rw_loop_write_complete T (ops : iiod_responder_ops T) bytes :
  transport_bounded ops ->
  forall fuel w curr nb count r w',
    sizes_ok curr ->
    1 <= nb <= Z.of_nat (length curr) -> nb < 2 ^ 64 ->
    rw_loop T ops fuel bytes false w curr nb count = (Ret r, w') ->
    0 < r ->
    r = count + capacity (firstn (Z.to_nat nb) curr).
Proof.
  intros [_ Hbw]. induction fuel as [|fuel IH];
    intros w curr nb count r w' Hok Hnb Hnb64 Hr Hpos.
  - discriminate.
  - destruct curr as [|c rest]; [cbn [length] in Hnb; lia|].
    set (bufs := firstn (Z.to_nat nb) (c :: rest)) in *.
    assert (Hbufs : sizes_ok bufs) by (apply sizes_ok_firstn; assumption).
    destruct (do_write T ops w bufs) as [ret w1] eqn:Eio.
    assert (Hb : ret <= capacity bufs /\ ret < 2 ^ 63).
    { specialize (Hbw (w_tr w) (w_mem w) bufs Hbufs).
      unfold do_write in Eio.
      destruct (op_write ops (w_tr w) (w_mem w) bufs) as [ret' t'].
      inversion Eio; subst. exact Hbw. }
    destruct (Z_le_gt_dec ret 0) as [Hle|Hgt].
    + rewrite rw_loop_step in Hr. cbv zeta in Hr. cbn [andb] in Hr.
      destruct (Z.of_nat (length (c :: rest)) <? nb) eqn:El;
        [apply Z.ltb_lt in El; lia|].
      fold bufs in Hr. rewrite Eio in Hr.
      apply Z.leb_le in Hle. rewrite Hle in Hr.
      apply Z.leb_le in Hle. inversion Hr; subst. lia.
    + destruct (rw_loop_iteration T ops fuel bytes false w c rest nb count
                  ret w1)
        as [[Hr' Hall] | (curr' & nb' & Hr' & H1 & H2 & H3 & H4 & _)];
        auto; try (fold bufs; lia); try discriminate.
      * rewrite Hr' in Hr. inversion Hr; subst. fold bufs in Hpos |- *. lia.
      * rewrite Hr' in Hr.
        specialize (IH w1 curr' nb' (count + ret) r w' H1 H2 ltac:(lia) Hr Hpos).
        fold bufs in H4. lia.
Qed.

(** X1: over a transport that reports no more than it was offered, a
    write through [iiod_rw_all] with a valid descriptor count never
    reports a partial frame: a positive result is the total size of the
    header and payload descriptors, reached by calls of [write] alone
    whose results add up to it. *)
Theorem iiod_rw_all_write_complete T (ops : iiod_responder_ops T) fuel
    (w : world T) cmd_buf bufs nb bytes r w' :
  transport_bounded ops ->
  0 <= nb < 2 ^ 64 ->
  0 < effective_nb cmd_buf nb <= 32 ->
  descriptors_ok cmd_buf bufs nb ->
  iiod_rw_all T ops fuel w cmd_buf bufs nb bytes false = (Ret r, w') ->
  0 < r ->
  r = capacity (working_array cmd_buf bufs nb)
  /\ exists evs,
       w_log w' = w_log w ++ evs
       /\ Forall is_write_event evs /\ transferred evs = r.
Proof.
  intros Hbd Hnb Heff Hd Hr Hpos.
  destruct (iiod_rw_all_loop T ops fuel w cmd_buf bufs nb bytes false Hnb Heff Hd)
    as (E & Hlen & Hok).
  split.
  - rewrite E in Hr.
    assert (H := rw_loop_write_complete T ops bytes Hbd fuel w
                   (working_array cmd_buf bufs nb) (effective_nb cmd_buf nb)
                   0 r w' Hok).
    specialize (H ltac:(lia) ltac:(lia) Hr Hpos).
    rewrite <- Hlen, Nat2Z.id, firstn_all in H. lia.
  - destruct (iiod_rw_all_reports T ops fuel w cmd_buf bufs nb bytes false r w'
                Hnb Heff Hr) as (evs & Hl & Hrep).
    rewrite E in Hr.
    destruct (rw_loop_writes T ops bytes _ _ _ _ _ _ _ Hr) as (evs' & Hl' & Hw).
    assert (evs' = evs) by (rewrite Hl in Hl'; apply app_inv_head in Hl'; congruence).
    subst evs'. exists evs. split; [assumption|]. split; [assumption|].
    destruct Hrep as [[_ Ht] | (evs0 & e & _ & _ & _ & Hle)]; lia.
Qed.

(** Four bytes at a time: an 8-byte header and a 2-byte payload. *)
Lemma iiod_rw_all_write_complete_witness :
  exists w',
    iiod_rw_all stream stream_ops 8 (incoming [] 4)
      (Some {| ptr := cmd_addr; size := 8 |}) (Some sample_payload) 1 0 false
    = (Ret 10, w')
    /\ 10 = capacity (working_array (Some {| ptr := cmd_addr; size := 8 |})
                                    (Some sample_payload) 1)
    /\ exists evs,
         w_log w' = w_log (incoming [] 4) ++ evs
         /\ Forall is_write_event evs /\ transferred evs = 10.
Proof.
  eexists. split; [vm_compute; reflexivity|].
  apply (iiod_rw_all_write_complete stream stream_ops 8 (incoming [] 4)
           (Some {| ptr := cmd_addr; size := 8 |}) (Some sample_payload) 1 0).
  - exact stream_ops_bounded.
  - lia.
  - cbn. lia.
  - split; [cbn; lia|]. split; [cbn; lia|].
    repeat constructor; cbn; lia.
  - vm_compute. reflexivity.
  - lia.
Defined.

(** When what is left of [bytes] fits the current descriptor, the loop
    goes on with that descriptor alone, cut to the remaining count. *)
Lemma rw_loop_cap T (ops : iiod_responder_ops T) fuel bytes (w : world T)
    c rest nb count :
  to_size_t (bytes - count) <= size c ->
  rw_loop T ops (S fuel) bytes true w (c :: rest) nb count
  = rw_loop T ops (S fuel) bytes true w
      (set_size c (to_size_t (bytes - count)) :: rest) 1 count.
Proof.
  intros Hle. rewrite !rw_loop_step. cbv zeta. cbn [andb].
  apply Z.leb_le in Hle. rewrite Hle.
  cbn [set_size size ptr]. rewrite Z.leb_refl. reflexivity.
Qed.

(** A stream that ends before the descriptors are full: the loop stores
    what there is and returns 0, the result of the read that met the end
    of the stream. *)
Lemma stream_read_loop_short bytes :
  forall fuel (w : world stream) curr nb count,
    0 < chunk (w_tr w) < 2 ^ 63 ->
    sizes_pos curr ->
    1 <= nb <= Z.of_nat (length curr) -> nb < 2 ^ 64 ->
    capacity (firstn (Z.to_nat nb) curr) <= bytes - count < 2 ^ 64 ->
    (capacity (firstn (Z.to_nat nb) curr) = bytes - count -> nb = 1) ->
    Z.of_nat (length (inbox (w_tr w))) < capacity (firstn (Z.to_nat nb) curr) ->
    (length (inbox (w_tr w)) < fuel)%nat ->
    exists w',
      rw_loop stream stream_ops fuel bytes true w curr nb count = (Ret 0, w')
      /\ w_mem w' = scatter (w_mem w) (firstn (Z.to_nat nb) curr) (inbox (w_tr w))
      /\ inbox (w_tr w') = []
      /\ outbox (w_tr w') = outbox (w_tr w)
      /\ chunk (w_tr w') = chunk (w_tr w)
      /\ closed (w_tr w') = closed (w_tr w).
Proof.
  induction fuel as [|fuel IH];
    intros w curr nb count Hch Hpos Hnb Hnb64 Hcap Heqcap Hin Hfuel; [lia|].
  destruct curr as [|c rest]; [cbn [length] in Hnb; lia|].
  pose proof (sizes_pos_ok _ Hpos) as Hok.
  set (bufs := firstn (Z.to_nat nb) (c :: rest)) in *.
  assert (Hbufs : sizes_ok bufs) by (apply sizes_ok_firstn; assumption).
  set (k := Z.to_nat (Z.min (Z.min (chunk (w_tr w))
                                   (Z.of_nat (length (inbox (w_tr w)))))
                            (capacity bufs))).
  set (w1 := {| w_mem := scatter (w_mem w) bufs (firstn k (inbox (w_tr w)));
                w_tr := {| inbox := skipn k (inbox (w_tr w));
                           outbox := outbox (w_tr w);
                           chunk := chunk (w_tr w);
                           closed := closed (w_tr w) |};
                w_log := w_log w ++ [Io_read bufs (Z.of_nat k)] |}).
  assert (Hio : do_read stream stream_ops w bufs = (Z.of_nat k, w1)).
  { unfold do_read. cbn [op_read stream_ops]. unfold stream_read.
    replace (quota (w_tr w)) with (chunk (w_tr w))
      by (unfold quota, SSIZE_MAX; lia).
    reflexivity. }
  assert (Htrunc : to_size_t (bytes - count) <= size c ->
                   to_size_t (bytes - count) = size c /\ nb = 1).
  { intros Hle. rewrite to_size_t_small in Hle |- * by lia.
    assert (size c <= capacity bufs).
    { unfold bufs. rewrite firstn_Z_cons by lia. cbn [capacity].
      inversion Hok as [|c' rest' _ Hrest]; subst.
      pose proof (sizes_ok_capacity _
                    (sizes_ok_firstn (Z.to_nat (nb - 1)) _ Hrest)). lia. }
    split; [lia|]. apply Heqcap. lia. }
  destruct (Nat.eq_dec (length (inbox (w_tr w))) 0) as [Ein|Ein].
  - (* nothing left: the read returns 0 *)
    assert (Hk : k = 0%nat) by (unfold k; lia).
    exists w1. split.
    + rewrite rw_loop_step. cbv zeta. cbn [andb].
      destruct (to_size_t (bytes - count) <=? size c) eqn:Et.
      * apply Z.leb_le in Et. destruct (Htrunc Et) as [E1 E2].
        rewrite E1. replace (set_size c (size c)) with c by (destruct c; reflexivity).
        destruct (Z.of_nat (length (c :: rest)) <? 1) eqn:El;
          [apply Z.ltb_lt in El; cbn [length] in El; lia|].
        rewrite <- E2. fold bufs. rewrite Hio, Hk. reflexivity.
      * destruct (Z.of_nat (length (c :: rest)) <? nb) eqn:El;
          [apply Z.ltb_lt in El; lia|].
        fold bufs. rewrite Hio, Hk. reflexivity.
    + cbn [w_mem w_tr w1 inbox outbox chunk closed]. rewrite Hk.
      apply length_zero_iff_nil in Ein. rewrite Ein.
      cbn [firstn skipn]. repeat split; reflexivity.
  - assert (Hlen : (0 < length (inbox (w_tr w)))%nat) by lia.
    assert (Hk : 0 < Z.of_nat k < capacity bufs
                 /\ (k <= length (inbox (w_tr w)))%nat) by (unfold k; lia).
    destruct (rw_loop_iteration stream stream_ops fuel bytes true w c rest
                nb count (Z.of_nat k) w1)
      as [[Hr Hall] | (curr' & nb' & Hr & H1 & H2 & H3 & H4 & H5 & H6 & H7)];
      auto; try (fold bufs; lia).
    + fold bufs in Hall. lia.
    + fold bufs in H4, H5, H6.
      destruct (IH w1 curr' nb' (count + Z.of_nat k)) as
          (w' & Hr' & M1 & M2 & M3 & M4 & M5); auto; try lia;
        try (cbn [w_tr w1 inbox]; rewrite length_skipn; lia).
      exists w'. split; [rewrite Hr; exact Hr'|].
      cbn [w_mem w_tr w1 inbox outbox chunk closed] in M1, M2, M3, M4, M5.
      repeat split; auto.
      rewrite M1. rewrite <- (firstn_skipn k (inbox (w_tr w))) at 3.
      symmetry. apply H6. rewrite length_firstn. lia.
Qed.

Lemma scatter_one m c bs :
  (length bs <= Z.to_nat (size c))%nat ->
  scatter m [c] bs = store_bytes m (ptr c) bs.
Proof.
  intros H. cbn [scatter]. rewrite firstn_all2 by lia. reflexivity.
Qed.

(** A read whose byte count fits the first descriptor stores exactly
    that many bytes there, however the stream chops them up. *)
Lemma iiod_rw_all_read_fits fuel (w : world stream) c l nb bytes data rest :
  0 < chunk (w_tr w) < 2 ^ 63 ->
  1 <= nb <= 32 -> nb <= Z.of_nat (length (c :: l)) ->
  sizes_pos (firstn (Z.to_nat nb) (c :: l)) ->
  0 < bytes <= size c ->
  inbox (w_tr w) = data ++ rest -> Z.of_nat (length data) = bytes ->
  bytes < Z.of_nat fuel ->
  exists w',
    iiod_rw_all stream stream_ops fuel w None (Some (c :: l)) nb bytes true
    = (Ret bytes, w')
    /\ w_mem w' = store_bytes (w_mem w) (ptr c) data
    /\ inbox (w_tr w') = rest
    /\ outbox (w_tr w') = outbox (w_tr w)
    /\ chunk (w_tr w') = chunk (w_tr w)
    /\ closed (w_tr w') = closed (w_tr w)
    /\ exists evs, w_log w' = w_log w ++ evs /\ Forall is_read_event evs.
Proof.
  intros Hch Hnb Hlen Hpos Hb Hin Hdata Hfuel.
  unfold iiod_rw_all.
  assert (E : (nb =? 0) || (ARRAY_SIZE_bufs <? nb) = false).
  { apply orb_false_iff. unfold ARRAY_SIZE_bufs.
    split; [apply Z.eqb_neq | apply Z.ltb_ge]; lia. }
  rewrite E. rewrite firstn_Z_cons in Hpos |- * by lia.
  inversion Hpos as [|c' l' Hc Hl]; subst c' l'.
  destruct fuel as [|fuel]; [cbn in Hfuel; lia|].
  rewrite rw_loop_cap by (rewrite to_size_t_small; lia).
  replace (bytes - 0) with bytes by lia.
  rewrite (to_size_t_small bytes) by lia.
  set (curr := set_size c bytes :: firstn (Z.to_nat (nb - 1)) l).
  assert (Hcapc : capacity (firstn (Z.to_nat 1) curr) = bytes).
  { change (Z.to_nat 1) with 1%nat. cbn [curr firstn capacity set_size size].
    lia. }
  destruct (stream_read_loop bytes (S fuel) w curr 1 0)
    as (w' & Hr & M1 & M2 & M3 & M4 & M5); auto;
    try (rewrite Hcapc); try lia.
  { constructor; [cbn [set_size size]; lia | assumption]. }
  { unfold curr. cbn [length]. lia. }
  { rewrite Hin, length_app. lia. }
  rewrite Hcapc in Hr, M1, M2.
  destruct (rw_loop_reads _ _ _ _ _ _ _ _ _ _ Hr) as (evs & Hl' & Hall).
  exists w'. split; [rewrite Hr; f_equal|].
  assert (Hf : firstn (Z.to_nat bytes) (inbox (w_tr w)) = data).
  { rewrite Hin, firstn_app. replace (Z.to_nat bytes) with (length data) by lia.
    rewrite Nat.sub_diag, firstn_O, app_nil_r, firstn_all. reflexivity. }
  assert (Hs : skipn (Z.to_nat bytes) (inbox (w_tr w)) = rest).
  { rewrite Hin, skipn_app. replace (Z.to_nat bytes) with (length data) by lia.
    rewrite Nat.sub_diag, skipn_O, skipn_all. reflexivity. }
  rewrite Hf in M1. rewrite Hs in M2.
  change (Z.to_nat 1) with 1%nat in M1. cbn [curr firstn] in M1.
  rewrite scatter_one in M1 by (cbn [set_size size]; lia).
  repeat split; auto. exists evs. split; assumption.
Qed.

(** X2: [iiod_command_data_read] over a byte stream.  When the stream
    holds at least as many bytes as the buffer is long, the call returns
    the buffer size with the buffer filled by the next bytes of the
    stream and nothing more consumed, however short the single reads
    are.  When the stream ends before that, the call returns 0 although
    it has consumed, and stored, every byte that was left. *)
Theorem iiod_command_data_read_stream fuel (w : world stream) (b : iiod_buf) :
  0 < chunk (w_tr w) < 2 ^ 63 ->
  0 < size b < 2 ^ 64 ->
  size b < Z.of_nat fuel ->
  (forall data rest,
      inbox (w_tr w) = data ++ rest -> Z.of_nat (length data) = size b ->
      exists w',
        iiod_command_data_read stream stream_ops fuel w b = (Ret (size b), w')
        /\ w_mem w' = store_bytes (w_mem w) (ptr b) data
        /\ inbox (w_tr w') = rest)
  /\ (Z.of_nat (length (inbox (w_tr w))) < size b ->
      exists w',
        iiod_command_data_read stream stream_ops fuel w b = (Ret 0, w')
        /\ w_mem w' = store_bytes (w_mem w) (ptr b) (inbox (w_tr w))
        /\ inbox (w_tr w') = []).
Proof.
  intros Hch Hb Hfuel. unfold iiod_command_data_read. split.
  - intros data rest Hin Hdata.
    destruct (iiod_rw_all_read_fits fuel w b [] 1 (size b) data rest)
      as (w' & Hr & M1 & M2 & _); auto; try lia.
    + cbn [length]. lia.
    + change (Z.to_nat 1) with 1%nat. cbn [firstn].
      constructor; [lia | constructor].
    + exists w'. repeat split; assumption.
  - intros Hshort. unfold iiod_rw_all.
    cbn [Z.eqb orb Z.ltb Z.compare ARRAY_SIZE_bufs].
    change (ARRAY_SIZE_bufs <? 1) with false. cbv iota.
    change (Z.to_nat 1) with 1%nat. cbn [firstn].
    destruct (stream_read_loop_short (size b) fuel w [b] 1 0)
      as (w' & Hr & M1 & M2 & _); auto;
      try (change (Z.to_nat 1) with 1%nat; cbn [firstn capacity length]; lia).
    + constructor; [lia | constructor].
    + exists w'. split; [exact Hr|]. split; [|assumption].
      rewrite M1. change (Z.to_nat 1) with 1%nat. cbn [firstn].
      apply scatter_one. lia.
Qed.

Lemma iiod_command_data_read_stream_witness :
  (exists w',
      iiod_command_data_read stream stream_ops 8
        (incoming [x01; x02; x03; x04; x05; x06] 3) {| ptr := 2000; size := 4 |}
      = (Ret 4, w')
      /\ w_mem w' = store_bytes mem_init 2000 [x01; x02; x03; x04]
      /\ inbox (w_tr w') = [x05; x06])
  /\ (exists w',
         iiod_command_data_read stream stream_ops 8
           (incoming truncated_header 2) {| ptr := 2000; size := 4 |}
         = (Ret 0, w')
         /\ w_mem w' = store_bytes mem_init 2000 truncated_header
         /\ inbox (w_tr w') = []).
Proof.
  split.
  - apply (proj1 (iiod_command_data_read_stream 8
                    (incoming [x01; x02; x03; x04; x05; x06] 3)
                    {| ptr := 2000; size := 4 |}
                    ltac:(cbn; lia) ltac:(cbn; lia) ltac:(cbn; lia))
                 [x01; x02; x03; x04] [x05; x06]); reflexivity.
  - apply (proj2 (iiod_command_data_read_stream 8
                    (incoming truncated_header 2)
                    {| ptr := 2000; size := 4 |}
                    ltac:(cbn; lia) ltac:(cbn; lia) ltac:(cbn; lia))).
    cbn. lia.
Defined.

Lemma sizes_pos_capacity curr nb :
  sizes_pos curr -> 1 <= nb <= Z.of_nat (length curr) ->
  0 < capacity (firstn (Z.to_nat nb) curr).
Proof.
  intros Hpos Hnb. destruct curr as [|c rest]; [cbn [length] in Hnb; lia|].
  rewrite firstn_Z_cons by lia. cbn [capacity].
  inversion Hpos as [|c' rest' Hc Hrest]; subst.
  pose proof (sizes_ok_capacity _
                (sizes_ok_firstn (Z.to_nat (nb - 1)) _ (sizes_pos_ok _ Hrest))).
  lia.
Qed.

(** X3: the byte limit of a read is applied only once what is left of it
    fits the current descriptor.  When the first descriptor is smaller
    than [bytes] and the transport fills all the descriptors in one
    read, [iiod_rw_all] takes the whole capacity of the descriptors off
    the stream and returns it, although that is more than [bytes]. *)
Theorem iiod_rw_all_read_exceeds_limit fuel (w : world stream) c l bytes :
  sizes_pos (c :: l) -> Z.of_nat (length (c :: l)) <= 32 ->
  size c < bytes < capacity (c :: l) ->
  capacity (c :: l) <= chunk (w_tr w) < 2 ^ 63 ->
  capacity (c :: l) <= Z.of_nat (length (inbox (w_tr w))) ->
  exists w',
    iiod_rw_all stream stream_ops (S fuel) w None (Some (c :: l))
                (Z.of_nat (length (c :: l))) bytes true
    = (Ret (capacity (c :: l)), w')
    /\ inbox (w_tr w')
       = skipn (Z.to_nat (capacity (c :: l))) (inbox (w_tr w))
    /\ w_mem w'
       = scatter (w_mem w) (c :: l)
                 (firstn (Z.to_nat (capacity (c :: l))) (inbox (w_tr w)))
    /\ w_log w' = w_log w ++ [Io_read (c :: l) (capacity (c :: l))].
Proof.
  intros Hpos Hlen Hb Hch Hin.
  pose proof (sizes_pos_ok _ Hpos) as Hok.
  set (nb := Z.of_nat (length (c :: l))) in *.
  assert (Hnb : 1 <= nb) by (unfold nb; cbn [length]; lia).
  unfold iiod_rw_all.
  assert (E : (nb =? 0) || (ARRAY_SIZE_bufs <? nb) = false).
  { apply orb_false_iff. unfold ARRAY_SIZE_bufs.
    split; [apply Z.eqb_neq | apply Z.ltb_ge]; lia. }
  rewrite E.
  assert (Hall : firstn (Z.to_nat nb) (c :: l) = c :: l).
  { unfold nb. rewrite Nat2Z.id. apply firstn_all. }
  rewrite Hall.
  set (k := Z.to_nat (capacity (c :: l))).
  set (w1 := {| w_mem := scatter (w_mem w) (c :: l) (firstn k (inbox (w_tr w)));
                w_tr := {| inbox := skipn k (inbox (w_tr w));
                           outbox := outbox (w_tr w);
                           chunk := chunk (w_tr w);
                           closed := closed (w_tr w) |};
                w_log := w_log w ++ [Io_read (c :: l) (Z.of_nat k)] |}).
  pose proof (sizes_pos_capacity (c :: l) nb Hpos ltac:(unfold nb; lia)) as Hcap.
  rewrite Hall in Hcap.
  assert (Hio : do_read stream stream_ops w (c :: l) = (Z.of_nat k, w1)).
  { unfold do_read. cbn [op_read stream_ops]. unfold stream_read.
    replace (quota (w_tr w)) with (chunk (w_tr w))
      by (unfold quota, SSIZE_MAX; lia).
    replace (Z.to_nat (Z.min (Z.min (chunk (w_tr w))
                                    (Z.of_nat (length (inbox (w_tr w)))))
                             (capacity (c :: l)))) with k by (unfold k; lia).
    reflexivity. }
  assert (Hk : Z.of_nat k = capacity (c :: l)) by (unfold k; lia).
  inversion Hpos as [|c' l' Hc _]; subst c' l'.
  destruct (rw_loop_iteration stream stream_ops fuel bytes true w c l
              nb 0 (Z.of_nat k) w1)
    as [[Hr _] | (curr' & nb' & _ & H1 & H2 & H3 & H4 & H5 & H6 & H7)];
    auto; try (rewrite Hall; lia); try lia.
  - intros _ Hle. rewrite to_size_t_small in Hle by lia. lia.
  - rewrite Hall. exact Hio.
  - exists w1. rewrite Hr, Hk.
    cbn [w1 w_mem w_tr w_log inbox]. rewrite Hk.
    split; [f_equal|]. repeat split; reflexivity.
  - rewrite Hall in H4.
    pose proof (sizes_pos_capacity curr' nb' (H7 Hpos) ltac:(lia)). lia.
Qed.

(** Descriptors of 4 and 100 bytes and a limit of 10 on a stream that
    holds 120 bytes: 104 are taken. *)
Lemma iiod_rw_all_read_exceeds_limit_witness :
  exists w',
    iiod_rw_all stream stream_ops 1 (incoming (repeat x41 120) 4096) None
      (Some [{| ptr := 2000; size := 4 |}; {| ptr := 3000; size := 100 |}])
      2 10 true
    = (Ret 104, w')
    /\ inbox (w_tr w') = repeat x41 16.
Proof.
  destruct (iiod_rw_all_read_exceeds_limit 0 (incoming (repeat x41 120) 4096)
              {| ptr := 2000; size := 4 |} [{| ptr := 3000; size := 100 |}] 10)
    as (w' & Hr & Hi & _).
  - repeat constructor; cbn; lia.
  - cbn. lia.
  - cbn. lia.
  - cbn. lia.
  - cbn. lia.
  - exists w'. split; [exact Hr|]. rewrite Hi. reflexivity.
Defined.

(** Discarding more than the stream holds: everything is skipped, then
    the transport's error comes back. *)
Lemma stream_discard_short : forall fuel (w : world stream) bytes,
  0 < chunk (w_tr w) < 2 ^ 63 ->
  Z.of_nat (length (inbox (w_tr w))) < bytes < 2 ^ 64 ->
  (length (inbox (w_tr w)) < fuel)%nat ->
  exists w' evs,
    iiod_discard_data stream stream_ops fuel w bytes = (Ret (- EPIPE), w')
    /\ w_mem w' = w_mem w
    /\ inbox (w_tr w') = []
    /\ outbox (w_tr w') = outbox (w_tr w)
    /\ w_log w' = w_log w ++ evs ++ [Io_discard (bytes - transferred evs) (- EPIPE)]
    /\ Forall is_discard_event evs
    /\ transferred evs = Z.of_nat (length (inbox (w_tr w))).
Proof.
  induction fuel as [|fuel IH]; intros w bytes Hch Hb Hfuel; [lia|].
  cbn [iiod_discard_data].
  assert (E : (bytes =? 0) = false) by (apply Z.eqb_neq; lia). rewrite E.
  unfold do_discard. cbn [op_discard stream_ops]. unfold stream_discard.
  replace (quota (w_tr w)) with (chunk (w_tr w))
    by (unfold quota, SSIZE_MAX; lia).
  destruct (inbox (w_tr w)) as [|x xs] eqn:Ein.
  - change (- EPIPE <? 0) with true. cbv iota.
    eexists _, []. split; [reflexivity|].
    cbn [w_mem w_tr w_log inbox outbox app transferred fold_right length].
    rewrite Ein, Z.sub_0_r. repeat split; auto.
  - rewrite <- Ein in *.
    assert (Hlen : (0 < length (inbox (w_tr w)))%nat)
      by (rewrite Ein; cbn [length]; lia).
    set (k := Z.to_nat (Z.min (Z.min (chunk (w_tr w)) bytes)
                              (Z.of_nat (length (inbox (w_tr w)))))).
    assert (Hk : 0 < Z.of_nat k < bytes
                 /\ Z.of_nat k <= Z.of_nat (length (inbox (w_tr w))))
      by (unfold k; lia).
    destruct (Z.of_nat k <? 0) eqn:Eneg; [apply Z.ltb_lt in Eneg; lia|].
    rewrite (to_size_t_small (Z.of_nat k)) by lia.
    rewrite (to_size_t_small (bytes - Z.of_nat k)) by lia.
    match goal with
    | |- context [iiod_discard_data _ _ fuel ?w1 _] =>
        destruct (IH w1 (bytes - Z.of_nat k))
          as (w' & evs & Hr & M1 & M2 & M3 & M4 & M5 & M6)
    end; cbn [w_tr w_mem w_log inbox outbox chunk closed];
      try rewrite length_skipn; try lia.
    exists w', (Io_discard bytes (Z.of_nat k) :: evs).
    rewrite Hr.
    cbn [w_tr w_mem w_log inbox outbox chunk closed] in M1, M2, M3, M4, M6.
    rewrite length_skipn in M6.
    repeat split; auto.
    + rewrite M4, <- !app_assoc. cbn [app transferred fold_right io_ret].
      fold (transferred evs). do 5 f_equal. lia.
    + constructor; [exact I | assumption].
    + cbn [transferred fold_right io_ret]. fold (transferred evs). lia.
Qed.

(** X4: [iiod_discard_data] over a byte stream.  When the stream holds
    the bytes, the call returns 0 having skipped exactly [bytes] of them,
    by calls of [discard] alone whose results add up to [bytes], and
    memory is untouched.  When the stream ends before that, everything
    left is skipped and the call returns the transport's error. *)
Theorem iiod_discard_data_stream fuel (w : world stream) bytes :
  0 < chunk (w_tr w) < 2 ^ 63 ->
  0 <= bytes < 2 ^ 64 ->
  bytes <= Z.of_nat fuel ->
  (bytes <= Z.of_nat (length (inbox (w_tr w))) ->
   exists w' evs,
     iiod_discard_data stream stream_ops fuel w bytes = (Ret 0, w')
     /\ w_mem w' = w_mem w
     /\ inbox (w_tr w') = skipn (Z.to_nat bytes) (inbox (w_tr w))
     /\ w_log w' = w_log w ++ evs
     /\ Forall is_discard_event evs /\ transferred evs = bytes)
  /\ (Z.of_nat (length (inbox (w_tr w))) < bytes ->
      exists w',
        iiod_discard_data stream stream_ops fuel w bytes = (Ret (- EPIPE), w')
        /\ w_mem w' = w_mem w
        /\ inbox (w_tr w') = []
        /\ exists evs,
             w_log w'
             = w_log w ++ evs
                 ++ [Io_discard (bytes - Z.of_nat (length (inbox (w_tr w))))
                                (- EPIPE)]
             /\ Forall is_discard_event evs
             /\ transferred evs = Z.of_nat (length (inbox (w_tr w)))).
Proof.
  intros Hch Hb Hfuel. split.
  - intros Hin.
    destruct (stream_discard_all fuel w bytes)
      as (w' & evs & Hr & M1 & M2 & _ & _ & _ & M6 & M7 & M8); auto; try lia.
    exists w', evs. repeat split; assumption.
  - intros Hin.
    destruct (stream_discard_short fuel w bytes)
      as (w' & evs & Hr & M1 & M2 & _ & M4 & M5 & M6); auto; try lia.
    exists w'. repeat split; auto.
    exists evs. rewrite <- M6. repeat split; assumption.
Qed.

Lemma iiod_discard_data_stream_witness :
  (exists w' evs,
      iiod_discard_data stream stream_ops 8 (incoming print_frame 3) 5
      = (Ret 0, w')
      /\ w_mem w' = w_mem (incoming print_frame 3)
      /\ inbox (w_tr w') = skipn (Z.to_nat 5) (inbox (w_tr (incoming print_frame 3)))
      /\ w_log w' = w_log (incoming print_frame 3) ++ evs
      /\ Forall is_discard_event evs /\ transferred evs = 5)
  /\ (exists w',
         iiod_discard_data stream stream_ops 12 (incoming print_frame 3) 12
         = (Ret (- EPIPE), w')
         /\ w_mem w' = w_mem (incoming print_frame 3)
         /\ inbox (w_tr w') = []
         /\ exists evs,
              w_log w'
              = w_log (incoming print_frame 3) ++ evs
                  ++ [Io_discard
                        (12 - Z.of_nat (length (inbox (w_tr (incoming print_frame 3)))))
                        (- EPIPE)]
              /\ Forall is_discard_event evs
              /\ transferred evs
                 = Z.of_nat (length (inbox (w_tr (incoming print_frame 3))))).
Proof.
  split.
  - apply (proj1 (iiod_discard_data_stream 8 (incoming print_frame 3) 5
                    ltac:(cbn; lia) ltac:(lia) ltac:(lia))).
    cbn. lia.
  - apply (proj2 (iiod_discard_data_stream 12 (incoming print_frame 3) 12
                    ltac:(cbn; lia) ltac:(lia) ltac:(lia))).
    cbn. lia.
Defined.

(** The header of a response for a registered waiter: the reader thread
    reads it, finds the waiter, unlinks it with
    [__iiod_reader_cancel_unlocked] and goes on to the payload. *)
Lemma reader_thrd_iteration_response fuel st (w : world stream) cmd_ptr
    hdr rest l1 reader l2 :
  0 < chunk (w_tr w) < 2 ^ 63 ->
  inbox (w_tr w) = hdr ++ rest -> length hdr = 8%nat ->
  cmd_op (decode_cmd hdr) = IIOD_OP_RESPONSE ->
  waiters_list fuel st = Some (l1 ++ reader :: l2) ->
  Forall (fun p => client_id (heap st p) <> cmd_client_id (decode_cmd hdr))
         l1 ->
  client_id (heap st reader) = cmd_client_id (decode_cmd hdr) ->
  (8 < fuel)%nat ->
  exists w1 st1 evs,
    __iiod_reader_cancel_unlocked fuel st reader = Some st1
    /\ writers (priv st1) = writers (priv st)
    /\ (forall p, exists n, heap st1 p = set_r_next n (heap st p))
    /\ w_mem w1 = store_bytes (w_mem w) cmd_ptr hdr
    /\ inbox (w_tr w1) = rest
    /\ outbox (w_tr w1) = outbox (w_tr w)
    /\ chunk (w_tr w1) = chunk (w_tr w)
    /\ closed (w_tr w1) = closed (w_tr w)
    /\ w_log w1 = w_log w ++ evs /\ Forall is_read_event evs
    /\ reader_thrd_iteration stream stream_ops fuel cmd_ptr (st, w)
       = let code := cmd_code (decode_cmd hdr) in
         let st2 :=
           with_reader st1 reader
             (fun r => set_r_io (set_io_code (r_io r) code) r) in
         let rio := r_io (heap st2 reader) in
         obind (on_world stream st2
                  (reader_thrd_payload stream stream_ops fuel w1 rio code 8))
           (fun ret2 s3 =>
              let st3 := with_reader (fst s3) reader (set_r_done true) in
              let w3 :=
                match cleanup_cb rio with
                | Some cb =>
                    if negb (nb_buf rio =? 0)
                    then do_cleanup stream (snd s3) cb (cleanup_cb_d rio) ret2
                    else snd s3
                | None => snd s3
                end in
              (Ret (Continue, ret2), (st3, w3))).
Proof.
  intros Hch Hin Hlen Hop Hl Hall Hid Hfuel.
  destruct (stream_read_header fuel w cmd_ptr hdr rest Hch Hin Hlen Hfuel)
    as (w1 & evs & Hr & M1 & M2 & M3 & M4 & M5 & M6 & M7).
  destruct (reader_cancel_total fuel st reader _ Hl) as (st1 & Hc & Hw & Hf).
  exists w1, st1, evs. repeat (split; [assumption|]).
  assert (Hload : load_bytes (w_mem w1) cmd_ptr 8 = hdr).
  { rewrite M1, <- Hlen. apply load_store_bytes. }
  unfold reader_thrd_iteration. rewrite Hr.
  cbn [on_world obind snd fst].
  change (8 <=? 0) with false. cbv iota.
  rewrite Hload, Hop.
  change (negb (IIOD_OP_RESPONSE =? IIOD_OP_RESPONSE)) with false.
  cbv iota.
  unfold waiters_list in Hl.
  rewrite (find_reader_first l1 fuel st _ reader l2 _ Hl Hall Hid).
  rewrite Hc. reflexivity.
Qed.

(** A response that brings no payload to read, because the waiter gave
    no buffer or because the code is not positive. *)
Lemma reader_thrd_iteration_no_payload fuel st (w : world stream) cmd_ptr
    hdr rest l1 reader l2 :
  0 < chunk (w_tr w) < 2 ^ 63 ->
  inbox (w_tr w) = hdr ++ rest -> length hdr = 8%nat ->
  cmd_op (decode_cmd hdr) = IIOD_OP_RESPONSE ->
  waiters_list fuel st = Some (l1 ++ reader :: l2) ->
  Forall (fun p => client_id (heap st p) <> cmd_client_id (decode_cmd hdr))
         l1 ->
  client_id (heap st reader) = cmd_client_id (decode_cmd hdr) ->
  (8 < fuel)%nat ->
  buf (r_io (heap st reader)) = None \/ cmd_code (decode_cmd hdr) <= 0 ->
  exists w' st1,
    __iiod_reader_cancel_unlocked fuel st reader = Some st1
    /\ writers (priv st1) = writers (priv st)
    /\ (forall p, exists n, heap st1 p = set_r_next n (heap st p))
    /\ reader_thrd_iteration stream stream_ops fuel cmd_ptr (st, w)
       = (Ret (Continue, 8),
          (delivered st1 reader (cmd_code (decode_cmd hdr)), w'))
    /\ w_mem w' = store_bytes (w_mem w) cmd_ptr hdr
    /\ inbox (w_tr w') = rest
    /\ outbox (w_tr w') = outbox (w_tr w)
    /\ discarded (w_log w') = discarded (w_log w)
    /\ chunk (w_tr w') = chunk (w_tr w)
    /\ closed (w_tr w') = closed (w_tr w).
Proof.
  intros Hch Hin Hlen Hop Hl Hall Hid Hfuel Hnone.
  destruct (reader_thrd_iteration_response fuel st w cmd_ptr hdr rest l1
              reader l2 Hch Hin Hlen Hop Hl Hall Hid Hfuel)
    as (w1 & st1 & evs & Hc & Hw & Hf & M1 & M2 & M3 & M4 & M5 & M6 & M7 & Heq).
  rewrite Heq. cbv zeta.
  cbn [with_reader heap]. rewrite upd_same.
  set (code := cmd_code (decode_cmd hdr)) in *.
  set (rio := r_io (set_r_io (set_io_code (r_io (heap st1 reader)) code)
                             (heap st1 reader))).
  assert (Hpay : reader_thrd_payload stream stream_ops fuel w1 rio code 8
                 = (Ret 8, w1)).
  { unfold reader_thrd_payload.
    destruct Hnone as [Hb | Hneg].
    - assert (E : buf rio = None).
      { unfold rio. destruct (Hf reader) as [n Hn]. rewrite Hn.
        cbn [set_r_io set_r_next r_io set_io_code buf]. assumption. }
      rewrite E. reflexivity.
    - assert (E : (0 <? code) = false) by (apply Z.ltb_ge; lia).
      rewrite E. destruct (buf rio); reflexivity. }
  rewrite Hpay. cbn [on_world obind fst snd].
  eexists _, st1. split; [assumption|]. split; [assumption|].
  split; [assumption|]. split; [reflexivity|].
  assert (Hw3 : forall w3,
             w3 = match cleanup_cb rio with
                  | Some cb =>
                      if negb (nb_buf rio =? 0)
                      then do_cleanup stream w1 cb (cleanup_cb_d rio) 8
                      else w1
                  | None => w1
                  end ->
             w_tr w3 = w_tr w1 /\ w_mem w3 = w_mem w1
             /\ discarded (w_log w3) = discarded (w_log w1)).
  { intros w3 ->. destruct (cleanup_cb rio); [|repeat split; reflexivity].
    destruct (negb (nb_buf rio =? 0)); [|repeat split; reflexivity].
    cbn [do_cleanup w_tr w_mem w_log]. rewrite discarded_app.
    repeat split; cbn; lia. }
  destruct (Hw3 _ eq_refl) as (Ht & Hm & Hd). rewrite Ht, Hm, Hd.
  repeat split; auto.
  rewrite M6, discarded_app, (discarded_reads _ M7). lia.
Qed.

Lemma chain_ext next h h' : forall fuel p,
  (forall q, next (h' q) = next (h q)) ->
  chain next h' fuel p = chain next h fuel p.
Proof.
  induction fuel as [|fuel IH]; intros p H; destruct p as [q|];
    try reflexivity.
  cbn [chain]. rewrite H, IH by assumption. reflexivity.
Qed.

Lemma remove_middle (x : handle) l1 l2 :
  NoDup (l1 ++ x :: l2) -> remove Nat.eq_dec x (l1 ++ x :: l2) = l1 ++ l2.
Proof.
  intros Hnd. apply NoDup_remove_2 in Hnd.
  rewrite remove_app, remove_cons.
  rewrite !notin_remove; [reflexivity | |]; intros C; apply Hnd;
    apply in_or_app; auto.
Qed.

Lemma delivered_heap st reader code p :
  r_next (heap (delivered st reader code) p) = r_next (heap st p)
  /\ w_next (heap (delivered st reader code) p) = w_next (heap st p)
  /\ priv (delivered st reader code) = priv st
  /\ (p <> reader -> heap (delivered st reader code) p = heap st p).
Proof.
  unfold delivered. cbn [with_reader heap priv].
  destruct (Nat.eq_dec p reader) as [->|Hne].
  - rewrite !upd_same. cbn. repeat split; auto. intros C; contradiction.
  - rewrite !upd_other by assumption. repeat split; auto.
Qed.

Lemma delivered_wait st reader code :
  iiod_reader_wait_for_response (delivered st reader code) reader
  = Some (code,
          with_reader (delivered st reader code) reader (set_r_done false)).
Proof.
  unfold iiod_reader_wait_for_response, wait_for_response, delivered.
  cbn [with_reader heap]. rewrite !upd_same.
  cbn [set_r_done r_done]. f_equal. f_equal.
  cbn [with_reader heap]. rewrite !upd_same. reflexivity.
Qed.

(** X5: a response for a waiter that registered without a buffer.  The
    reader thread takes the 8 header bytes off the stream and nothing
    else, whatever the code: a positive code is handed over like any
    other, and the bytes behind the header stay on the stream, to be read
    as the next frame.  Nothing is discarded, nothing outside the
    thread's own [cmd] is written, and the waiter's
    [iiod_reader_wait_for_response] returns the code. *)
Theorem reader_thrd_code_only_response fuel st (w : world stream) cmd_ptr
    hdr rest l1 reader l2 :
  0 < chunk (w_tr w) < 2 ^ 63 ->
  inbox (w_tr w) = hdr ++ rest -> length hdr = 8%nat ->
  cmd_op (decode_cmd hdr) = IIOD_OP_RESPONSE ->
  waiters_list fuel st = Some (l1 ++ reader :: l2) ->
  Forall (fun p => client_id (heap st p) <> cmd_client_id (decode_cmd hdr))
         l1 ->
  client_id (heap st reader) = cmd_client_id (decode_cmd hdr) ->
  buf (r_io (heap st reader)) = None ->
  (8 < fuel)%nat ->
  exists st' w',
    reader_thrd_iteration stream stream_ops fuel cmd_ptr (st, w)
    = (Ret (Continue, 8), (st', w'))
    /\ inbox (w_tr w') = rest
    /\ discarded (w_log w') = discarded (w_log w)
    /\ (forall a, ~ (cmd_ptr <= a < cmd_ptr + 8) -> w_mem w' a = w_mem w a)
    /\ exists st'',
         iiod_reader_wait_for_response st' reader
         = Some (cmd_code (decode_cmd hdr), st'').
Proof.
  intros Hch Hin Hlen Hop Hl Hall Hid Hbuf Hfuel.
  destruct (reader_thrd_iteration_no_payload fuel st w cmd_ptr hdr rest l1
              reader l2 Hch Hin Hlen Hop Hl Hall Hid Hfuel (or_introl Hbuf))
    as (w' & st1 & _ & _ & _ & Heq & M1 & M2 & _ & M4 & _).
  exists (delivered st1 reader (cmd_code (decode_cmd hdr))), w'.
  split; [assumption|]. split; [assumption|]. split; [assumption|].
  split.
  - intros a Ha. rewrite M1. apply store_bytes_outside. lia.
  - eexists. apply delivered_wait.
Qed.

(** X6: what a response does to the waiters list (shown for responses
    without payload to read).  The matched handle, the first on the list
    with the response's client id, gets [r_done]; no other handle is
    woken or written to, and the writers queue is as before.  If the
    handle was not the head of the list it is unlinked and the others
    stay in order; if it was the head, the list is left empty, so that
    the waiters queued behind it are dropped with it. *)
Theorem reader_thrd_response_unlinks fuel st (w : world stream) cmd_ptr
    hdr rest l1 reader l2 :
  0 < chunk (w_tr w) < 2 ^ 63 ->
  inbox (w_tr w) = hdr ++ rest -> length hdr = 8%nat ->
  cmd_op (decode_cmd hdr) = IIOD_OP_RESPONSE ->
  waiters_list fuel st = Some (l1 ++ reader :: l2) ->
  NoDup (l1 ++ reader :: l2) ->
  Forall (fun p => client_id (heap st p) <> cmd_client_id (decode_cmd hdr))
         l1 ->
  client_id (heap st reader) = cmd_client_id (decode_cmd hdr) ->
  buf (r_io (heap st reader)) = None \/ cmd_code (decode_cmd hdr) <= 0 ->
  (8 < fuel)%nat ->
  exists st' w',
    reader_thrd_iteration stream stream_ops fuel cmd_ptr (st, w)
    = (Ret (Continue, 8), (st', w'))
    /\ r_done (heap st' reader) = true
    /\ (forall p, p <> reader ->
                  r_done (heap st' p) = r_done (heap st p)
                  /\ r_io (heap st' p) = r_io (heap st p))
    /\ writers_queue fuel st' = writers_queue fuel st
    /\ waiters_list fuel st'
       = Some (match l1 with
               | [] => []
               | _ :: _ => l1 ++ l2
               end).
Proof.
  intros Hch Hin Hlen Hop Hl Hnd Hall Hid Hnone Hfuel.
  destruct (reader_thrd_iteration_no_payload fuel st w cmd_ptr hdr rest l1
              reader l2 Hch Hin Hlen Hop Hl Hall Hid Hfuel Hnone)
    as (w' & st1 & Hc & Hw & Hf & Heq & _).
  set (code := cmd_code (decode_cmd hdr)) in *.
  exists (delivered st1 reader code), w'.
  split; [assumption|].
  split.
  { unfold delivered. cbn [with_reader heap]. rewrite !upd_same. reflexivity. }
  split.
  { intros p Hp.
    destruct (delivered_heap st1 reader code p) as (_ & _ & _ & Hh).
    rewrite (Hh Hp). destruct (Hf p) as [n Hn]. rewrite Hn.
    split; reflexivity. }
  split.
  { unfold writers_queue.
    destruct (delivered_heap st1 reader code reader) as (_ & _ & Hp & _).
    rewrite Hp, Hw. apply chain_ext. intros q.
    destruct (delivered_heap st1 reader code q) as (_ & Hq & _).
    rewrite Hq. destruct (Hf q) as [n Hn]. rewrite Hn. reflexivity. }
  assert (Hsame : waiters_list fuel (delivered st1 reader code)
                  = waiters_list fuel st1).
  { unfold waiters_list.
    destruct (delivered_heap st1 reader code reader) as (_ & _ & Hp & _).
    rewrite Hp. apply chain_ext. intros q.
    destruct (delivered_heap st1 reader code q) as (Hq & _). exact Hq. }
  rewrite Hsame.
  destruct l1 as [|x l1'].
  - cbn [app] in Hl. unfold waiters_list in Hl.
    apply chain_cons in Hl. destruct Hl as [Hhead _].
    unfold __iiod_reader_cancel_unlocked in Hc. rewrite Hhead in Hc.
    rewrite Nat.eqb_refl in Hc. inversion Hc; subst st1.
    unfold waiters_list. cbn [with_priv priv set_readers readers].
    apply chain_none.
  - assert (Hhead : readers (priv st) <> Some reader).
    { unfold waiters_list in Hl. cbn [app] in Hl.
      apply chain_cons in Hl. destruct Hl as [Hhead _]. rewrite Hhead.
      intros C. inversion C; subst x.
      cbn [app] in Hnd. inversion Hnd as [|x' l' Hx _]; subst.
      apply Hx. apply in_or_app. right. left. reflexivity. }
    destruct (reader_cancel_not_head fuel st reader _ Hl Hnd Hhead)
      as (st1' & Hc' & Hl' & _).
    rewrite Hc in Hc'. inversion Hc'; subst st1'.
    rewrite Hl', remove_middle by assumption. reflexivity.
Qed.

Lemma reader_thrd_code_only_response_witness :
  exists st' w',
    reader_thrd_iteration stream stream_ops 9 cmd_addr
      (one_waiting None 0,
       incoming (oversize_header ++ oversize_payload ++ print_frame) 3)
    = (Ret (Continue, 8), (st', w'))
    /\ inbox (w_tr w') = oversize_payload ++ print_frame
    /\ discarded (w_log w')
       = discarded
           (w_log (incoming (oversize_header ++ oversize_payload ++ print_frame)
                            3))
    /\ (forall a, ~ (cmd_addr <= a < cmd_addr + 8) ->
          w_mem w' a
          = w_mem (incoming (oversize_header ++ oversize_payload ++ print_frame)
                            3) a)
    /\ exists st'',
         iiod_reader_wait_for_response st' 1%nat
         = Some (cmd_code (decode_cmd oversize_header), st'').
Proof.
  apply (reader_thrd_code_only_response 9 (one_waiting None 0)
           (incoming (oversize_header ++ oversize_payload ++ print_frame) 3)
           cmd_addr oversize_header (oversize_payload ++ print_frame)
           [] 1%nat []).
  - cbn. lia.
  - reflexivity.
  - reflexivity.
  - reflexivity.
  - vm_compute. reflexivity.
  - constructor.
  - reflexivity.
  - reflexivity.
  - lia.
Defined.

Lemma reader_thrd_response_unlinks_witness :
  (exists st' w',
      reader_thrd_iteration stream stream_ops 9 cmd_addr
        (three_waiting, incoming (response_frame 42 0) 3)
      = (Ret (Continue, 8), (st', w'))
      /\ r_done (heap st' 2%nat) = true
      /\ (forall p, p <> 2%nat ->
                    r_done (heap st' p) = r_done (heap three_waiting p)
                    /\ r_io (heap st' p) = r_io (heap three_waiting p))
      /\ writers_queue 9 st' = writers_queue 9 three_waiting
      /\ waiters_list 9 st' = Some [1%nat; 3%nat])
  /\ (exists st' w',
         reader_thrd_iteration stream stream_ops 9 cmd_addr
           (three_waiting, incoming (response_frame 41 0) 3)
         = (Ret (Continue, 8), (st', w'))
         /\ r_done (heap st' 1%nat) = true
         /\ (forall p, p <> 1%nat ->
                       r_done (heap st' p) = r_done (heap three_waiting p)
                       /\ r_io (heap st' p) = r_io (heap three_waiting p))
         /\ writers_queue 9 st' = writers_queue 9 three_waiting
         /\ waiters_list 9 st' = Some []).
Proof.
  split.
  - apply (reader_thrd_response_unlinks 9 three_waiting
             (incoming (response_frame 42 0) 3) cmd_addr
             (response_frame 42 0) [] [1%nat] 2%nat [3%nat]).
    + cbn. lia.
    + reflexivity.
    + reflexivity.
    + reflexivity.
    + vm_compute. reflexivity.
    + repeat constructor; cbn; intuition lia.
    + repeat constructor. vm_compute. discriminate.
    + reflexivity.
    + left. reflexivity.
    + lia.
  - apply (reader_thrd_response_unlinks 9 three_waiting
             (incoming (response_frame 41 0) 3) cmd_addr
             (response_frame 41 0) [] [] 1%nat [2%nat; 3%nat]).
    + cbn. lia.
    + reflexivity.
    + reflexivity.
    + reflexivity.
    + vm_compute. reflexivity.
    + repeat constructor; cbn; intuition lia.
    + constructor.
    + reflexivity.
    + left. reflexivity.
    + lia.
Defined.

(** A response whose payload fits the first descriptor of the waiter's
    buffer list. *)
Lemma reader_thrd_iteration_fitting fuel st (w : world stream) cmd_ptr
    hdr payload rest l1 reader l2 c l nb :
  0 < chunk (w_tr w) < 2 ^ 63 ->
  inbox (w_tr w) = hdr ++ payload ++ rest -> length hdr = 8%nat ->
  cmd_op (decode_cmd hdr) = IIOD_OP_RESPONSE ->
  Z.of_nat (length payload) = cmd_code (decode_cmd hdr) ->
  waiters_list fuel st = Some (l1 ++ reader :: l2) ->
  Forall (fun p => client_id (heap st p) <> cmd_client_id (decode_cmd hdr))
         l1 ->
  client_id (heap st reader) = cmd_client_id (decode_cmd hdr) ->
  buf (r_io (heap st reader)) = Some (c :: l) ->
  nb_buf (r_io (heap st reader)) = nb ->
  1 <= nb <= 32 -> nb <= Z.of_nat (length (c :: l)) ->
  sizes_pos (firstn (Z.to_nat nb) (c :: l)) ->
  0 < cmd_code (decode_cmd hdr) <= size c ->
  (8 < fuel)%nat -> cmd_code (decode_cmd hdr) < Z.of_nat fuel ->
  exists st1 w',
    __iiod_reader_cancel_unlocked fuel st reader = Some st1
    /\ writers (priv st1) = writers (priv st)
    /\ (forall p, exists n, heap st1 p = set_r_next n (heap st p))
    /\ reader_thrd_iteration stream stream_ops fuel cmd_ptr (st, w)
       = (Ret (Continue, cmd_code (decode_cmd hdr)),
          (delivered st1 reader (cmd_code (decode_cmd hdr)), w'))
    /\ w_mem w'
       = store_bytes (store_bytes (w_mem w) cmd_ptr hdr) (ptr c) payload
    /\ discarded (w_log w') = discarded (w_log w)
    /\ inbox (w_tr w') = rest
    /\ outbox (w_tr w') = outbox (w_tr w).
Proof.
  intros Hch Hin Hlen Hop Hpl Hl Hall Hid Hbuf Hnb Hrange Hnbl Hpos Hfit
         Hfuel Hfuel'.
  destruct (reader_thrd_iteration_response fuel st w cmd_ptr hdr
              (payload ++ rest) l1 reader l2 Hch Hin Hlen Hop Hl Hall Hid
              Hfuel)
    as (w1 & st1 & evs & Hc & Hw & Hf & M1 & M2 & M3 & M4 & M5 & M6 & M7
        & Heq).
  rewrite Heq. cbv zeta.
  cbn [with_reader heap]. rewrite upd_same.
  set (code := cmd_code (decode_cmd hdr)) in *.
  set (rio := r_io (set_r_io (set_io_code (r_io (heap st1 reader)) code)
                             (heap st1 reader))).
  assert (Hrio : buf rio = Some (c :: l) /\ nb_buf rio = nb).
  { unfold rio. destruct (Hf reader) as [n Hn]. rewrite Hn.
    cbn [set_r_io set_r_next r_io set_io_code buf nb_buf]. split; assumption. }
  destruct Hrio as [Hb Hn].
  assert (Hc64 : size c < 2 ^ 64).
  { rewrite firstn_Z_cons in Hpos by lia.
    inversion Hpos as [|c'' l'' Hc' _]; subst. lia. }
  destruct (iiod_rw_all_read_fits fuel w1 c l nb code payload rest)
    as (w2 & Hr & P1 & P2 & P3 & P4 & P5 & (evp & P6 & P7));
    auto; try lia.
  assert (Hpay : reader_thrd_payload stream stream_ops fuel w1 rio code 8
                 = (Ret code, w2)).
  { unfold reader_thrd_payload. rewrite Hb, Hn.
    assert (E : (0 <? code) = true) by (apply Z.ltb_lt; lia). rewrite E.
    rewrite (to_size_t_small code) by lia. rewrite Hr. cbn [obind].
    rewrite (to_size_t_small code) by lia.
    rewrite Z.ltb_irrefl, andb_false_r. reflexivity. }
  rewrite Hpay. cbn [on_world obind fst snd].
  eexists st1, _. split; [assumption|]. split; [assumption|].
  split; [assumption|]. split; [reflexivity|].
  assert (Hw3 : forall w3,
             w3 = match cleanup_cb rio with
                  | Some cb =>
                      if negb (nb_buf rio =? 0)
                      then do_cleanup stream w2 cb (cleanup_cb_d rio) code
                      else w2
                  | None => w2
                  end ->
             w_tr w3 = w_tr w2 /\ w_mem w3 = w_mem w2
             /\ discarded (w_log w3) = discarded (w_log w2)).
  { intros w3 ->. destruct (cleanup_cb rio); [|repeat split; reflexivity].
    destruct (negb (nb_buf rio =? 0)); [|repeat split; reflexivity].
    cbn [do_cleanup w_tr w_mem w_log]. rewrite discarded_app.
    repeat split; cbn; lia. }
  destruct (Hw3 _ eq_refl) as (Ht & Hm & Hd). rewrite Ht, Hm, Hd.
  split; [rewrite P1, M1; reflexivity|].
  split.
  { rewrite P6, discarded_app, (discarded_reads _ P7).
    rewrite M6, discarded_app, (discarded_reads _ M7). lia. }
  split; [assumption|]. congruence.
Qed.

(** X7: a response whose payload fits the first descriptor of the
    waiter's buffer list.  The reader thread stores exactly the [code]
    payload bytes at the start of that descriptor, however the stream
    chops them up, discards nothing, leaves the stream at the next frame,
    and the waiter's [iiod_reader_wait_for_response] returns the code. *)
Theorem reader_thrd_fitting_response fuel st (w : world stream) cmd_ptr
    hdr payload rest l1 reader l2 c l nb :
  0 < chunk (w_tr w) < 2 ^ 63 ->
  inbox (w_tr w) = hdr ++ payload ++ rest -> length hdr = 8%nat ->
  cmd_op (decode_cmd hdr) = IIOD_OP_RESPONSE ->
  Z.of_nat (length payload) = cmd_code (decode_cmd hdr) ->
  waiters_list fuel st = Some (l1 ++ reader :: l2) ->
  Forall (fun p => client_id (heap st p) <> cmd_client_id (decode_cmd hdr))
         l1 ->
  client_id (heap st reader) = cmd_client_id (decode_cmd hdr) ->
  buf (r_io (heap st reader)) = Some (c :: l) ->
  nb_buf (r_io (heap st reader)) = nb ->
  1 <= nb <= 32 -> nb <= Z.of_nat (length (c :: l)) ->
  sizes_pos (firstn (Z.to_nat nb) (c :: l)) ->
  0 < cmd_code (decode_cmd hdr) <= size c ->
  (8 < fuel)%nat -> cmd_code (decode_cmd hdr) < Z.of_nat fuel ->
  exists st' w',
    reader_thrd_iteration stream stream_ops fuel cmd_ptr (st, w)
    = (Ret (Continue, cmd_code (decode_cmd hdr)), (st', w'))
    /\ w_mem w'
       = store_bytes (store_bytes (w_mem w) cmd_ptr hdr) (ptr c) payload
    /\ discarded (w_log w') = discarded (w_log w)
    /\ inbox (w_tr w') = rest
    /\ exists st'',
         iiod_reader_wait_for_response st' reader
         = Some (cmd_code (decode_cmd hdr), st'').
Proof.
  intros Hch Hin Hlen Hop Hpl Hl Hall Hid Hbuf Hnb Hrange Hnbl Hpos Hfit
         Hfuel Hfuel'.
  destruct (reader_thrd_iteration_fitting fuel st w cmd_ptr hdr payload rest
              l1 reader l2 c l nb Hch Hin Hlen Hop Hpl Hl Hall Hid Hbuf Hnb
              Hrange Hnbl Hpos Hfit Hfuel Hfuel')
    as (st1 & w' & _ & _ & _ & Heq & M1 & M2 & M3 & _).
  exists (delivered st1 reader (cmd_code (decode_cmd hdr))), w'.
  repeat (split; [assumption|]).
  eexists. apply delivered_wait.
Qed.

Lemma reader_thrd_fitting_response_witness :
  exists st' w',
    reader_thrd_iteration stream stream_ops 9 cmd_addr
      (one_waiting (Some [{| ptr := 2000; size := 8 |}]) 1,
       incoming (response_frame 42 5 ++ repeat x41 5 ++ print_frame) 3)
    = (Ret (Continue, cmd_code (decode_cmd (response_frame 42 5))), (st', w'))
    /\ w_mem w'
       = store_bytes
           (store_bytes
              (w_mem (incoming (response_frame 42 5 ++ repeat x41 5
                                  ++ print_frame) 3))
              cmd_addr (response_frame 42 5))
           2000 (repeat x41 5)
    /\ discarded (w_log w')
       = discarded
           (w_log (incoming (response_frame 42 5 ++ repeat x41 5 ++ print_frame)
                            3))
    /\ inbox (w_tr w') = print_frame
    /\ exists st'',
         iiod_reader_wait_for_response st' 1%nat
         = Some (cmd_code (decode_cmd (response_frame 42 5)), st'').
Proof.
  apply (reader_thrd_fitting_response 9
           (one_waiting (Some [{| ptr := 2000; size := 8 |}]) 1)
           (incoming (response_frame 42 5 ++ repeat x41 5 ++ print_frame) 3)
           cmd_addr (response_frame 42 5) (repeat x41 5) print_frame
           [] 1%nat [] {| ptr := 2000; size := 8 |} [] 1).
  - cbn. lia.
  - reflexivity.
  - reflexivity.
  - reflexivity.
  - reflexivity.
  - vm_compute. reflexivity.
  - constructor.
  - reflexivity.
  - reflexivity.
  - reflexivity.
  - lia.
  - cbn. lia.
  - repeat constructor; cbn; lia.
  - vm_compute. split; [reflexivity | discriminate].
  - lia.
  - vm_compute. reflexivity.
Defined.

(** X8: a response for which no handle waits, with a code that is not
    negative.  The reader thread skips the [code] payload bytes, touches
    no handle and neither list, and goes on with the frame behind the
    payload. *)
Theorem reader_thrd_orphan_response fuel st (w : world stream) cmd_ptr
    hdr payload rest l :
  0 < chunk (w_tr w) < 2 ^ 63 ->
  inbox (w_tr w) = hdr ++ payload ++ rest -> length hdr = 8%nat ->
  cmd_op (decode_cmd hdr) = IIOD_OP_RESPONSE ->
  0 <= cmd_code (decode_cmd hdr) ->
  Z.of_nat (length payload) = cmd_code (decode_cmd hdr) ->
  waiters_list fuel st = Some l ->
  Forall (fun p => client_id (heap st p) <> cmd_client_id (decode_cmd hdr)) l ->
  (8 < fuel)%nat -> cmd_code (decode_cmd hdr) <= Z.of_nat fuel ->
  exists w',
    reader_thrd_iteration stream stream_ops fuel cmd_ptr (st, w)
    = (Ret (Continue, 8), (st, w'))
    /\ inbox (w_tr w') = rest
    /\ discarded (w_log w') = discarded (w_log w) + cmd_code (decode_cmd hdr)
    /\ w_mem w' = store_bytes (w_mem w) cmd_ptr hdr.
Proof.
  intros. eapply reader_thrd_orphan_discards; eassumption.
Qed.

Lemma reader_thrd_orphan_response_witness :
  exists w',
    reader_thrd_iteration stream stream_ops 9 cmd_addr
      (three_waiting,
       incoming (response_frame 999 5 ++ repeat x41 5 ++ print_frame) 3)
    = (Ret (Continue, 8), (three_waiting, w'))
    /\ inbox (w_tr w') = print_frame
    /\ discarded (w_log w')
       = discarded
           (w_log (incoming (response_frame 999 5 ++ repeat x41 5
                               ++ print_frame) 3))
         + cmd_code (decode_cmd (response_frame 999 5))
    /\ w_mem w'
       = store_bytes
           (w_mem (incoming (response_frame 999 5 ++ repeat x41 5
                               ++ print_frame) 3))
           cmd_addr (response_frame 999 5).
Proof.
  apply (reader_thrd_orphan_response 9 three_waiting
           (incoming (response_frame 999 5 ++ repeat x41 5 ++ print_frame) 3)
           cmd_addr (response_frame 999 5) (repeat x41 5) print_frame
           [1%nat; 2%nat; 3%nat]).
  - cbn. lia.
  - reflexivity.
  - reflexivity.
  - reflexivity.
  - vm_compute. discriminate.
  - reflexivity.
  - reflexivity.
  - repeat constructor; vm_compute; discriminate.
  - lia.
  - vm_compute. discriminate.
Defined.

(** X9: the peer closes the stream, at a frame boundary or inside a
    header.  The reader thread returns 0 and marks the responder as
    stopped; it changes nothing else in the responder, so that no handle
    on the waiters list is woken. *)
Theorem iiod_responder_reader_thrd_peer_closed fuel st (w : world stream)
    cmd_ptr :
  thrd_stop (priv st) = false ->
  0 < chunk (w_tr w) < 2 ^ 63 ->
  (length (inbox (w_tr w)) < 8)%nat ->
  (8 <= fuel)%nat ->
  exists w',
    iiod_responder_reader_thrd stream stream_ops fuel cmd_ptr (st, w)
    = (Ret 0, (with_priv st (set_thrd_stop true), w'))
    /\ inbox (w_tr w') = []
    /\ outbox (w_tr w') = outbox (w_tr w)
    /\ w_mem w' = store_bytes (w_mem w) cmd_ptr (inbox (w_tr w)).
Proof.
  intros Hstop Hch Hin Hfuel.
  destruct fuel as [|fuel]; [lia|].
  destruct (stream_read_loop_short sizeof_cmd (S fuel) w
              [{| ptr := cmd_ptr; size := sizeof_cmd |}] 1 0)
    as (w' & Hr & M1 & M2 & M3 & _); auto;
    try (change (Z.to_nat 1) with 1%nat; cbn [firstn capacity length size];
         unfold sizeof_cmd; lia).
  { constructor; [cbn [size]; unfold sizeof_cmd; lia | constructor]. }
  exists w'. split.
  - unfold iiod_responder_reader_thrd. cbn [reader_thrd_loop fst].
    rewrite Hstop. unfold reader_thrd_iteration.
    unfold iiod_rw_all. cbn [Z.eqb orb].
    change (ARRAY_SIZE_bufs <? 1) with false. cbv iota.
    change (Z.to_nat 1) with 1%nat. cbn [firstn].
    rewrite Hr. cbn [on_world obind fst snd].
    change (0 <=? 0) with true. cbv iota. cbn [obind fst snd].
    reflexivity.
  - split; [assumption|]. split; [assumption|].
    rewrite M1. change (Z.to_nat 1) with 1%nat. cbn [firstn].
    apply scatter_one. cbn [size]. unfold sizeof_cmd. lia.
Qed.

Lemma iiod_responder_reader_thrd_peer_closed_witness :
  exists w',
    iiod_responder_reader_thrd stream stream_ops 8 cmd_addr
      (three_waiting, incoming truncated_header 2)
    = (Ret 0, (with_priv three_waiting (set_thrd_stop true), w'))
    /\ inbox (w_tr w') = []
    /\ outbox (w_tr w') = outbox (w_tr (incoming truncated_header 2))
    /\ w_mem w'
       = store_bytes (w_mem (incoming truncated_header 2)) cmd_addr
                     (inbox (w_tr (incoming truncated_header 2))).
Proof.
  apply (iiod_responder_reader_thrd_peer_closed 8 three_waiting
           (incoming truncated_header 2) cmd_addr).
  - reflexivity.
  - cbn. lia.
  - cbn. lia.
  - lia.
Defined.

(** The transfer loop uses the [read] and [write] callbacks only. *)
Lemma rw_loop_handler handler bytes is_read :
  forall fuel (w : world stream) curr nb count,
    rw_loop stream (stream_ops_with handler) fuel bytes is_read w curr nb count
    = rw_loop stream stream_ops fuel bytes is_read w curr nb count.
Proof.
  induction fuel as [|fuel IH]; intros w curr nb count; [reflexivity|].
  destruct curr as [|c rest]; [reflexivity|].
  rewrite !rw_loop_step. cbv zeta.
  destruct (Z.of_nat (length _) <? _); [reflexivity|].
  change (do_read stream (stream_ops_with handler))
    with (do_read stream stream_ops).
  change (do_write stream (stream_ops_with handler))
    with (do_write stream stream_ops).
  destruct (if is_read then _ else _) as [ret w1].
  destruct (ret <=? 0); [reflexivity|].
  destruct (rw_advance _ _ _ _) as [[[[ret2 count2] nb2] curr2]|];
    [|reflexivity].
  destruct ((ret2 =? 0) && (nb2 =? 0)); [reflexivity|].
  destruct curr2 as [|c2 rest2]; [reflexivity|]. apply IH.
Qed.

(** X10: a frame that is not a response.  The reader thread hands the
    decoded header to the [cmd] callback once, with the header in its
    [cmd] and the stream right behind the header; the thread itself
    changes no handle and neither list (the handler, as embedded here,
    acts on the stream and on memory).  A result that is not negative
    lets the loop go on; a negative one ends it, and the thread then
    returns that result and marks the responder as stopped. *)
Theorem reader_thrd_command_dispatch handler fuel st (w : world stream)
    cmd_ptr hdr rest r t m :
  0 < chunk (w_tr w) < 2 ^ 63 ->
  inbox (w_tr w) = hdr ++ rest -> length hdr = 8%nat ->
  cmd_op (decode_cmd hdr) <> IIOD_OP_RESPONSE ->
  handler (decode_cmd hdr)
          {| inbox := rest; outbox := outbox (w_tr w);
             chunk := chunk (w_tr w); closed := closed (w_tr w) |}
          (store_bytes (w_mem w) cmd_ptr hdr)
  = (r, t, m) ->
  (8 < fuel)%nat ->
  exists evs,
    Forall is_read_event evs
    /\ reader_thrd_iteration stream (stream_ops_with handler) fuel cmd_ptr
         (st, w)
       = (Ret (if r <? 0 then Break else Continue, r),
          (st, {| w_mem := m; w_tr := t;
                  w_log := w_log w ++ evs ++ [Io_cmd (decode_cmd hdr) r] |}))
    /\ (thrd_stop (priv st) = false -> r < 0 ->
        iiod_responder_reader_thrd stream (stream_ops_with handler) fuel
          cmd_ptr (st, w)
        = (Ret (to_int32 r),
           (with_priv st (set_thrd_stop true),
            {| w_mem := m; w_tr := t;
               w_log := w_log w ++ evs ++ [Io_cmd (decode_cmd hdr) r] |}))).
Proof.
  intros Hch Hin Hlen Hop Hh Hfuel.
  destruct (stream_read_header fuel w cmd_ptr hdr rest Hch Hin Hlen Hfuel)
    as (w1 & evs & Hr & M1 & M2 & M3 & M4 & M5 & M6 & M7).
  assert (Hrd : iiod_rw_all stream (stream_ops_with handler) fuel w None
                  (Some [{| ptr := cmd_ptr; size := sizeof_cmd |}]) 1
                  sizeof_cmd true = (Ret 8, w1)).
  { rewrite <- Hr. unfold iiod_rw_all.
    destruct ((1 =? 0) || (ARRAY_SIZE_bufs <? 1)); [reflexivity|].
    apply rw_loop_handler. }
  assert (Ht : w_tr w1 = {| inbox := rest; outbox := outbox (w_tr w);
                            chunk := chunk (w_tr w);
                            closed := closed (w_tr w) |}).
  { destruct (w_tr w1) as [i o k cl].
    cbn [inbox outbox chunk closed] in M2, M3, M4, M5.
    rewrite M2, M3, M4, M5. reflexivity. }
  assert (Hload : load_bytes (w_mem w1) cmd_ptr 8 = hdr).
  { rewrite M1, <- Hlen. apply load_store_bytes. }
  assert (Hit : reader_thrd_iteration stream (stream_ops_with handler) fuel
                  cmd_ptr (st, w)
                = (Ret (if r <? 0 then Break else Continue, r),
                   (st, {| w_mem := m; w_tr := t;
                           w_log := w_log w ++ evs
                                      ++ [Io_cmd (decode_cmd hdr) r] |}))).
  { unfold reader_thrd_iteration. rewrite Hrd.
    cbn [on_world obind snd fst].
    change (8 <=? 0) with false. cbv iota.
    rewrite Hload.
    assert (E : negb (cmd_op (decode_cmd hdr) =? IIOD_OP_RESPONSE) = true).
    { apply negb_true_iff. apply Z.eqb_neq. assumption. }
    rewrite E. unfold do_cmd. cbn [op_cmd stream_ops_with].
    rewrite Ht, M1, Hh, M6, <- app_assoc.
    destruct (r <? 0); reflexivity. }
  exists evs. split; [assumption|]. split; [exact Hit|].
  intros Hstop Hneg.
  destruct fuel as [|fuel]; [lia|].
  unfold iiod_responder_reader_thrd. cbn [reader_thrd_loop fst].
  rewrite Hstop, Hit. cbn [obind fst snd].
  assert (E : (r <? 0) = true) by (apply Z.ltb_lt; assumption).
  rewrite E. cbn [obind fst snd]. reflexivity.
Qed.

Lemma reader_thrd_command_dispatch_witness :
  exists evs,
    Forall is_read_event evs
    /\ reader_thrd_iteration stream (stream_ops_with print_only) 9 cmd_addr
         (three_waiting, incoming (encode_cmd version_cmd ++ print_frame) 3)
       = (Ret (Break, - EINVAL),
          (three_waiting,
           {| w_mem := store_bytes mem_init cmd_addr (encode_cmd version_cmd);
              w_tr := {| inbox := print_frame; outbox := []; chunk := 3;
                         closed := false |};
              w_log := [] ++ evs
                          ++ [Io_cmd (decode_cmd (encode_cmd version_cmd))
                                     (- EINVAL)] |}))
    /\ (thrd_stop (priv three_waiting) = false -> - EINVAL < 0 ->
        iiod_responder_reader_thrd stream (stream_ops_with print_only) 9
          cmd_addr
          (three_waiting, incoming (encode_cmd version_cmd ++ print_frame) 3)
        = (Ret (to_int32 (- EINVAL)),
           (with_priv three_waiting (set_thrd_stop true),
            {| w_mem := store_bytes mem_init cmd_addr (encode_cmd version_cmd);
               w_tr := {| inbox := print_frame; outbox := []; chunk := 3;
                          closed := false |};
               w_log := [] ++ evs
                           ++ [Io_cmd (decode_cmd (encode_cmd version_cmd))
                                      (- EINVAL)] |}))).
Proof.
  apply (reader_thrd_command_dispatch print_only 9 three_waiting
           (incoming (encode_cmd version_cmd ++ print_frame) 3) cmd_addr
           (encode_cmd version_cmd) print_frame (- EINVAL)
           {| inbox := print_frame; outbox := []; chunk := 3; closed := false |}
           (store_bytes mem_init cmd_addr (encode_cmd version_cmd))).
  - cbn. lia.
  - reflexivity.
  - reflexivity.
  - vm_compute. discriminate.
  - reflexivity.
  - lia.
Defined.

(** Writing a list of descriptors, none of them empty, to an open
    stream: the loop returns their total size. *)
Lemma stream_write_loop_pos bytes :
  forall fuel (w : world stream) curr nb count,
    closed (w_tr w) = false -> 0 < chunk (w_tr w) < 2 ^ 63 ->
    sizes_pos curr ->
    1 <= nb <= Z.of_nat (length curr) -> nb < 2 ^ 64 ->
    capacity (firstn (Z.to_nat nb) curr) < Z.of_nat fuel ->
    exists w',
      rw_loop stream stream_ops fuel bytes false w curr nb count
      = (Ret (count + capacity (firstn (Z.to_nat nb) curr)), w')
      /\ w_mem w' = w_mem w
      /\ outbox (w_tr w')
         = outbox (w_tr w) ++ gather (w_mem w) (firstn (Z.to_nat nb) curr)
      /\ inbox (w_tr w') = inbox (w_tr w)
      /\ chunk (w_tr w') = chunk (w_tr w)
      /\ closed (w_tr w') = false.
Proof.
  induction fuel as [|fuel IH];
    intros w curr nb count Hcl Hch Hpos Hnb Hnb64 Hcap.
  - pose proof (sizes_pos_capacity curr nb Hpos Hnb). lia.
  - destruct curr as [|c rest]; [cbn [length] in Hnb; lia|].
    pose proof (sizes_pos_ok _ Hpos) as Hok.
    pose proof (sizes_pos_capacity _ nb Hpos Hnb) as Hcap0.
    set (bufs := firstn (Z.to_nat nb) (c :: rest)) in *.
    assert (Hbufs : sizes_ok bufs) by (apply sizes_ok_firstn; assumption).
    pose proof (gather_length (w_mem w) bufs Hbufs) as Hlen.
    assert (Hq : quota (w_tr w) = chunk (w_tr w))
      by (unfold quota, SSIZE_MAX; lia).
    set (k := Z.to_nat (Z.min (chunk (w_tr w)) (capacity bufs))).
    set (w1 := {| w_mem := w_mem w;
                  w_tr := {| inbox := inbox (w_tr w);
                             outbox := outbox (w_tr w)
                                       ++ firstn k (gather (w_mem w) bufs);
                             chunk := chunk (w_tr w);
                             closed := false |};
                  w_log := w_log w ++ [Io_write bufs (Z.of_nat k)] |}).
    assert (Hio : do_write stream stream_ops w bufs = (Z.of_nat k, w1)).
    { unfold do_write. cbn [op_write stream_ops]. unfold stream_write.
      rewrite Hcl, Hq. reflexivity. }
    assert (Hk : 0 < Z.of_nat k <= capacity bufs /\ Z.of_nat k < 2 ^ 63)
      by (unfold k; lia).
    destruct (rw_loop_iteration stream stream_ops fuel bytes false w c rest
                nb count (Z.of_nat k) w1)
      as [[Hr Hall] | (curr' & nb' & Hr & H1 & H2 & H3 & H4 & H5 & _ & H7)];
      auto; try (fold bufs; lia); try discriminate.
    + exists w1. fold bufs in Hall. rewrite <- Hall. split; [exact Hr|].
      cbn [w_mem w_tr w1 inbox outbox chunk closed].
      repeat split; auto.
      rewrite firstn_all2 by lia. reflexivity.
    + fold bufs in H4, H5.
      destruct (IH w1 curr' nb' (count + Z.of_nat k))
        as (w' & Hr' & M1 & M2 & M3 & M4 & M5); auto; try lia.
      exists w'. rewrite H4 in Hr'.
      split; [rewrite Hr, Hr'; f_equal; f_equal; lia|].
      cbn [w_mem w_tr w1 inbox outbox chunk closed] in M1, M2, M3, M4, M5.
      repeat split; auto; try congruence.
      rewrite M2, <- app_assoc. f_equal.
      rewrite <- (H5 (w_mem w)). rewrite Nat2Z.id.
      apply firstn_skipn.
Qed.

(** The writer thread's transfer of a frame with fewer than 32 payload
    descriptors, none of them empty, over an open stream. *)
Lemma writer_thrd_transfer_pos fuel cmd_ptr writer st (w : world stream) wio :
  w_io (heap st writer) = wio ->
  closed (w_tr w) = false -> 0 < chunk (w_tr w) < 2 ^ 63 ->
  0 <= nb_buf wio < 32 ->
  descriptors_ok None (buf wio) (nb_buf wio) ->
  sizes_pos (payload_descriptors (buf wio) (nb_buf wio)) ->
  8 + capacity (payload_descriptors (buf wio) (nb_buf wio)) < Z.of_nat fuel ->
  exists w2 evs,
    writer_thrd_transfer stream stream_ops fuel cmd_ptr writer (st, w)
    = (Ret tt,
       (with_reader st writer
          (fun r =>
             set_w_done true
               (set_w_io
                  (set_io_code (w_io r)
                     (to_int32
                        (8 + capacity (payload_descriptors (buf wio)
                                                           (nb_buf wio)))))
                  r)),
        match cleanup_cb wio with
        | Some cb =>
            if negb (nb_buf wio =? 0)
            then do_cleanup stream w2 cb (cleanup_cb_d wio)
                   (8 + capacity (payload_descriptors (buf wio) (nb_buf wio)))
            else w2
        | None => w2
        end))
    /\ w_mem w2 = store_bytes (w_mem w) cmd_ptr (encode_cmd (cmd wio))
    /\ outbox (w_tr w2) = outbox (w_tr w) ++ frame_bytes cmd_ptr (w_mem w) wio
    /\ inbox (w_tr w2) = inbox (w_tr w)
    /\ chunk (w_tr w2) = chunk (w_tr w)
    /\ closed (w_tr w2) = false
    /\ w_log w2 = w_log w ++ evs
    /\ Forall is_write_event evs
    /\ transferred evs
       = 8 + capacity (payload_descriptors (buf wio) (nb_buf wio)).
Proof.
  intros Hwio Hcl Hch Hnb Hdesc Hpos Hfuel.
  set (total := 8 + capacity (payload_descriptors (buf wio) (nb_buf wio))) in *.
  set (hdr := encode_cmd (cmd wio)).
  set (w0 := {| w_mem := store_bytes (w_mem w) cmd_ptr hdr;
                w_tr := w_tr w; w_log := w_log w |}).
  set (cmd_buf := {| ptr := cmd_ptr; size := sizeof_cmd |}).
  assert (Hd : descriptors_ok (Some cmd_buf) (buf wio) (nb_buf wio)).
  { destruct Hdesc as [_ Hd]. split; [cbn; unfold sizeof_cmd; lia | exact Hd]. }
  assert (Heff : 0 < effective_nb (Some cmd_buf) (nb_buf wio) <= 32)
    by (unfold effective_nb; lia).
  destruct (iiod_rw_all_loop stream stream_ops fuel w0 (Some cmd_buf) (buf wio)
              (nb_buf wio) 0 false ltac:(lia) Heff Hd) as (E & Hlen & Hok).
  set (curr := working_array (Some cmd_buf) (buf wio) (nb_buf wio)) in *.
  assert (Hcurr : curr = cmd_buf :: payload_descriptors (buf wio) (nb_buf wio))
    by reflexivity.
  assert (Hall : firstn (Z.to_nat (effective_nb (Some cmd_buf) (nb_buf wio)))
                        curr = curr).
  { rewrite <- Hlen, Nat2Z.id. apply firstn_all. }
  assert (Hcap : capacity curr = total).
  { rewrite Hcurr. cbn [capacity cmd_buf size]. unfold total, sizeof_cmd. lia. }
  destruct (stream_write_loop_pos 0 fuel w0 curr
              (effective_nb (Some cmd_buf) (nb_buf wio)) 0)
    as (w2 & Hr & M1 & M2 & M3 & M4 & M5); auto; try lia;
    try (rewrite Hall, Hcap; assumption).
  { rewrite Hcurr. constructor; [cbn; unfold sizeof_cmd; lia | assumption]. }
  rewrite Hall, Hcap, Z.add_0_l in Hr. rewrite Hall in M2.
  destruct (rw_loop_writes _ _ _ _ _ _ _ _ _ _ Hr) as (evs & Hl & Hw).
  destruct (rw_loop_reports _ _ _ _ _ _ _ _ _ _ _ Hr) as (evs' & Hl' & Hrep).
  assert (evs' = evs)
    by (rewrite Hl in Hl'; apply app_inv_head in Hl'; congruence).
  subst evs'.
  assert (Htot : 0 < total).
  { unfold total.
    pose proof (sizes_ok_capacity _ (sizes_pos_ok _ Hpos)). lia. }
  assert (Htr : transferred evs = total).
  { destruct Hrep as [[_ Ht] | (evs0 & e & _ & _ & _ & Hle)]; lia. }
  exists w2, evs. split.
  { unfold writer_thrd_transfer. rewrite Hwio.
    fold hdr. fold w0. fold cmd_buf. rewrite E. fold curr. rewrite Hr.
    reflexivity. }
  split; [exact M1|]. split.
  { rewrite M2. cbn [w0 w_tr w_mem]. f_equal. unfold frame_bytes.
    assert (E32 : (32 <=? nb_buf wio) = false) by (apply Z.leb_gt; lia).
    rewrite E32, Hcurr. cbn [gather cmd_buf ptr size].
    change (Z.to_nat sizeof_cmd) with (length hdr).
    rewrite load_store_bytes. reflexivity. }
  repeat split; assumption.
Qed.

(** X11: the writer thread's transfer of a queued frame over an open
    stream, the frame having fewer than 32 payload descriptors, none of
    them empty.  The header and then the payload go out in full, however
    short the single writes are; the total, 8 plus the payload size, is
    stored in the handle's [w_io.cmd.code] (as an [int32_t]), [w_done]
    is set, so that [iiod_reader_wait_for_command_done] returns, and the
    cleanup callback, if there is one and the frame has a payload, is
    called once with the total. *)
Theorem writer_thrd_transfer_frame fuel cmd_ptr writer st (w : world stream)
    wio :
  w_io (heap st writer) = wio ->
  closed (w_tr w) = false -> 0 < chunk (w_tr w) < 2 ^ 63 ->
  0 <= nb_buf wio < 32 ->
  descriptors_ok None (buf wio) (nb_buf wio) ->
  sizes_pos (payload_descriptors (buf wio) (nb_buf wio)) ->
  8 + capacity (payload_descriptors (buf wio) (nb_buf wio)) < Z.of_nat fuel ->
  exists st' w' evs,
    writer_thrd_transfer stream stream_ops fuel cmd_ptr writer (st, w)
    = (Ret tt, (st', w'))
    /\ cmd_code (cmd (w_io (heap st' writer)))
       = to_int32 (8 + capacity (payload_descriptors (buf wio) (nb_buf wio)))
    /\ w_done (heap st' writer) = true
    /\ (exists st'', iiod_reader_wait_for_command_done st' writer = Some st'')
    /\ outbox (w_tr w') = outbox (w_tr w) ++ frame_bytes cmd_ptr (w_mem w) wio
    /\ w_log w'
       = w_log w ++ evs
           ++ match cleanup_cb wio with
              | Some cb =>
                  if nb_buf wio =? 0 then []
                  else [Io_cleanup cb (cleanup_cb_d wio)
                          (8 + capacity (payload_descriptors (buf wio)
                                                             (nb_buf wio)))]
              | None => []
              end
    /\ Forall is_write_event evs
    /\ transferred evs
       = 8 + capacity (payload_descriptors (buf wio) (nb_buf wio)).
Proof.
  intros Hwio Hcl Hch Hnb Hdesc Hpos Hfuel.
  destruct (writer_thrd_transfer_pos fuel cmd_ptr writer st w wio Hwio Hcl Hch
              Hnb Hdesc Hpos Hfuel)
    as (w2 & evs & Hrun & _ & Hout & _ & _ & _ & Hl & Hw & Htr).
  eexists _, _, evs. split; [exact Hrun|].
  cbn [with_reader heap]. rewrite !upd_same.
  split; [reflexivity|]. split; [reflexivity|].
  split.
  { unfold iiod_reader_wait_for_command_done. cbn [with_reader heap].
    rewrite upd_same. cbn [set_w_done w_done]. eexists. reflexivity. }
  destruct (cleanup_cb wio) as [cb|].
  - destruct (nb_buf wio =? 0); cbn [negb].
    + rewrite app_nil_r. repeat split; assumption.
    + cbn [do_cleanup w_tr w_log]. rewrite Hl, <- app_assoc.
      repeat split; assumption.
  - rewrite app_nil_r. repeat split; assumption.
Qed.

Lemma writer_thrd_transfer_frame_witness :
  exists st' w' evs,
    writer_thrd_transfer stream stream_ops 16 cmd_addr 1%nat
      (one_dequeued, incoming [] 3)
    = (Ret tt, (st', w'))
    /\ cmd_code (cmd (w_io (heap st' 1%nat))) = 10
    /\ w_done (heap st' 1%nat) = true
    /\ (exists st'', iiod_reader_wait_for_command_done st' 1%nat = Some st'')
    /\ outbox (w_tr w')
       = outbox (w_tr (incoming [] 3))
           ++ frame_bytes cmd_addr (w_mem (incoming [] 3)) version_with_cleanup
    /\ w_log w' = w_log (incoming [] 3) ++ evs ++ [Io_cleanup 7%nat 99 10]
    /\ Forall is_write_event evs
    /\ transferred evs = 10.
Proof.
  apply (writer_thrd_transfer_frame 16 cmd_addr 1%nat one_dequeued
           (incoming [] 3) version_with_cleanup).
  - reflexivity.
  - reflexivity.
  - cbn. lia.
  - cbn. lia.
  - split; [exact I|]. split; [cbn; lia|].
    repeat constructor; cbn; lia.
  - repeat constructor; cbn; lia.
  - vm_compute. reflexivity.
Defined.

(** Once [thrd_stop] is set the writer thread leaves its loop at once. *)
Lemma iiod_responder_writer_thrd_stopped T (ops : iiod_responder_ops T)
    fuel cmd_ptr (s : sys T) :
  thrd_stop (priv (fst s)) = true ->
  iiod_responder_writer_thrd T ops (S fuel) cmd_ptr s = (Ret Stopped, s).
Proof.
  intros Hstop. cbn [iiod_responder_writer_thrd].
  unfold writer_thrd_iteration, writer_thrd_dequeue. rewrite Hstop.
  cbn [obind]. destruct s; reflexivity.
Qed.

Lemma iiod_enqueue_command_keeps fuel st writer op dev code bufs nb cb d
    ret st' :
  iiod_enqueue_command fuel st writer op dev code bufs nb cb d
  = Some (ret, st') ->
  w_done (heap st' writer) = false
  /\ thrd_stop (priv st') = thrd_stop (priv st)
  /\ readers (priv st') = readers (priv st)
  /\ (forall p, r_next (heap st' p) = r_next (heap st p)
                /\ r_io (heap st' p) = r_io (heap st p)
                /\ r_done (heap st' p) = r_done (heap st p)
                /\ client_id (heap st' p) = client_id (heap st p)).
Proof.
  unfold iiod_enqueue_command.
  set (st1 := with_reader st writer _).
  assert (H1 : w_done (heap st1 writer) = false).
  { unfold st1. cbn [with_reader heap]. rewrite upd_same. reflexivity. }
  assert (H2 : forall p, r_next (heap st1 p) = r_next (heap st p)
                         /\ r_io (heap st1 p) = r_io (heap st p)
                         /\ r_done (heap st1 p) = r_done (heap st p)
                         /\ client_id (heap st1 p) = client_id (heap st p)).
  { intros p. unfold st1. cbn [with_reader heap].
    destruct (Nat.eq_dec p writer) as [->|E];
      [rewrite upd_same | rewrite upd_other by assumption];
      repeat split; reflexivity. }
  change (priv st1) with (priv st).
  destruct (writers (priv st)) as [head|].
  - destruct (last_writer fuel st1 head) as [last|]; [|discriminate].
    intros H; inversion H; subst ret st'. cbn [with_reader heap priv].
    split.
    { destruct (Nat.eq_dec writer last) as [->|E];
        [rewrite upd_same | rewrite upd_other by assumption]; assumption. }
    split; [reflexivity|]. split; [reflexivity|].
    intros p. destruct (Nat.eq_dec p last) as [->|E];
      [rewrite upd_same | rewrite upd_other by assumption]; apply H2.
  - intros H; inversion H; subst ret st'. cbn [with_priv heap priv].
    repeat split; auto; apply H2.
Qed.

(** X12: sending on a responder that has stopped (the reader thread met
    the end of the stream or an error, or the responder is being torn
    down).  The asynchronous send reports no error and queues the frame:
    the handle stands at the back of the writers queue with the command
    in its outbound slot.  But the writer thread, however long it runs,
    leaves its loop without taking anything off the queue, through which
    the frame stays queued, nothing is written and [w_done] is never
    set: [iiod_reader_send_command] does not return. *)
Theorem iiod_reader_send_command_stopped T (ops : iiod_responder_ops T)
    fuel fuel' cmd_ptr (s : sys T) reader c bufs nb l :
  thrd_stop (priv (fst s)) = true ->
  writers_queue fuel (fst s) = Some l ->
  ~ In reader l ->
  exists st1,
    iiod_reader_send_command_async fuel (fst s) reader c bufs nb None 0
    = Some (0, st1)
    /\ writers_queue (length (l ++ [reader])) st1 = Some (l ++ [reader])
    /\ w_io (heap st1 reader)
       = {| cmd := {| cmd_client_id := client_id (heap (fst s) reader);
                      cmd_op := cmd_op c; cmd_dev := cmd_dev c;
                      cmd_code := cmd_code c |};
            buf := bufs; nb_buf := nb;
            cleanup_cb := None; cleanup_cb_d := 0 |}
    /\ w_done (heap st1 reader) = false
    /\ iiod_responder_writer_thrd T ops (S fuel') cmd_ptr (st1, snd s)
       = (Ret Stopped, (st1, snd s))
    /\ iiod_reader_send_command T fuel
         (fun s' => snd (iiod_responder_writer_thrd T ops (S fuel') cmd_ptr s'))
         s reader c bufs nb
       = None.
Proof.
  intros Hstop Hq Hnin.
  destruct (iiod_enqueue_command_returns_zero fuel (fst s) l reader (cmd_op c)
              (cmd_dev c) (cmd_code c) bufs nb None 0 Hq) as [st1 He].
  destruct (iiod_enqueue_command_keeps _ _ _ _ _ _ _ _ _ _ _ _ He)
    as (Hd & Hs & _).
  destruct (iiod_enqueue_command_slot _ _ _ _ _ _ _ _ _ _ _ _ He) as [Hio _].
  assert (Hw : iiod_responder_writer_thrd T ops (S fuel') cmd_ptr (st1, snd s)
               = (Ret Stopped, (st1, snd s))).
  { apply iiod_responder_writer_thrd_stopped. cbn [fst]. congruence. }
  exists st1. split; [exact He|].
  split; [eapply iiod_enqueue_command_queue; eassumption|].
  split; [exact Hio|]. split; [exact Hd|]. split; [exact Hw|].
  apply (iiod_reader_send_command_blocks T fuel _ s reader c bufs nb st1 He).
  cbv beta. rewrite Hw. exact Hd.
Qed.

Lemma iiod_reader_send_command_stopped_witness :
  exists st1,
    iiod_reader_send_command_async 4
      (fst (with_priv two_enqueued (set_thrd_stop true), incoming [] 3)) 3%nat
      version_cmd None 0 None 0
    = Some (0, st1)
    /\ writers_queue (length ([2%nat; 1%nat] ++ [3%nat])) st1
       = Some ([2%nat; 1%nat] ++ [3%nat])
    /\ w_io (heap st1 3%nat)
       = {| cmd := {| cmd_client_id :=
                        client_id
                          (heap (fst (with_priv two_enqueued
                                        (set_thrd_stop true),
                                      incoming [] 3)) 3%nat);
                      cmd_op := cmd_op version_cmd;
                      cmd_dev := cmd_dev version_cmd;
                      cmd_code := cmd_code version_cmd |};
            buf := None; nb_buf := 0;
            cleanup_cb := None; cleanup_cb_d := 0 |}
    /\ w_done (heap st1 3%nat) = false
    /\ iiod_responder_writer_thrd stream stream_ops 8 cmd_addr
         (st1, snd (with_priv two_enqueued (set_thrd_stop true),
                    incoming [] 3))
       = (Ret Stopped,
          (st1, snd (with_priv two_enqueued (set_thrd_stop true),
                     incoming [] 3)))
    /\ iiod_reader_send_command stream 4
         (fun s' => snd (iiod_responder_writer_thrd stream stream_ops 8
                           cmd_addr s'))
         (with_priv two_enqueued (set_thrd_stop true), incoming [] 3) 3%nat
         version_cmd None 0
       = None.
Proof.
  apply (iiod_reader_send_command_stopped stream stream_ops 4 7 cmd_addr
           (with_priv two_enqueued (set_thrd_stop true), incoming [] 3) 3%nat
           version_cmd None 0 [2%nat; 1%nat]).
  - reflexivity.
  - reflexivity.
  - vm_compute. intros [H|[H|[]]]; discriminate.
Defined.

(* ------------------------------------------------------------------ *)
(** ** Registering for a response *)

Lemma last_reader_chain : forall l fuelc st head fuel last,
  chain r_next (heap st) fuelc (Some head) = Some l ->
  last_reader fuel st head = Some last ->
  exists l', l = l' ++ [last] /\ r_next (heap st last) = None.
Proof.
  induction l as [|x l IH]; intros fuelc st head fuel last Hc Hl.
  - apply chain_nil in Hc. discriminate.
  - apply chain_cons in Hc. destruct Hc as [E (f & -> & Hc)].
    inversion E; subst x.
    destruct fuel as [|fuel]; [discriminate|]. cbn [last_reader] in Hl.
    destruct (r_next (heap st head)) as [n|] eqn:En.
    + destruct (IH _ _ _ _ _ Hc Hl) as (l' & -> & Hn).
      exists (head :: l'). split; [reflexivity | assumption].
    + inversion Hl; subst last. apply chain_nil_inv in Hc. subst l.
      exists []. split; [reflexivity | assumption].
Qed.

Lemma last_reader_total : forall fuel st head l,
  chain r_next (heap st) fuel (Some head) = Some l ->
  exists last, last_reader fuel st head = Some last.
Proof.
  induction fuel as [|fuel IH]; intros st head l Hc; [discriminate|].
  cbn [chain] in Hc. cbn [last_reader].
  destruct (chain r_next (heap st) fuel (r_next (heap st head)))
    as [l'|] eqn:El; [|discriminate].
  destruct (r_next (heap st head)) as [n|] eqn:En; [|eexists; reflexivity].
  eapply IH; eassumption.
Qed.

Lemma chain_snoc_r h : forall l' fuel head last reader,
  chain r_next h fuel (Some head) = Some (l' ++ [last]) ->
  ~ In reader (l' ++ [last]) -> NoDup (l' ++ [last]) ->
  r_next (h reader) = None ->
  chain r_next (upd h last (set_r_next (Some reader))) (S fuel) (Some head)
  = Some (l' ++ [last; reader]).
Proof.
  induction l' as [|x l' IH]; intros fuel head last reader Hc Hnin Hnd Hw.
  - cbn [app] in *. apply chain_cons in Hc.
    destruct Hc as [E (f & -> & Hc)]. inversion E; subst head.
    assert (Hwl : reader <> last) by (intros ->; apply Hnin; left; reflexivity).
    cbn [chain]. rewrite upd_same. cbn [set_r_next r_next].
    rewrite upd_other by assumption. rewrite Hw, chain_none. reflexivity.
  - cbn [app] in *. apply chain_cons in Hc.
    destruct Hc as [E (f & -> & Hc)]. inversion E; subst head.
    inversion Hnd as [|x' l'' Hx Hnd']; subst.
    assert (Hxl : x <> last).
    { intros ->. apply Hx. apply in_or_app. right. left. reflexivity. }
    rewrite chain_step. rewrite upd_other by assumption.
    destruct (r_next (h x)) as [n|] eqn:En.
    + rewrite (IH f n last reader); auto.
      intros Hin. apply Hnin. right. assumption.
    + apply chain_nil_inv in Hc. destruct l'; discriminate.
Qed.

Lemma chain_next_of next h : forall a fuel p x y b,
  chain next h fuel p = Some (a ++ x :: y :: b) -> next (h x) = Some y.
Proof.
  intros a fuel p x y b Hc.
  destruct (chain_suffix _ _ _ _ _ _ _ Hc) as [f Hs].
  apply chain_cons in Hs. destruct Hs as [_ (f' & _ & Hs)].
  apply chain_cons in Hs. destruct Hs as [E _]. exact E.
Qed.

(** Registering a handle that is not on the waiters list and whose
    [r_next] is [NULL] puts it at the back of the list. *)
Lemma enqueue_response_request_appends fuel st reader bufs nb lock_it q :
  waiters_list (length q) st = Some q ->
  ~ In reader q ->
  r_next (heap st reader) = None ->
  (length q <= fuel)%nat ->
  exists st',
    iiod_reader_enqueue_response_request fuel st reader bufs nb lock_it
    = Some st'
    /\ waiters_list (length (q ++ [reader])) st' = Some (q ++ [reader])
    /\ r_io (heap st' reader)
       = {| cmd := cmd (r_io (heap st reader)); buf := bufs; nb_buf := nb;
            cleanup_cb := None;
            cleanup_cb_d := cleanup_cb_d (r_io (heap st reader)) |}
    /\ r_done (heap st' reader) = false
    /\ (forall p, p <> reader ->
                  r_io (heap st' p) = r_io (heap st p)
                  /\ r_done (heap st' p) = r_done (heap st p))
    /\ writers_queue fuel st' = writers_queue fuel st
    /\ (forall p, w_io (heap st' p) = w_io (heap st p)
                  /\ w_done (heap st' p) = w_done (heap st p)).
Proof.
  unfold waiters_list, iiod_reader_enqueue_response_request.
  intros Hq Hnin Hrn Hfuel.
  pose proof (chain_NoDup _ _ _ _ _ Hq) as Hnd.
  set (st1 := with_reader st reader _).
  assert (Hq1 : chain r_next (heap st1) (length q) (readers (priv st)) = Some q).
  { eapply chain_frame; [exact Hq|]. intros p Hp. unfold st1.
    cbn [with_reader heap]. rewrite upd_other; [reflexivity|].
    intros ->. contradiction. }
  assert (Hr1 : r_next (heap st1 reader) = None).
  { unfold st1. cbn [with_reader heap]. rewrite upd_same. exact Hrn. }
  assert (Hio1 : r_io (heap st1 reader)
                 = {| cmd := cmd (r_io (heap st reader)); buf := bufs;
                      nb_buf := nb; cleanup_cb := None;
                      cleanup_cb_d := cleanup_cb_d (r_io (heap st reader)) |}
                 /\ r_done (heap st1 reader) = false).
  { unfold st1. cbn [with_reader heap]. rewrite upd_same.
    split; reflexivity. }
  assert (Hoth : forall p, p <> reader -> heap st1 p = heap st p).
  { intros p Hp. unfold st1. cbn [with_reader heap].
    rewrite upd_other by assumption. reflexivity. }
  assert (Hw1 : forall p, w_next (heap st1 p) = w_next (heap st p)
                          /\ w_io (heap st1 p) = w_io (heap st p)
                          /\ w_done (heap st1 p) = w_done (heap st p)).
  { intros p. unfold st1. cbn [with_reader heap].
    destruct (Nat.eq_dec p reader) as [->|E];
      [rewrite upd_same | rewrite upd_other by assumption];
      repeat split; reflexivity. }
  change (priv st1) with (priv st).
  destruct (readers (priv st)) as [head|] eqn:Eh.
  - destruct (last_reader_total (length q) st1 head q Hq1) as [last0 El0].
    assert (El : last_reader fuel st1 head = Some last0).
    { clear - El0 Hfuel. revert head fuel El0 Hfuel.
      induction (length q) as [|n IH]; intros head fuel El0 Hfuel;
        [discriminate|].
      destruct fuel as [|fuel]; [lia|]. cbn [last_reader] in *.
      destruct (r_next (heap st1 head)); [|assumption].
      apply IH; [assumption | lia]. }
    rewrite El.
    destruct (last_reader_chain _ _ _ _ _ _ Hq1 El) as (l' & -> & Hln).
    assert (Hlw : last0 <> reader).
    { intros ->. apply Hnin. apply in_or_app. right. left. reflexivity. }
    eexists. split; [reflexivity|]. cbn [with_reader heap priv].
    change (priv st1) with (priv st). rewrite Eh.
    split.
    { rewrite <- app_assoc. cbn [app].
      rewrite length_app. cbn [length].
      replace (length l' + 2)%nat with (S (length (l' ++ [last0])))
        by (rewrite length_app; cbn [length]; lia).
      apply chain_snoc_r; assumption. }
    rewrite (upd_other _ last0 _ reader) by auto.
    split; [apply Hio1|]. split; [apply Hio1|].
    split.
    { intros p Hp. destruct (Nat.eq_dec p last0) as [->|Hpl].
      - rewrite upd_same. cbn [set_r_next r_io r_done].
        rewrite (Hoth last0) by assumption. split; reflexivity.
      - rewrite upd_other by assumption. rewrite (Hoth p) by assumption.
        split; reflexivity. }
    split.
    { unfold writers_queue. cbn [priv heap]. apply chain_ext. intros p.
      cbn [with_reader heap].
      destruct (Nat.eq_dec p last0) as [->|Hpl];
        [rewrite upd_same; cbn [set_r_next w_next]
        | rewrite upd_other by assumption]; apply Hw1. }
    intros p. cbn [with_reader heap].
    destruct (Nat.eq_dec p last0) as [->|Hpl];
      [rewrite upd_same; cbn [set_r_next w_io w_done]
      | rewrite upd_other by assumption]; apply Hw1.
  - apply chain_nil_inv in Hq. subst q.
    eexists. split; [reflexivity|].
    cbn [with_priv heap priv set_readers readers app length chain].
    rewrite Hr1.
    split; [reflexivity|]. split; [apply Hio1|]. split; [apply Hio1|].
    split.
    { intros p Hp. rewrite (Hoth p) by assumption. split; reflexivity. }
    split.
    { unfold writers_queue. cbn [priv with_priv set_readers writers heap].
      apply chain_ext. intros p. apply Hw1. }
    intros p. apply Hw1.
Qed.

(** X13: [iiod_reader_get_response_async] on a handle that is not on the
    waiters list and whose [r_next] is [NULL] (as in a handle fresh from
    [zalloc]): the handle goes to the back of the list, its inbound slot
    takes the buffer and the count with the cleanup callback cleared and
    the last code kept, [r_done] is reset, and nothing else changes: not
    the other handles' slots, not the writers queue. *)
Theorem iiod_reader_get_response_async_appends fuel st reader bufs nb q :
  waiters_list (length q) st = Some q ->
  ~ In reader q ->
  r_next (heap st reader) = None ->
  (length q <= fuel)%nat ->
  exists st',
    iiod_reader_get_response_async fuel st reader bufs nb = Some st'
    /\ waiters_list (length (q ++ [reader])) st' = Some (q ++ [reader])
    /\ r_io (heap st' reader)
       = {| cmd := cmd (r_io (heap st reader)); buf := bufs; nb_buf := nb;
            cleanup_cb := None;
            cleanup_cb_d := cleanup_cb_d (r_io (heap st reader)) |}
    /\ r_done (heap st' reader) = false
    /\ (forall p, p <> reader ->
                  r_io (heap st' p) = r_io (heap st p)
                  /\ r_done (heap st' p) = r_done (heap st p))
    /\ writers_queue fuel st' = writers_queue fuel st
    /\ (forall p, w_io (heap st' p) = w_io (heap st p)
                  /\ w_done (heap st' p) = w_done (heap st p)).
Proof.
  intros. unfold iiod_reader_get_response_async.
  apply enqueue_response_request_appends; assumption.
Qed.

Lemma iiod_reader_get_response_async_appends_witness :
  exists st',
    iiod_reader_get_response_async 4 three_waiting 4%nat
      (Some sample_payload) 1
    = Some st'
    /\ waiters_list 4 st' = Some [1%nat; 2%nat; 3%nat; 4%nat]
    /\ buf (r_io (heap st' 4%nat)) = Some sample_payload
    /\ writers_queue 4 st' = writers_queue 4 three_waiting.
Proof.
  destruct (iiod_reader_get_response_async_appends 4 three_waiting 4%nat
              (Some sample_payload) 1 [1%nat; 2%nat; 3%nat])
    as (st' & H1 & H2 & H3 & _ & _ & H6 & _).
  - reflexivity.
  - cbn. intuition discriminate.
  - reflexivity.
  - cbn. lia.
  - exists st'. split; [exact H1|]. split; [exact H2|].
    split; [rewrite H3; reflexivity | exact H6].
Defined.

(* ------------------------------------------------------------------ *)
(** ** A handle that registers again *)

(** Unlinking a handle leaves the handle itself as it was, its
    [r_next] included. *)
Lemma reader_cancel_walk_self : forall fuel st tmp io st',
  reader_cancel_walk fuel st tmp io = Some st' ->
  r_next (heap st io) <> Some io ->
  heap st' io = heap st io.
Proof.
  induction fuel as [|fuel IH]; intros st tmp io st' H Hself; [discriminate|].
  cbn [reader_cancel_walk] in H.
  destruct (r_next (heap st tmp)) as [n|] eqn:En.
  - destruct (Nat.eqb n io) eqn:E.
    + apply Nat.eqb_eq in E. subst n. inversion H; subst st'.
      cbn [with_reader heap]. apply upd_other. intros ->. contradiction.
    + eapply IH; eassumption.
  - inversion H; subst. reflexivity.
Qed.

(** Following next pointers inside a set of handles each of which
    points to another one of the set never comes to an end. *)
Lemma chain_closed_none next h (P : handle -> Prop) :
  (forall p, P p -> exists p', next (h p) = Some p' /\ P p') ->
  forall fuel p, P p -> chain next h fuel (Some p) = None.
Proof.
  intros Hcl. induction fuel as [|fuel IH]; intros p Hp; [reflexivity|].
  rewrite chain_step. destruct (Hcl p Hp) as (p' & E & Hp').
  rewrite E, (IH p' Hp'). reflexivity.
Qed.

Lemma find_reader_closed_none st id (P : handle -> Prop) :
  (forall p, P p -> exists p', r_next (heap st p) = Some p' /\ P p') ->
  (forall p, P p -> client_id (heap st p) <> id) ->
  forall fuel p, P p -> find_reader fuel st (Some p) id = None.
Proof.
  intros Hcl Hid. induction fuel as [|fuel IH]; intros p Hp;
    cbn [find_reader]; pose proof (Hid p Hp) as Hne;
    apply Z.eqb_neq in Hne; rewrite Hne; [reflexivity|].
  destruct (Hcl p Hp) as (p' & E & Hp'). rewrite E. apply IH. assumption.
Qed.

(** X14: a handle that is unlinked from the middle of the waiters list
    (by a response, or by [iiod_reader_cancel]) keeps its [r_next]
    pointer, and [iiod_reader_get_response_async] does not clear it.
    When such a handle registers again while a handle that was queued
    behind it is still waiting, the list becomes circular: following
    [r_next] from the head never ends, and the reader thread's search
    for a client id that no waiter has does not terminate. *)
Theorem iiod_reader_reregister_cycle fuel st l1 reader x l2 st1 bufs nb :
  l1 <> [] ->
  waiters_list fuel st = Some (l1 ++ reader :: x :: l2) ->
  __iiod_reader_cancel_unlocked fuel st reader = Some st1 ->
  waiters_list fuel st1 = Some (l1 ++ x :: l2)
  /\ exists st2,
       iiod_reader_get_response_async fuel st1 reader bufs nb = Some st2
       /\ r_next (heap st2 reader) = Some x
       /\ (forall fuel', waiters_list fuel' st2 = None)
       /\ (forall id,
              (forall p, In p (l1 ++ reader :: x :: l2) ->
                         client_id (heap st p) <> id) ->
              forall fuel',
                find_reader fuel' st2 (readers (priv st2)) id = None).
Proof.
  intros Hl1 Hl Hc.
  pose proof (chain_NoDup _ _ _ _ _ Hl) as Hnd.
  pose proof (chain_next_of _ _ _ _ _ _ _ _ Hl) as Hrx.
  assert (Hxr : x <> reader).
  { intros ->. apply NoDup_remove_2 in Hnd. apply Hnd.
    apply in_or_app. right. left. reflexivity. }
  destruct l1 as [|h l1']; [congruence|]. clear Hl1.
  assert (Hhead : readers (priv st) = Some h).
  { unfold waiters_list in Hl. cbn [app] in Hl.
    apply chain_cons in Hl. destruct Hl as [E _]. exact E. }
  assert (Hhr : h <> reader).
  { intros ->. cbn [app] in Hnd. inversion Hnd as [|? ? Hx _]; subst.
    apply Hx. apply in_or_app. right. left. reflexivity. }
  assert (Hne : readers (priv st) <> Some reader) by congruence.
  destruct (reader_cancel_not_head fuel st reader _ Hl Hnd Hne)
    as (st1' & Hc' & Hl1 & _).
  rewrite Hc in Hc'. inversion Hc'; subst st1'. clear Hc'.
  rewrite remove_middle in Hl1 by assumption.
  split; [exact Hl1|].
  destruct (reader_cancel_total fuel st reader _ Hl) as (st1' & Hc' & _ & Hf).
  rewrite Hc in Hc'. inversion Hc'; subst st1'. clear Hc'.
  assert (Hself : heap st1 reader = heap st reader).
  { unfold __iiod_reader_cancel_unlocked in Hc. rewrite Hhead in Hc.
    assert (E : Nat.eqb reader h = false) by (apply Nat.eqb_neq; auto).
    rewrite E in Hc. eapply reader_cancel_walk_self; [exact Hc|].
    rewrite Hrx. congruence. }
  assert (Hhead1 : readers (priv st1) = Some h).
  { unfold waiters_list in Hl1. cbn [app] in Hl1.
    apply chain_cons in Hl1. destruct Hl1 as [E _]. exact E. }
  (* the registration *)
  unfold iiod_reader_get_response_async, iiod_reader_enqueue_response_request.
  set (st1r := with_reader st1 reader _).
  assert (Hr1 : forall p, r_next (heap st1r p) = r_next (heap st1 p)
                          /\ client_id (heap st1r p) = client_id (heap st1 p)).
  { intros p. unfold st1r. cbn [with_reader heap].
    destruct (Nat.eq_dec p reader) as [->|E];
      [rewrite upd_same | rewrite upd_other by assumption];
      split; reflexivity. }
  assert (Hl1r : chain r_next (heap st1r) fuel (Some h)
                 = Some ((h :: l1') ++ x :: l2)).
  { unfold waiters_list in Hl1. rewrite Hhead1 in Hl1.
    etransitivity; [|exact Hl1].
    apply chain_ext. intros q. apply Hr1. }
  change (priv st1r) with (priv st1). rewrite Hhead1.
  destruct (last_reader_total fuel st1r h _ Hl1r) as [last El]. rewrite El.
  destruct (last_reader_chain _ _ _ _ _ _ Hl1r El) as (l' & Hsplit & Hln).
  pose proof (chain_NoDup _ _ _ _ _ Hl1r) as Hnd1. rewrite Hsplit in Hnd1.
  assert (Hrin : ~ In reader ((h :: l1') ++ x :: l2)).
  { apply NoDup_remove_2 in Hnd. exact Hnd. }
  assert (Hlast : last <> reader).
  { intros ->. apply Hrin. rewrite Hsplit. apply in_or_app. right. left.
    reflexivity. }
  eexists. split; [reflexivity|].
  set (st2 := with_reader st1r last (set_r_next (Some reader))).
  assert (Hnext2 : forall p, p <> last ->
                             r_next (heap st2 p) = r_next (heap st1r p)).
  { intros p Hp. unfold st2. cbn [with_reader heap].
    rewrite upd_other by assumption. reflexivity. }
  assert (Hlast2 : r_next (heap st2 last) = Some reader).
  { unfold st2. cbn [with_reader heap]. rewrite upd_same. reflexivity. }
  assert (Hreader2 : r_next (heap st2 reader) = Some x).
  { rewrite Hnext2 by auto. destruct (Hr1 reader) as [E _]. rewrite E.
    rewrite Hself. exact Hrx. }
  assert (Hid2 : forall p, client_id (heap st2 p) = client_id (heap st p)).
  { intros p. unfold st2. cbn [with_reader heap].
    destruct (Nat.eq_dec p last) as [->|E];
      [rewrite upd_same; cbn [set_r_next client_id]
      | rewrite upd_other by assumption];
      (destruct (Hr1 p) as [_ E1] || destruct (Hr1 last) as [_ E1]);
      rewrite E1;
      (destruct (Hf p) as [n Hn] || destruct (Hf last) as [n Hn]);
      rewrite Hn; reflexivity. }
  set (on_cycle := fun p => In p ((h :: l1') ++ x :: l2) \/ p = reader).
  assert (Hclosed : forall p, on_cycle p ->
                      exists p', r_next (heap st2 p) = Some p'
                                 /\ on_cycle p').
  { intros p [Hp | ->].
    - rewrite Hsplit in Hp. apply in_app_or in Hp.
      destruct Hp as [Hp | [<- | []]].
      + apply in_split in Hp. destruct Hp as (a & b & ->).
        assert (Hpl : p <> last).
        { intros ->. rewrite <- app_assoc in Hnd1. cbn [app] in Hnd1.
          apply NoDup_remove_2 in Hnd1. apply Hnd1.
          apply in_or_app. right. apply in_or_app. right. left. reflexivity. }
        assert (Hy : exists y c, b ++ [last] = y :: c).
        { destruct b as [|y b]; eexists _, _; reflexivity. }
        destruct Hy as (y & c & Hy).
        assert (Hch : chain r_next (heap st1r) fuel (Some h)
                      = Some (a ++ p :: y :: c)).
        { rewrite Hl1r, Hsplit, <- app_assoc. cbn [app]. rewrite Hy.
          reflexivity. }
        exists y. rewrite Hnext2 by assumption.
        split; [eapply chain_next_of; exact Hch|].
        left. rewrite Hsplit, <- app_assoc. cbn [app]. rewrite Hy.
        apply in_or_app. right. right. left. reflexivity.
      + exists reader. split; [exact Hlast2 | right; reflexivity].
    - exists x. split; [exact Hreader2|]. left.
      apply in_or_app. right. left. reflexivity. }
  assert (Hh : on_cycle h) by (left; left; reflexivity).
  split; [exact Hreader2|]. split.
  - intros fuel'. unfold waiters_list.
    change (priv st2) with (priv st1). rewrite Hhead1.
    apply (chain_closed_none r_next (heap st2) on_cycle Hclosed fuel' h Hh).
  - intros id Hid fuel'.
    change (priv st2) with (priv st1). rewrite Hhead1.
    apply (find_reader_closed_none st2 id on_cycle Hclosed); [|exact Hh].
    intros p [Hp | ->]; rewrite Hid2; apply Hid.
    + apply in_app_or in Hp. apply in_or_app.
      destruct Hp as [Hp|Hp]; [left; assumption|].
      right. right. assumption.
    + apply in_or_app. right. left. reflexivity.
Qed.

Lemma iiod_reader_reregister_cycle_witness :
  waiters_list 4 three_waiting_less_2 = Some ([1%nat] ++ 3%nat :: [])
  /\ exists st2,
       iiod_reader_get_response_async 4 three_waiting_less_2 2%nat None 0
       = Some st2
       /\ r_next (heap st2 2%nat) = Some 3%nat
       /\ (forall fuel', waiters_list fuel' st2 = None)
       /\ (forall id,
              (forall p, In p ([1%nat] ++ 2%nat :: 3%nat :: []) ->
                         client_id (heap three_waiting p) <> id) ->
              forall fuel',
                find_reader fuel' st2 (readers (priv st2)) id = None).
Proof.
  apply (iiod_reader_reregister_cycle 4 three_waiting [1%nat] 2%nat 3%nat []
           three_waiting_less_2 None 0).
  - discriminate.
  - reflexivity.
  - reflexivity.
Defined.

(* ------------------------------------------------------------------ *)
(** ** A command and its response *)

(** The first half of [iiod_reader_exec_command] on an idle responder:
    the handle registers for the response, queues the command, and the
    writer thread writes it out and wakes the caller. *)
Lemma exec_send_phase fuel cmd_w st (w : world stream) reader c cmd_buf
    bufs nb :
  readers (priv st) = None -> writers (priv st) = None ->
  thrd_stop (priv st) = false ->
  r_next (heap st reader) = None ->
  closed (w_tr w) = false -> 0 < chunk (w_tr w) < 2 ^ 63 ->
  match cmd_buf with
  | Some cb => 0 < size cb < 2 ^ 64 /\ 8 + size cb < Z.of_nat fuel
  | None => (8 < fuel)%nat
  end ->
  exists st1 st3 w3,
    iiod_reader_get_response_async fuel st reader bufs nb = Some st1
    /\ iiod_reader_send_command stream fuel (writer_pass fuel cmd_w) (st1, w)
         reader c (single_buf cmd_buf) (is_non_null cmd_buf)
       = Some (0, (st3, w3))
    /\ waiters_list fuel st3 = Some [reader]
    /\ writers_queue fuel st3 = Some []
    /\ client_id (heap st3 reader) = client_id (heap st reader)
    /\ buf (r_io (heap st3 reader)) = bufs
    /\ nb_buf (r_io (heap st3 reader)) = nb
    /\ w_mem w3
       = store_bytes (w_mem w) cmd_w
           (encode_cmd (cmd (command_slot (client_id (heap st reader)) c
                                          cmd_buf)))
    /\ outbox (w_tr w3)
       = outbox (w_tr w)
           ++ frame_bytes cmd_w (w_mem w)
                (command_slot (client_id (heap st reader)) c cmd_buf)
    /\ inbox (w_tr w3) = inbox (w_tr w)
    /\ chunk (w_tr w3) = chunk (w_tr w)
    /\ closed (w_tr w3) = false.
Proof.
  intros Hr Hw Hstop Hrn Hcl Hch Hcb.
  assert (Hfuel : (8 < fuel)%nat).
  { destruct cmd_buf as [cb|]; [lia | assumption]. }
  set (st1 := with_priv
                (with_reader st reader
                   (fun r =>
                      set_r_done false
                        (set_r_io {| cmd := cmd (r_io r); buf := bufs;
                                     nb_buf := nb; cleanup_cb := None;
                                     cleanup_cb_d := cleanup_cb_d (r_io r) |}
                                  r)))
                (set_readers (Some reader))).
  assert (Hg : iiod_reader_get_response_async fuel st reader bufs nb
               = Some st1).
  { unfold iiod_reader_get_response_async,
      iiod_reader_enqueue_response_request.
    cbn [with_reader priv]. rewrite Hr. reflexivity. }
  set (slot := command_slot (client_id (heap st reader)) c cmd_buf).
  set (st2 := with_priv
                (with_reader st1 reader
                   (fun r => set_w_done false
                               (set_w_next None (set_w_io slot r))))
                (set_writers (Some reader))).
  assert (He : iiod_reader_send_command_async fuel st1 reader c
                 (single_buf cmd_buf) (is_non_null cmd_buf) None 0
               = Some (0, st2)).
  { unfold iiod_reader_send_command_async, iiod_enqueue_command.
    cbn [with_reader priv]. change (priv st1) with
        (set_readers (Some reader) (priv st)).
    cbn [set_readers writers]. rewrite Hw.
    unfold st2, slot, command_slot, st1. heap_simpl_with upd_same. reflexivity. }
  assert (Hio2 : w_io (heap st2 reader) = slot).
  { unfold st2. heap_simpl_with upd_same. reflexivity. }
  set (st2d := with_priv st2 (set_writers None)).
  destruct (writer_thrd_transfer_pos fuel cmd_w reader st2d w slot)
    as (w2 & evs & Hrun & M1 & M2 & M3 & M4 & M5 & _); auto.
  { unfold slot. destruct cmd_buf; slot_simpl; lia. }
  { split; [exact I|]. unfold slot. destruct cmd_buf as [cb|]; slot_simpl.
    - split; [lia|]. repeat constructor; lia.
    - reflexivity. }
  { unfold slot. destruct cmd_buf as [cb|]; slot_simpl; [|constructor].
    repeat constructor; lia. }
  { unfold slot. destruct cmd_buf as [cb|]; slot_simpl; lia. }
  change (cleanup_cb slot) with (@None callback) in Hrun. cbv iota in Hrun.
  match type of Hrun with
  | _ = (Ret tt, (?s, _)) => set (st3 := s) in *
  end.
  assert (Hpass : writer_pass fuel cmd_w (st2, w) = (st3, w2)).
  { unfold writer_pass, writer_thrd_iteration, writer_thrd_dequeue.
    cbn [fst snd].
    change (thrd_stop (priv st2)) with (thrd_stop (priv st)).
    rewrite Hstop.
    change (writers (priv st2)) with (Some reader).
    assert (Hn : w_next (heap st2 reader) = None)
      by (unfold st2; heap_simpl_with upd_same; reflexivity).
    cbv iota beta. rewrite Hn. fold st2d. rewrite Hrun. reflexivity. }
  exists st1, (with_reader st3 reader (set_w_done false)), w2.
  split; [exact Hg|]. split.
  { unfold iiod_reader_send_command. cbn [fst snd]. rewrite He.
    cbn [negb Z.eqb]. rewrite Hpass. cbn [fst snd].
    unfold iiod_reader_wait_for_command_done.
    assert (Hd : w_done (heap st3 reader) = true)
      by (unfold st3; heap_simpl_with upd_same; reflexivity).
    rewrite Hd. reflexivity. }
  split.
  { unfold waiters_list, st3, st2d, st2, st1. heap_simpl_with upd_same.
    destruct fuel as [|fuel]; [lia|]. rewrite chain_step.
    heap_simpl_with upd_same. rewrite Hrn, chain_none. reflexivity. }
  split.
  { unfold writers_queue, st3, st2d. heap_simpl_with upd_same. apply chain_none. }
  unfold st3, st2d, st2, st1. heap_simpl_with upd_same.
  repeat split; assumption.
Qed.

Lemma to_int32_small x : - 2 ^ 31 <= x < 2 ^ 31 -> to_int32 x = x.
Proof. intros H. unfold to_int32. rewrite Z.mod_small by lia. lia. Qed.

(** After the response has been handed over and the caller has
    returned, both lists are empty again. *)
Lemma exec_lists_empty fuel st3 st5 reader code :
  waiters_list fuel st3 = Some [reader] ->
  writers_queue fuel st3 = Some [] ->
  __iiod_reader_cancel_unlocked fuel st3 reader = Some st5 ->
  writers (priv st5) = writers (priv st3) ->
  waiters_list fuel
    (with_reader (delivered st5 reader code) reader (set_r_done false))
  = Some []
  /\ writers_queue fuel
       (with_reader (delivered st5 reader code) reader (set_r_done false))
     = Some [].
Proof.
  intros Hl Hq Hc Hw.
  unfold waiters_list in Hl. apply chain_cons in Hl. destruct Hl as [Hh _].
  unfold writers_queue in Hq. apply chain_nil in Hq.
  unfold __iiod_reader_cancel_unlocked in Hc. rewrite Hh, Nat.eqb_refl in Hc.
  inversion Hc; subst st5.
  unfold waiters_list, writers_queue, delivered.
  cbn [with_reader with_priv priv heap set_readers readers writers].
  rewrite Hq. split; apply chain_none.
Qed.

(** X15: [iiod_reader_exec_simple_command] on a running responder with
    both lists empty, the writer thread and then the reader thread each
    going once round their loops while the caller sleeps, over an open
    stream on which the peer's response for this handle arrives.  The
    call returns the code of the response, whatever it is; the command
    has gone out as one 8-byte frame carrying the handle's client id;
    exactly the response header has been taken off the stream; both
    lists are empty again. *)
Theorem iiod_reader_exec_simple_command_round_trip fuel cmd_w cmd_r st
    (w : world stream) reader c hdr rest :
  readers (priv st) = None -> writers (priv st) = None ->
  thrd_stop (priv st) = false ->
  r_next (heap st reader) = None ->
  closed (w_tr w) = false -> 0 < chunk (w_tr w) < 2 ^ 63 ->
  inbox (w_tr w) = hdr ++ rest -> length hdr = 8%nat ->
  cmd_op (decode_cmd hdr) = IIOD_OP_RESPONSE ->
  cmd_client_id (decode_cmd hdr) = client_id (heap st reader) ->
  (8 < fuel)%nat ->
  exists st' w',
    iiod_reader_exec_simple_command stream fuel (writer_pass fuel cmd_w)
      (reader_pass fuel cmd_r) (st, w) reader c
    = Some (cmd_code (decode_cmd hdr), (st', w'))
    /\ outbox (w_tr w')
       = outbox (w_tr w)
           ++ encode_cmd {| cmd_client_id := client_id (heap st reader);
                            cmd_op := cmd_op c; cmd_dev := cmd_dev c;
                            cmd_code := cmd_code c |}
    /\ inbox (w_tr w') = rest
    /\ waiters_list fuel st' = Some []
    /\ writers_queue fuel st' = Some [].
Proof.
  intros Hr Hw Hstop Hrn Hcl Hch Hin Hlen Hop Hid Hfuel.
  destruct (exec_send_phase fuel cmd_w st w reader c None None 0
              Hr Hw Hstop Hrn Hcl Hch Hfuel)
    as (st1 & st3 & w3 & Hg & Hsend & Hl3 & Hq3 & Hid3 & Hb3 & Hn3 & M1 & M2
        & M3 & M4 & M5).
  destruct (reader_thrd_iteration_no_payload fuel st3 w3 cmd_r hdr rest []
              reader [])
    as (w' & st5 & Hc & Hw5 & _ & Hit & _ & P2 & P3 & _); auto;
    try congruence.
  exists (with_reader (delivered st5 reader (cmd_code (decode_cmd hdr))) reader
            (set_r_done false)), w'.
  split.
  { unfold iiod_reader_exec_simple_command, iiod_reader_exec_command.
    cbn [fst snd single_buf is_non_null].
    cbn [single_buf is_non_null] in Hg, Hsend. rewrite Hg, Hsend.
    change (0 <? 0) with false. cbv iota.
    unfold reader_pass. rewrite Hit. cbn [fst snd].
    rewrite delivered_wait.
    rewrite to_int32_small by apply decode_cmd_code_range. reflexivity. }
  split.
  { rewrite P3, M2. unfold frame_bytes, command_slot.
    cbn [nb_buf is_non_null buf single_buf cmd].
    change (32 <=? 0) with false. cbv iota.
    change (Z.to_nat 0) with 0%nat. cbn [firstn gather].
    rewrite app_nil_r. reflexivity. }
  split; [assumption|].
  eapply exec_lists_empty; eassumption.
Qed.

(** X16: [iiod_reader_exec_command] with a command payload and a buffer
    for the response, in the same setting, the response announcing a
    payload that fits the buffer.  The call returns the code; the
    command header and its payload have gone out as one frame; the
    response payload is in the buffer, whatever the sizes of the single
    reads; the stream is at the next frame and both lists are empty
    again. *)
Theorem iiod_reader_exec_command_round_trip fuel cmd_w cmd_r st
    (w : world stream) reader c cb rb hdr payload rest :
  readers (priv st) = None -> writers (priv st) = None ->
  thrd_stop (priv st) = false ->
  r_next (heap st reader) = None ->
  closed (w_tr w) = false -> 0 < chunk (w_tr w) < 2 ^ 63 ->
  0 < size cb < 2 ^ 64 -> 0 < size rb < 2 ^ 64 ->
  inbox (w_tr w) = hdr ++ payload ++ rest -> length hdr = 8%nat ->
  cmd_op (decode_cmd hdr) = IIOD_OP_RESPONSE ->
  cmd_client_id (decode_cmd hdr) = client_id (heap st reader) ->
  Z.of_nat (length payload) = cmd_code (decode_cmd hdr) ->
  0 < cmd_code (decode_cmd hdr) <= size rb ->
  8 + size cb < Z.of_nat fuel -> cmd_code (decode_cmd hdr) < Z.of_nat fuel ->
  exists st' w',
    iiod_reader_exec_command stream fuel (writer_pass fuel cmd_w)
      (reader_pass fuel cmd_r) (st, w) reader c (Some cb) (Some rb)
    = Some (cmd_code (decode_cmd hdr), (st', w'))
    /\ outbox (w_tr w')
       = outbox (w_tr w)
           ++ frame_bytes cmd_w (w_mem w)
                (command_slot (client_id (heap st reader)) c (Some cb))
    /\ w_mem w'
       = store_bytes
           (store_bytes
              (store_bytes (w_mem w) cmd_w
                 (encode_cmd
                    (cmd (command_slot (client_id (heap st reader)) c
                                       (Some cb)))))
              cmd_r hdr)
           (ptr rb) payload
    /\ inbox (w_tr w') = rest
    /\ waiters_list fuel st' = Some []
    /\ writers_queue fuel st' = Some [].
Proof.
  intros Hr Hw Hstop Hrn Hcl Hch Hcb Hrb Hin Hlen Hop Hid Hpl Hfit Hfuel
         Hfuel'.
  destruct (exec_send_phase fuel cmd_w st w reader c (Some cb)
              (single_buf (Some rb)) (is_non_null (Some rb))
              Hr Hw Hstop Hrn Hcl Hch (conj Hcb Hfuel))
    as (st1 & st3 & w3 & Hg & Hsend & Hl3 & Hq3 & Hid3 & Hb3 & Hn3 & M1 & M2
        & M3 & M4 & M5).
  destruct (reader_thrd_iteration_fitting fuel st3 w3 cmd_r hdr payload rest
              [] reader [] rb [] 1)
    as (st5 & w' & Hc & Hw5 & _ & Hit & P1 & _ & P3 & P4); auto;
    try congruence; try lia.
  { cbn [length]. lia. }
  { change (Z.to_nat 1) with 1%nat. cbn [firstn].
    constructor; [lia | constructor]. }
  exists (with_reader (delivered st5 reader (cmd_code (decode_cmd hdr))) reader
            (set_r_done false)), w'.
  split.
  { unfold iiod_reader_exec_command.
    cbn [fst snd]. rewrite Hg, Hsend.
    change (0 <? 0) with false. cbv iota.
    unfold reader_pass. rewrite Hit. cbn [fst snd].
    rewrite delivered_wait.
    rewrite to_int32_small by apply decode_cmd_code_range. reflexivity. }
  split; [rewrite P4, M2; reflexivity|].
  split; [rewrite P1, M1; reflexivity|].
  split; [assumption|].
  eapply exec_lists_empty; eassumption.
Qed.

Lemma iiod_reader_exec_simple_command_round_trip_witness :
  exists st' w',
    iiod_reader_exec_simple_command stream 16 (writer_pass 16 cmd_addr)
      (reader_pass 16 cmd_addr_r)
      (one_idle, incoming (error_frame ++ print_frame) 3) 1%nat version_cmd
    = Some (cmd_code (decode_cmd error_frame), (st', w'))
    /\ outbox (w_tr w')
       = outbox (w_tr (incoming (error_frame ++ print_frame) 3))
           ++ encode_cmd {| cmd_client_id := client_id (heap one_idle 1%nat);
                            cmd_op := cmd_op version_cmd;
                            cmd_dev := cmd_dev version_cmd;
                            cmd_code := cmd_code version_cmd |}
    /\ inbox (w_tr w') = print_frame
    /\ waiters_list 16 st' = Some []
    /\ writers_queue 16 st' = Some [].
Proof.
  apply (iiod_reader_exec_simple_command_round_trip 16 cmd_addr cmd_addr_r
           one_idle (incoming (error_frame ++ print_frame) 3) 1%nat
           version_cmd error_frame print_frame).
  - reflexivity.
  - reflexivity.
  - reflexivity.
  - reflexivity.
  - reflexivity.
  - cbn. lia.
  - reflexivity.
  - reflexivity.
  - reflexivity.
  - reflexivity.
  - lia.
Defined.

Lemma iiod_reader_exec_command_round_trip_witness :
  exists st' w',
    iiod_reader_exec_command stream 16 (writer_pass 16 cmd_addr)
      (reader_pass 16 cmd_addr_r)
      (one_idle,
       incoming (response_frame 42 5 ++ repeat x41 5 ++ print_frame) 3)
      1%nat version_cmd (Some {| ptr := 2000; size := 2 |})
      (Some {| ptr := 3000; size := 8 |})
    = Some (5, (st', w'))
    /\ outbox (w_tr w')
       = encode_cmd {| cmd_client_id := 42; cmd_op := IIOD_OP_VERSION;
                       cmd_dev := 0; cmd_code := 0 |} ++ [x00; x00]
    /\ load_bytes (w_mem w') 3000 5 = repeat x41 5
    /\ inbox (w_tr w') = print_frame
    /\ waiters_list 16 st' = Some []
    /\ writers_queue 16 st' = Some [].
Proof.
  destruct (iiod_reader_exec_command_round_trip 16 cmd_addr cmd_addr_r
              one_idle
              (incoming (response_frame 42 5 ++ repeat x41 5 ++ print_frame) 3)
              1%nat version_cmd {| ptr := 2000; size := 2 |}
              {| ptr := 3000; size := 8 |} (response_frame 42 5)
              (repeat x41 5) print_frame)
    as (st' & w' & H1 & H2 & H3 & H4 & H5 & H6).
  - reflexivity.
  - reflexivity.
  - reflexivity.
  - reflexivity.
  - reflexivity.
  - cbn. lia.
  - cbn. lia.
  - cbn. lia.
  - reflexivity.
  - reflexivity.
  - reflexivity.
  - reflexivity.
  - reflexivity.
  - vm_compute. split; [reflexivity | discriminate].
  - cbn. lia.
  - vm_compute. reflexivity.
  - exists st', w'. split; [exact H1|]. split; [rewrite H2; reflexivity|].
    split; [rewrite H3; reflexivity|]. repeat split; assumption.
Defined.

(* ------------------------------------------------------------------ *)
(** ** The life of a responder *)

(** X17: creation and destruction of the responder, for every
    combination of failing steps.  When [iiod_responder_create] returns
    [NULL], what it had created it has destroyed, in reverse order.  When
    it returns a responder it has destroyed nothing, and
    [iiod_responder_destroy] then joins the reader thread, joins the
    writer thread, and destroys the condition variable, the three locks
    and the structure, in that order; this includes a join of the writer
    thread in the one case in which a responder is returned although
    that thread was not created. *)
Theorem iiod_responder_lifecycle (env : create_env) :
  match iiod_responder_create env with
  | (Some p, log) =>
      destroyed log = []
      /\ created log
         = [Res_priv; Res_lock; Res_rlock; Res_wlock; Res_wcond; Res_read_thrd]
             ++ (if write_thrd_ok env then [Res_write_thrd] else [])
      /\ readers p = None /\ writers p = None /\ thrd_stop p = false
      /\ next_client_id p = 0
      /\ destroyed (iiod_responder_destroy p log)
         = [Res_read_thrd; Res_write_thrd; Res_wcond; Res_wlock; Res_rlock;
            Res_lock; Res_priv]
      /\ created (iiod_responder_destroy p log) = created log
  | (None, log) => destroyed log = rev (created log)
  end.
Proof.
  destruct env as [[] [] [] [] [] [] []]; vm_compute; repeat split.
Qed.

(** X18: [iiod_responder_wait_done] leaves both thread pointers
    [NULL], sets [thrd_stop] when it joins the writer thread, and joins
    each thread once at most: a second call, such as the one
    [iiod_responder_destroy] makes, joins nothing and changes nothing. *)
Theorem iiod_responder_wait_done_once (p : iiod_responder)
    (log : list res_event) :
  read_thrd (fst (iiod_responder_wait_done p log)) = Thrd_null
  /\ write_thrd (fst (iiod_responder_wait_done p log)) = Thrd_null
  /\ (write_thrd p <> Thrd_null ->
      thrd_stop (fst (iiod_responder_wait_done p log)) = true)
  /\ iiod_responder_wait_done (fst (iiod_responder_wait_done p log))
                              (snd (iiod_responder_wait_done p log))
     = iiod_responder_wait_done p log
  /\ iiod_responder_destroy (fst (iiod_responder_wait_done p log))
                            (snd (iiod_responder_wait_done p log))
     = snd (iiod_responder_wait_done p log)
         ++ [Destroyed Res_wcond; Destroyed Res_wlock; Destroyed Res_rlock;
             Destroyed Res_lock; Destroyed Res_priv].
Proof.
  unfold iiod_responder_destroy, iiod_responder_wait_done.
  destruct p as [rd id lk rl wl rt wt wr wc ts].
  destruct rt, wt; cbn; repeat split; intros; congruence.
Qed.

(* ------------------------------------------------------------------ *)
(** ** Cancelling away from the heads *)

(** X19: [iiod_reader_cancel] of a handle that is at the head of
    neither list.  The handle is unlinked from the waiters list and from
    the writers queue, the other handles keep their places and their
    order, and a list the handle is not on is left as it was. *)
Theorem iiod_reader_cancel_elsewhere fuel st reader lr lw :
  waiters_list fuel st = Some lr -> NoDup lr ->
  writers_queue fuel st = Some lw -> NoDup lw ->
  readers (priv st) <> Some reader -> writers (priv st) <> Some reader ->
  exists st',
    iiod_reader_cancel fuel st reader = Some st'
    /\ waiters_list fuel st' = Some (remove Nat.eq_dec reader lr)
    /\ writers_queue fuel st' = Some (remove Nat.eq_dec reader lw)
    /\ (~ In reader lr -> waiters_list fuel st' = Some lr)
    /\ (~ In reader lw -> writers_queue fuel st' = Some lw).
Proof.
  intros. apply iiod_reader_cancel_not_head; assumption.
Qed.

Lemma iiod_reader_cancel_elsewhere_witness :
  exists st',
    iiod_reader_cancel 4 three_queued 2%nat = Some st'
    /\ waiters_list 4 st' = Some [1%nat; 3%nat]
    /\ writers_queue 4 st' = Some [3%nat; 1%nat].
Proof.
  destruct (iiod_reader_cancel_elsewhere 4 three_queued 2%nat
              [1%nat; 2%nat; 3%nat] [3%nat; 2%nat; 1%nat])
    as (st' & H1 & H2 & H3 & _).
  - reflexivity.
  - repeat constructor; cbn; intuition lia.
  - reflexivity.
  - repeat constructor; cbn; intuition lia.
  - discriminate.
  - discriminate.
  - exists st'. split; [exact H1|]. split; [exact H2 | exact H3].
Defined.

(* ------------------------------------------------------------------ *)
(** ** Answering a command *)

(** X20: answering a command from inside the [cmd] callback.  A handle
    made by [iiod_command_create_reader] takes the client id of the
    command and consumes no id of the responder's own; a response code
    sent through it with [iiod_reader_send_response_code], the writer
    thread going once round its loop, leaves the stream as one 8-byte
    frame with that client id, the op [RESPONSE], dev 0 and the code as
    an [int32_t]; the call returns 0. *)
Theorem iiod_command_response_tagged fuel cmd_w st (w : world stream) c
    reader code :
  writers (priv st) = None -> thrd_stop (priv st) = false ->
  closed (w_tr w) = false -> 0 < chunk (w_tr w) < 2 ^ 63 ->
  (8 < fuel)%nat ->
  exists st1 st' w',
    iiod_command_create_reader st c (Some reader) true = (Some reader, st1)
    /\ client_id (heap st1 reader) = cmd_client_id c
    /\ priv st1 = priv st
    /\ iiod_reader_send_response_code stream fuel (writer_pass fuel cmd_w)
         (st1, w) reader code
       = Some (0, (st', w'))
    /\ outbox (w_tr w')
       = outbox (w_tr w)
           ++ encode_cmd {| cmd_client_id := cmd_client_id c;
                            cmd_op := IIOD_OP_RESPONSE; cmd_dev := 0;
                            cmd_code := to_int32 code |}
    /\ inbox (w_tr w') = inbox (w_tr w)
    /\ next_client_id (priv st') = next_client_id (priv st)
    /\ readers (priv st') = readers (priv st)
    /\ writers (priv st') = None.
Proof.
  intros Hw Hstop Hcl Hch Hfuel.
  set (st1 := with_reader (with_reader st reader (fun _ => zero_reader)) reader
                (set_client_id (cmd_client_id c))).
  set (slot := {| cmd := {| cmd_client_id := cmd_client_id c;
                            cmd_op := IIOD_OP_RESPONSE; cmd_dev := 0;
                            cmd_code := to_int32 code |};
                  buf := None; nb_buf := 0;
                  cleanup_cb := None; cleanup_cb_d := 0 |}).
  set (st2 := with_priv
                (with_reader st1 reader
                   (fun r => set_w_done false
                               (set_w_next None (set_w_io slot r))))
                (set_writers (Some reader))).
  assert (He : iiod_reader_send_response_async fuel st1 reader code None 0
                 None 0 = Some (0, st2)).
  { unfold iiod_reader_send_response_async, iiod_enqueue_command.
    cbn [with_reader priv]. change (priv st1) with (priv st). rewrite Hw.
    unfold st2, slot, st1. heap_simpl_with upd_same. reflexivity. }
  set (st2d := with_priv st2 (set_writers None)).
  destruct (writer_thrd_transfer_pos fuel cmd_w reader st2d w slot)
    as (w2 & evs & Hrun & M1 & M2 & M3 & M4 & M5 & _); auto.
  { unfold st2d, st2. heap_simpl_with upd_same. reflexivity. }
  { cbn [slot nb_buf]. lia. }
  { split; [exact I|]. reflexivity. }
  { constructor. }
  { unfold payload_descriptors. cbn [slot buf nb_buf].
    change (Z.to_nat 0) with 0%nat. cbn [firstn capacity]. lia. }
  change (cleanup_cb slot) with (@None callback) in Hrun. cbv iota in Hrun.
  match type of Hrun with
  | _ = (Ret tt, (?s, _)) => set (st3 := s) in *
  end.
  assert (Hpass : writer_pass fuel cmd_w (st2, w) = (st3, w2)).
  { unfold writer_pass, writer_thrd_iteration, writer_thrd_dequeue.
    cbn [fst snd].
    change (thrd_stop (priv st2)) with (thrd_stop (priv st)).
    rewrite Hstop.
    change (writers (priv st2)) with (Some reader).
    assert (Hn : w_next (heap st2 reader) = None)
      by (unfold st2; heap_simpl_with upd_same; reflexivity).
    cbv iota beta. rewrite Hn. fold st2d. rewrite Hrun. reflexivity. }
  exists st1, (with_reader st3 reader (set_w_done false)), w2.
  split; [reflexivity|].
  split; [unfold st1; heap_simpl_with upd_same; reflexivity|].
  split; [reflexivity|].
  split.
  { unfold iiod_reader_send_response_code, iiod_reader_send_response.
    cbn [fst snd]. rewrite He.
    cbn [negb Z.eqb]. rewrite Hpass. cbn [fst snd].
    unfold iiod_reader_wait_for_command_done.
    assert (Hd : w_done (heap st3 reader) = true)
      by (unfold st3; heap_simpl_with upd_same; reflexivity).
    rewrite Hd. reflexivity. }
  split.
  { rewrite M2. unfold frame_bytes. cbn [slot nb_buf buf cmd].
    change (32 <=? 0) with false. cbv iota.
    change (Z.to_nat 0) with 0%nat. cbn [firstn gather].
    rewrite app_nil_r. reflexivity. }
  split; [assumption|].
  repeat split.
Qed.

Lemma iiod_command_response_tagged_witness :
  exists st1 st' w',
    iiod_command_create_reader three_waiting version_cmd (Some 4%nat) true
    = (Some 4%nat, st1)
    /\ client_id (heap st1 4%nat) = cmd_client_id version_cmd
    /\ priv st1 = priv three_waiting
    /\ iiod_reader_send_response_code stream 16 (writer_pass 16 cmd_addr)
         (st1, incoming [] 3) 4%nat (- EINVAL)
       = Some (0, (st', w'))
    /\ outbox (w_tr w')
       = outbox (w_tr (incoming [] 3))
           ++ encode_cmd {| cmd_client_id := cmd_client_id version_cmd;
                            cmd_op := IIOD_OP_RESPONSE; cmd_dev := 0;
                            cmd_code := to_int32 (- EINVAL) |}
    /\ inbox (w_tr w') = inbox (w_tr (incoming [] 3))
    /\ next_client_id (priv st') = next_client_id (priv three_waiting)
    /\ readers (priv st') = readers (priv three_waiting)
    /\ writers (priv st') = None.
Proof.
  apply (iiod_command_response_tagged 16 cmd_addr three_waiting
           (incoming [] 3) version_cmd 4%nat (- EINVAL)).
  - reflexivity.
  - reflexivity.
  - reflexivity.
  - cbn. lia.
  - lia.
Defined.

(* ------------------------------------------------------------------ *)
(** ** A handle that receives a stream of responses *)

(** X21: two responses in a row for one handle that waits without a
    buffer and is alone on the waiters list.  After the reader thread
    has handed over the first, [iiod_reader_get_and_request_response]
    returns its code and puts the handle back on the list; the reader
    thread then hands over the second, which
    [iiod_reader_wait_for_response] returns.  Exactly the two headers
    are taken off the stream. *)
Theorem iiod_reader_two_responses fuel cmd_r st (w : world stream) reader
    hdr1 hdr2 rest :
  waiters_list fuel st = Some [reader] ->
  buf (r_io (heap st reader)) = None ->
  0 < chunk (w_tr w) < 2 ^ 63 ->
  inbox (w_tr w) = hdr1 ++ hdr2 ++ rest ->
  length hdr1 = 8%nat -> length hdr2 = 8%nat ->
  cmd_op (decode_cmd hdr1) = IIOD_OP_RESPONSE ->
  cmd_op (decode_cmd hdr2) = IIOD_OP_RESPONSE ->
  cmd_client_id (decode_cmd hdr1) = client_id (heap st reader) ->
  cmd_client_id (decode_cmd hdr2) = client_id (heap st reader) ->
  (8 < fuel)%nat ->
  exists st2 st4,
    iiod_reader_get_and_request_response fuel
      (fst (reader_pass fuel cmd_r (st, w))) reader None 0
    = Some (cmd_code (decode_cmd hdr1), st2)
    /\ waiters_list fuel st2 = Some [reader]
    /\ iiod_reader_wait_for_response
         (fst (reader_pass fuel cmd_r
                 (st2, snd (reader_pass fuel cmd_r (st, w))))) reader
       = Some (cmd_code (decode_cmd hdr2), st4)
    /\ inbox (w_tr (snd (reader_pass fuel cmd_r
                           (st2, snd (reader_pass fuel cmd_r (st, w))))))
       = rest.
Proof.
  intros Hl Hbuf Hch Hin Hlen1 Hlen2 Hop1 Hop2 Hid1 Hid2 Hfuel.
  assert (Hrn : r_next (heap st reader) = None).
  { unfold waiters_list in Hl. apply chain_cons in Hl.
    destruct Hl as [_ (f & _ & Hc)]. apply chain_nil in Hc. exact Hc. }
  assert (Hhead : readers (priv st) = Some reader).
  { unfold waiters_list in Hl. apply chain_cons in Hl.
    destruct Hl as [E _]. exact E. }
  destruct (reader_thrd_iteration_no_payload fuel st w cmd_r hdr1
              (hdr2 ++ rest) [] reader [])
    as (w1 & st1 & Hc & _ & _ & Hit & _ & P2 & _ & _ & P5 & _); auto.
  assert (Hst1 : st1 = with_priv st (set_readers None)).
  { unfold __iiod_reader_cancel_unlocked in Hc.
    rewrite Hhead, Nat.eqb_refl in Hc. inversion Hc. reflexivity. }
  set (code1 := cmd_code (decode_cmd hdr1)) in *.
  assert (Hp1 : reader_pass fuel cmd_r (st, w)
                = (delivered st1 reader code1, w1)).
  { unfold reader_pass. rewrite Hit. reflexivity. }
  rewrite Hp1. cbn [fst snd].
  set (sta := with_reader (delivered st1 reader code1) reader
                (set_r_done false)).
  assert (Hrd : iiod_reader_read_response (delivered st1 reader code1) reader
                  false = Some (code1, sta)).
  { unfold iiod_reader_read_response, wait_for_response, delivered.
    heap_simpl_with upd_same. reflexivity. }
  destruct (enqueue_response_request_appends fuel sta reader None 0 false [])
    as (st2 & He & Hl2 & Hio2 & _ & _); auto.
  { unfold waiters_list, sta, delivered. rewrite Hst1. heap_simpl_with upd_same.
    reflexivity. }
  { unfold sta, delivered. rewrite Hst1. heap_simpl_with upd_same. exact Hrn. }
  { cbn [length]. lia. }
  cbn [app length] in Hl2.
  assert (Hl2' : waiters_list fuel st2 = Some [reader]).
  { unfold waiters_list in *. eapply chain_more_fuel; [exact Hl2 | lia]. }
  assert (Hid : client_id (heap st2 reader) = client_id (heap st reader)).
  { unfold iiod_reader_enqueue_response_request in He.
    cbn [with_reader priv] in He.
    change (priv sta) with (priv st1) in He. rewrite Hst1 in He.
    cbn [with_priv priv set_readers readers] in He.
    inversion He. unfold sta, delivered. heap_simpl_with upd_same.
    rewrite Hst1. reflexivity. }
  destruct (reader_thrd_iteration_no_payload fuel st2 w1 cmd_r hdr2 rest []
              reader [])
    as (w3 & st3 & _ & _ & _ & Hit2 & _ & Q2 & _); auto; try congruence.
  { left. rewrite Hio2. reflexivity. }
  assert (Hp2 : reader_pass fuel cmd_r (st2, w1)
                = (delivered st3 reader (cmd_code (decode_cmd hdr2)), w3)).
  { unfold reader_pass. rewrite Hit2. reflexivity. }
  exists st2. eexists. split.
  { unfold iiod_reader_get_and_request_response. rewrite Hrd, He.
    reflexivity. }
  split; [exact Hl2'|].
  rewrite Hp2. cbn [fst snd].
  split; [apply delivered_wait | exact Q2].
Qed.

Lemma iiod_reader_two_responses_witness :
  exists st2 st4,
    iiod_reader_get_and_request_response 9
      (fst (reader_pass 9 cmd_addr_r
              (one_waiting None 0,
               incoming (response_frame 42 7 ++ response_frame 42 (- EPIPE)
                           ++ print_frame) 3)))
      1%nat None 0
    = Some (cmd_code (decode_cmd (response_frame 42 7)), st2)
    /\ waiters_list 9 st2 = Some [1%nat]
    /\ iiod_reader_wait_for_response
         (fst (reader_pass 9 cmd_addr_r
                 (st2,
                  snd (reader_pass 9 cmd_addr_r
                         (one_waiting None 0,
                          incoming (response_frame 42 7
                                      ++ response_frame 42 (- EPIPE)
                                      ++ print_frame) 3)))))
         1%nat
       = Some (cmd_code (decode_cmd (response_frame 42 (- EPIPE))), st4)
    /\ inbox (w_tr (snd (reader_pass 9 cmd_addr_r
                           (st2,
                            snd (reader_pass 9 cmd_addr_r
                                   (one_waiting None 0,
                                    incoming (response_frame 42 7
                                                ++ response_frame 42 (- EPIPE)
                                                ++ print_frame) 3))))))
       = print_frame.
Proof.
  apply (iiod_reader_two_responses 9 cmd_addr_r (one_waiting None 0)
           (incoming (response_frame 42 7 ++ response_frame 42 (- EPIPE)
                        ++ print_frame) 3)
           1%nat (response_frame 42 7) (response_frame 42 (- EPIPE))
           print_frame).
  - reflexivity.
  - reflexivity.
  - cbn. lia.
  - reflexivity.
  - reflexivity.
  - reflexivity.
  - reflexivity.
  - reflexivity.
  - reflexivity.
  - reflexivity.
  - lia.
Defined.

(* ------------------------------------------------------------------ *)
(** ** The writer thread empties its queue *)

Lemma frames_from_ext cmd_ptr st st' : forall q m,
  (forall p, In p q -> w_io (heap st' p) = w_io (heap st p)) ->
  frames_from cmd_ptr m st' q = frames_from cmd_ptr m st q.
Proof.
  induction q as [|p q IH]; intros m H; [reflexivity|].
  cbn [frames_from]. rewrite (H p) by (left; reflexivity).
  rewrite IH; [reflexivity|]. intros x Hx. apply H. right. assumption.
Qed.

(** X22: [iiod_responder_writer_thrd] on a running responder whose queue
    holds the handles [q], each with a frame it can send, over an open
    stream.  The thread sends the frames in queue order, each in full,
    and then sleeps on the empty queue; every handle of [q] has [w_done]
    set and the size of its frame in [w_io.cmd.code]; no other handle is
    touched. *)
Theorem iiod_responder_writer_thrd_drains cmd_ptr : forall q fuel st
    (w : world stream),
  writers_queue (length q) st = Some q ->
  thrd_stop (priv st) = false ->
  closed (w_tr w) = false -> 0 < chunk (w_tr w) < 2 ^ 63 ->
  Forall (fun p => sendable (w_io (heap st p))) q ->
  Forall (fun p => frame_size (w_io (heap st p)) + Z.of_nat (length q)
                   < Z.of_nat fuel) q ->
  (length q < fuel)%nat ->
  exists st' w',
    iiod_responder_writer_thrd stream stream_ops fuel cmd_ptr (st, w)
    = (Ret Sleeping, (st', w'))
    /\ writers_queue fuel st' = Some []
    /\ Forall (fun p =>
                 w_done (heap st' p) = true
                 /\ w_io (heap st' p)
                    = set_io_code (w_io (heap st p))
                        (to_int32 (frame_size (w_io (heap st p))))) q
    /\ (forall p, ~ In p q -> heap st' p = heap st p)
    /\ outbox (w_tr w')
       = outbox (w_tr w) ++ frames_from cmd_ptr (w_mem w) st q
    /\ inbox (w_tr w') = inbox (w_tr w).
Proof.
  induction q as [|p q IH]; intros fuel st w Hq Hstop Hcl Hch Hsend Hsize Hfuel.
  - destruct fuel as [|fuel]; [cbn [length] in Hfuel; lia|].
    unfold writers_queue in Hq. apply chain_nil in Hq.
    exists st, w. split.
    { cbn [iiod_responder_writer_thrd]. unfold writer_thrd_iteration,
        writer_thrd_dequeue. cbn [fst snd]. rewrite Hstop, Hq. reflexivity. }
    split; [unfold writers_queue; rewrite Hq; apply chain_none|].
    split; [constructor|]. split; [reflexivity|].
    cbn [frames_from]. rewrite app_nil_r. split; reflexivity.
  - destruct fuel as [|fuel]; [cbn [length] in Hfuel; lia|].
    pose proof (chain_NoDup _ _ _ _ _ Hq) as Hnd.
    inversion Hnd as [|p' q' Hpin Hnd']; subst p' q'.
    unfold writers_queue in Hq. cbn [length] in Hq.
    pose proof Hq as Hq0.
    apply chain_cons in Hq. destruct Hq as [Hhead (f & Ef & Hq)].
    inversion Ef; subst f. clear Ef.
    inversion Hsend as [|p' q' [Hnb [Hdesc Hpos]] Hsend']; subst p' q'.
    inversion Hsize as [|p' q' Hsz Hsize']; subst p' q'.
    cbn [length] in Hsz, Hfuel. unfold frame_size in Hsz.
    set (wio := w_io (heap st p)) in *.
    set (std := with_priv st (set_writers (w_next (heap st p)))).
    destruct (writer_thrd_transfer_pos (S fuel) cmd_ptr p std w wio)
      as (w2 & evs & Hrun & M1 & M2 & M3 & M4 & M5 & _); auto; try lia.
    match type of Hrun with
    | _ = (Ret tt, (?s, ?x)) => set (st3 := s) in *; set (w3 := x) in *
    end.
    assert (Hw3 : w_tr w3 = w_tr w2 /\ w_mem w3 = w_mem w2).
    { unfold w3. destruct (cleanup_cb wio); [|split; reflexivity].
      destruct (negb (nb_buf wio =? 0)); split; reflexivity. }
    destruct Hw3 as [Ht3 Hm3].
    assert (Hoth : forall x, x <> p -> heap st3 x = heap st x).
    { intros x Hx. unfold st3, std. cbn [with_reader with_priv heap].
      apply upd_other. assumption. }
    destruct (IH fuel st3 w3) as (st' & w' & Hr & R1 & R2 & R3 & R4 & R5).
    + unfold writers_queue. unfold st3, std.
      cbn [with_reader with_priv priv set_writers writers].
      fold std. fold st3.
      eapply chain_frame; [exact Hq|].
      intros x Hx. rewrite Hoth; [reflexivity|]. intros ->. contradiction.
    + exact Hstop.
    + rewrite Ht3. assumption.
    + rewrite Ht3, M4. assumption.
    + rewrite Forall_forall in Hsend' |- *. intros x Hx.
      rewrite Hoth by (intros ->; contradiction). apply Hsend'. assumption.
    + rewrite Forall_forall in Hsize' |- *. intros x Hx.
      rewrite Hoth by (intros ->; contradiction).
      specialize (Hsize' x Hx). cbn [length] in Hsize'. lia.
    + lia.
    + exists st', w'. split.
      { cbn [iiod_responder_writer_thrd]. unfold writer_thrd_iteration,
          writer_thrd_dequeue. cbn [fst snd]. rewrite Hstop, Hhead.
        fold std. rewrite Hrun. cbn [obind]. exact Hr. }
      split.
      { unfold writers_queue in *. apply chain_nil in R1. rewrite R1.
        apply chain_none. }
      split.
      { constructor.
        - rewrite (R3 p Hpin). unfold st3. cbn [with_reader heap].
          rewrite upd_same. split; reflexivity.
        - rewrite Forall_forall in R2 |- *. intros x Hx.
          destruct (R2 x Hx) as [D1 D2]. split; [assumption|].
          rewrite D2, Hoth by (intros ->; contradiction). reflexivity. }
      split.
      { intros x Hx. rewrite R3 by (intros C; apply Hx; right; assumption).
        apply Hoth. intros ->. apply Hx. left. reflexivity. }
      split.
      { rewrite R4, Ht3, M2, Hm3, M1, <- app_assoc. f_equal.
        cbn [frames_from]. fold wio. f_equal.
        apply frames_from_ext. intros x Hx. rewrite Hoth; [reflexivity|].
        intros ->. contradiction. }
      rewrite R5, Ht3, M3. reflexivity.
Qed.

Lemma iiod_responder_writer_thrd_drains_witness :
  exists st' w',
    iiod_responder_writer_thrd stream stream_ops 16 cmd_addr
      (two_enqueued, incoming [] 3)
    = (Ret Sleeping, (st', w'))
    /\ writers_queue 16 st' = Some []
    /\ Forall (fun p =>
                 w_done (heap st' p) = true
                 /\ w_io (heap st' p)
                    = set_io_code (w_io (heap two_enqueued p))
                        (to_int32 (frame_size (w_io (heap two_enqueued p)))))
              [2%nat; 1%nat]
    /\ (forall p, ~ In p [2%nat; 1%nat] -> heap st' p = heap two_enqueued p)
    /\ outbox (w_tr w')
       = outbox (w_tr (incoming [] 3))
           ++ frames_from cmd_addr (w_mem (incoming [] 3)) two_enqueued
                [2%nat; 1%nat]
    /\ inbox (w_tr w') = inbox (w_tr (incoming [] 3)).
Proof.
  apply (iiod_responder_writer_thrd_drains cmd_addr [2%nat; 1%nat] 16
           two_enqueued (incoming [] 3)).
  - reflexivity.
  - reflexivity.
  - reflexivity.
  - cbn. lia.
  - repeat constructor; vm_compute; congruence.
  - repeat constructor.
  - cbn. lia.
Defined.

(* ------------------------------------------------------------------ *)
(** ** Waiting for a response *)



(** X24: two handles wait, and the responses arrive in the order in
    which the handles registered.  The reader thread hands the first
    response to the handle at the head of the list and, unlinking it,
    empties the list; the second response then finds no waiter: it is
    skipped with its payload, and the second handle is neither woken nor
    written to. *)
Theorem reader_thrd_second_response_lost fuel cmd_r st (w : world stream)
    r1 r2 l hdr1 hdr2 payload2 rest :
  waiters_list fuel st = Some (r1 :: r2 :: l) ->
  client_id (heap st r1) = cmd_client_id (decode_cmd hdr1) ->
  client_id (heap st r2) = cmd_client_id (decode_cmd hdr2) ->
  buf (r_io (heap st r1)) = None \/ cmd_code (decode_cmd hdr1) <= 0 ->
  0 < chunk (w_tr w) < 2 ^ 63 ->
  inbox (w_tr w) = hdr1 ++ hdr2 ++ payload2 ++ rest ->
  length hdr1 = 8%nat -> length hdr2 = 8%nat ->
  cmd_op (decode_cmd hdr1) = IIOD_OP_RESPONSE ->
  cmd_op (decode_cmd hdr2) = IIOD_OP_RESPONSE ->
  Z.of_nat (length payload2) = cmd_code (decode_cmd hdr2) ->
  (8 < fuel)%nat -> cmd_code (decode_cmd hdr2) <= Z.of_nat fuel ->
  exists st' w',
    reader_pass fuel cmd_r (reader_pass fuel cmd_r (st, w)) = (st', w')
    /\ iiod_reader_wait_for_response st' r1
       = Some (cmd_code (decode_cmd hdr1),
               with_reader st' r1 (set_r_done false))
    /\ r_done (heap st' r2) = r_done (heap st r2)
    /\ r_io (heap st' r2) = r_io (heap st r2)
    /\ waiters_list fuel st' = Some []
    /\ inbox (w_tr w') = rest
    /\ discarded (w_log w')
       = discarded (w_log w) + cmd_code (decode_cmd hdr2).
Proof.
  intros Hl Hid1 Hid2 Hnone Hch Hin Hlen1 Hlen2 Hop1 Hop2 Hpl Hfuel Hfuel'.
  pose proof (chain_NoDup _ _ _ _ _ Hl) as Hnd.
  assert (Hne : r2 <> r1).
  { inversion Hnd as [|? ? Hx _]; subst. intros ->. apply Hx. left.
    reflexivity. }
  destruct (reader_thrd_iteration_no_payload fuel st w cmd_r hdr1
              (hdr2 ++ payload2 ++ rest) [] r1 (r2 :: l))
    as (w1 & st1 & Hc & _ & _ & Hit & _ & P2 & _ & P4 & P5 & _); auto.
  assert (Hst1 : st1 = with_priv st (set_readers None)).
  { unfold waiters_list in Hl. apply chain_cons in Hl. destruct Hl as [Hh _].
    unfold __iiod_reader_cancel_unlocked in Hc.
    rewrite Hh, Nat.eqb_refl in Hc. inversion Hc. reflexivity. }
  set (code1 := cmd_code (decode_cmd hdr1)) in *.
  set (sta := delivered st1 r1 code1).
  assert (Hla : waiters_list fuel sta = Some []).
  { unfold waiters_list, sta, delivered. rewrite Hst1. heap_simpl_with upd_same.
    apply chain_none. }
  assert (Hcode2 : 0 <= cmd_code (decode_cmd hdr2)) by lia.
  destruct (reader_thrd_orphan_discards fuel sta w1 cmd_r hdr2 payload2 rest
              [])
    as (w2 & Hit2 & Q1 & Q2 & _); auto; try congruence.
  exists sta, w2. split.
  { unfold reader_pass. rewrite Hit. cbn [snd]. fold sta. rewrite Hit2.
    reflexivity. }
  split; [apply delivered_wait|].
  destruct (delivered_heap st1 r1 code1 r2) as (_ & _ & _ & Hh).
  split; [unfold sta; rewrite (Hh Hne), Hst1; reflexivity|].
  split; [unfold sta; rewrite (Hh Hne), Hst1; reflexivity|].
  split; [exact Hla|]. split; [assumption|]. rewrite Q2, P4. reflexivity.
Qed.

Lemma reader_thrd_second_response_lost_witness :
  exists st' w',
    reader_pass 9 cmd_addr_r
      (reader_pass 9 cmd_addr_r
         (three_waiting,
          incoming (response_frame 41 0 ++ response_frame 42 5
                      ++ repeat x41 5 ++ print_frame) 3))
    = (st', w')
    /\ iiod_reader_wait_for_response st' 1%nat
       = Some (cmd_code (decode_cmd (response_frame 41 0)),
               with_reader st' 1%nat (set_r_done false))
    /\ r_done (heap st' 2%nat) = r_done (heap three_waiting 2%nat)
    /\ r_io (heap st' 2%nat) = r_io (heap three_waiting 2%nat)
    /\ waiters_list 9 st' = Some []
    /\ inbox (w_tr w') = print_frame
    /\ discarded (w_log w')
       = discarded
           (w_log (incoming (response_frame 41 0 ++ response_frame 42 5
                               ++ repeat x41 5 ++ print_frame) 3))
         + cmd_code (decode_cmd (response_frame 42 5)).
Proof.
  apply (reader_thrd_second_response_lost 9 cmd_addr_r three_waiting
           (incoming (response_frame 41 0 ++ response_frame 42 5
                        ++ repeat x41 5 ++ print_frame) 3)
           1%nat 2%nat [3%nat] (response_frame 41 0) (response_frame 42 5)
           (repeat x41 5) print_frame).
  - reflexivity.
  - reflexivity.
  - reflexivity.
  - left. reflexivity.
  - cbn. lia.
  - reflexivity.
  - reflexivity.
  - reflexivity.
  - reflexivity.
  - reflexivity.
  - reflexivity.
  - lia.
  - vm_compute. discriminate.
Defined.

(* ------------------------------------------------------------------ *)
(** ** The transfer loop stays inside its array *)

Lemma rw_loop_in_bounds T (ops : iiod_responder_ops T) bytes is_read :
  transport_bounded ops ->
  forall fuel (w : world T) curr nb count,
    sizes_ok curr ->
    1 <= nb <= Z.of_nat (length curr) -> nb < 2 ^ 64 ->
    fst (rw_loop T ops fuel bytes is_read w curr nb count) <> Undefined.
Proof.
  intros Hbd. induction fuel as [|fuel IH];
    intros w curr nb count Hok Hnb Hnb64; [discriminate|].
  destruct curr as [|c rest]; [cbn [length] in Hnb; lia|].
  (* one iteration, once the cap has been applied *)
  assert (Hiter : forall c0 nb0,
             sizes_ok (c0 :: rest) ->
             1 <= nb0 <= Z.of_nat (length (c0 :: rest)) -> nb0 < 2 ^ 64 ->
             (is_read = true -> to_size_t (bytes - count) <= size c0 ->
              to_size_t (bytes - count) = size c0 /\ nb0 = 1) ->
             fst (rw_loop T ops (S fuel) bytes is_read w (c0 :: rest) nb0 count)
             <> Undefined).
  { intros c0 nb0 Hok0 Hnb0 Hnb064 Htr.
    set (bufs := firstn (Z.to_nat nb0) (c0 :: rest)).
    assert (Hbufs : sizes_ok bufs) by (apply sizes_ok_firstn; assumption).
    destruct (if is_read then do_read T ops w bufs else do_write T ops w bufs)
      as [ret w1] eqn:Eio.
    assert (Hb : ret <= capacity bufs /\ ret < 2 ^ 63).
    { destruct Hbd as [Hbr Hbw]. destruct is_read.
      - specialize (Hbr (w_tr w) (w_mem w) bufs Hbufs).
        unfold do_read in Eio.
        destruct (op_read ops (w_tr w) (w_mem w) bufs) as [[ret' t'] m'].
        inversion Eio; subst. exact Hbr.
      - specialize (Hbw (w_tr w) (w_mem w) bufs Hbufs).
        unfold do_write in Eio.
        destruct (op_write ops (w_tr w) (w_mem w) bufs) as [ret' t'].
        inversion Eio; subst. exact Hbw. }
    destruct (Z_le_gt_dec ret 0) as [Hle|Hgt].
    - rewrite rw_loop_step. cbv zeta.
      set (trunc := is_read && (to_size_t (bytes - count) <=? size c0)).
      assert (Hsame : (if trunc then set_size c0 (to_size_t (bytes - count))
                       else c0) = c0
                      /\ (if trunc then 1 else nb0) = nb0).
      { destruct trunc eqn:Et; [|split; reflexivity].
        unfold trunc in Et. apply andb_prop in Et. destruct Et as [Er Et].
        apply Z.leb_le in Et. destruct (Htr Er Et) as [E1 E2].
        rewrite E1, E2. destruct c0; split; reflexivity. }
      destruct Hsame as [E1 E2]. rewrite E1, E2.
      destruct (Z.of_nat (length (c0 :: rest)) <? nb0) eqn:El;
        [apply Z.ltb_lt in El; lia|].
      fold bufs. rewrite Eio.
      apply Z.leb_le in Hle. rewrite Hle. discriminate.
    - destruct (rw_loop_iteration T ops fuel bytes is_read w c0 rest nb0 count
                  ret w1)
        as [[Hr _] | (curr' & nb' & Hr & H1 & H2 & H3 & _)];
        auto; try (fold bufs; lia).
      + rewrite Hr. discriminate.
      + rewrite Hr. apply IH; auto; lia. }
  destruct (is_read && (to_size_t (bytes - count) <=? size c)) eqn:Et.
  - apply andb_prop in Et. destruct Et as [Er Et]. subst is_read.
    apply Z.leb_le in Et. rewrite rw_loop_cap by assumption.
    pose proof (to_size_t_range (bytes - count)) as Hr.
    inversion Hok as [|c' rest' Hc Hrest]; subst.
    apply Hiter.
    + constructor; [cbn [set_size size]; lia | assumption].
    + cbn [length] in *. lia.
    + lia.
    + intros _ _. cbn [set_size size]. split; reflexivity.
  - apply Hiter; auto.
    intros Er Hle. apply Z.leb_le in Hle. rewrite Er, Hle in Et. discriminate.
Qed.

(** X25: over a transport that never reports more bytes than the
    descriptors it was handed can hold, and for a caller's array that
    holds the descriptors it announces, [iiod_rw_all] never looks at a
    descriptor outside its working array, however long it runs: the
    walk over the descriptors stays inside the entries that were copied
    in. *)
Theorem iiod_rw_all_in_bounds T (ops : iiod_responder_ops T) fuel
    (w : world T) cmd_buf bufs nb bytes is_read :
  transport_bounded ops ->
  0 <= nb < 2 ^ 64 ->
  descriptors_ok cmd_buf bufs nb ->
  fst (iiod_rw_all T ops fuel w cmd_buf bufs nb bytes is_read) <> Undefined.
Proof.
  intros Hbd Hnb Hd.
  destruct (Z_le_gt_dec (effective_nb cmd_buf nb) 0) as [H0|H0].
  - rewrite iiod_rw_all_invalid; [discriminate | assumption|].
    left. unfold effective_nb in *. destruct cmd_buf; lia.
  - destruct (Z_le_gt_dec (effective_nb cmd_buf nb) 32) as [H32|H32].
    + destruct (iiod_rw_all_loop T ops fuel w cmd_buf bufs nb bytes is_read
                  Hnb ltac:(lia) Hd) as (E & Hlen & Hok).
      rewrite E. apply rw_loop_in_bounds; auto; lia.
    + rewrite iiod_rw_all_invalid; [discriminate | assumption|].
      right. lia.
Qed.

Lemma iiod_rw_all_in_bounds_witness :
  fst (iiod_rw_all stream stream_ops 8 (incoming error_frame 3) None
         (Some [{| ptr := cmd_addr; size := 8 |}]) 1 8 true)
  <> Undefined.
Proof.
  apply (iiod_rw_all_in_bounds stream stream_ops 8 (incoming error_frame 3)
           None (Some [{| ptr := cmd_addr; size := 8 |}]) 1 8 true).
  - exact stream_ops_bounded.
  - lia.
  - split; [exact I|]. split; [cbn; lia|].
    repeat constructor; cbn; lia.
Defined.

(* ------------------------------------------------------------------ *)
(** ** A refused descriptor count taken for a byte count *)

(** X26: a response with a payload for a waiter whose buffer pointer is
    set but whose descriptor count is 0 or more than 32.  [iiod_rw_all]
    refuses the count with the positive [EINVAL] and reads nothing; the
    reader thread takes that value for a number of bytes read, so that,
    for a code above [EINVAL], it discards [code - EINVAL] payload bytes
    and leaves the last [EINVAL] bytes of the payload on the stream, in
    front of the next frame.  No payload byte is stored, and the waiter
    is woken with the code. *)
Theorem reader_thrd_refused_count_response fuel st (w : world stream) cmd_ptr
    hdr payload rest l1 reader l2 bufs nb :
  0 < chunk (w_tr w) < 2 ^ 63 ->
  inbox (w_tr w) = hdr ++ payload ++ rest -> length hdr = 8%nat ->
  cmd_op (decode_cmd hdr) = IIOD_OP_RESPONSE ->
  Z.of_nat (length payload) = cmd_code (decode_cmd hdr) ->
  waiters_list fuel st = Some (l1 ++ reader :: l2) ->
  Forall (fun p => client_id (heap st p) <> cmd_client_id (decode_cmd hdr))
         l1 ->
  client_id (heap st reader) = cmd_client_id (decode_cmd hdr) ->
  buf (r_io (heap st reader)) = Some bufs ->
  nb_buf (r_io (heap st reader)) = nb ->
  nb = 0 \/ 32 < nb < 2 ^ 64 ->
  EINVAL < cmd_code (decode_cmd hdr) ->
  (8 < fuel)%nat -> cmd_code (decode_cmd hdr) <= Z.of_nat fuel ->
  exists st' w',
    reader_thrd_iteration stream stream_ops fuel cmd_ptr (st, w)
    = (Ret (Continue, EINVAL), (st', w'))
    /\ w_mem w' = store_bytes (w_mem w) cmd_ptr hdr
    /\ discarded (w_log w')
       = discarded (w_log w) + (cmd_code (decode_cmd hdr) - EINVAL)
    /\ inbox (w_tr w')
       = skipn (Z.to_nat (cmd_code (decode_cmd hdr) - EINVAL)) payload ++ rest
    /\ length (skipn (Z.to_nat (cmd_code (decode_cmd hdr) - EINVAL)) payload)
       = Z.to_nat EINVAL
    /\ exists st'',
         iiod_reader_wait_for_response st' reader
         = Some (cmd_code (decode_cmd hdr), st'').
Proof.
  intros Hch Hin Hlen Hop Hpl Hl Hall Hid Hbuf Hnb Hcount Hbig Hfuel Hfuel'.
  destruct (reader_thrd_iteration_response fuel st w cmd_ptr hdr
              (payload ++ rest) l1 reader l2 Hch Hin Hlen Hop Hl Hall Hid
              Hfuel)
    as (w1 & st1 & evs & _ & _ & Hf & M1 & M2 & M3 & M4 & M5 & M6 & M7 & Heq).
  rewrite Heq. cbv zeta.
  cbn [with_reader heap]. rewrite upd_same.
  set (code := cmd_code (decode_cmd hdr)) in *.
  set (rio := r_io (set_r_io (set_io_code (r_io (heap st1 reader)) code)
                             (heap st1 reader))).
  assert (Hrio : buf rio = Some bufs /\ nb_buf rio = nb).
  { unfold rio. destruct (Hf reader) as [n Hn]. rewrite Hn.
    cbn [set_r_io set_r_next r_io set_io_code buf nb_buf]. split; assumption. }
  destruct Hrio as [Hb Hn].
  pose proof (decode_cmd_code_range hdr) as Hcr. fold code in Hcr.
  assert (HE : EINVAL = 22) by reflexivity.
  destruct (stream_discard_all fuel w1 (code - EINVAL))
    as (w2 & evd & Hd & D1 & D2 & D3 & D4 & D5 & D6 & D7 & D8);
    try rewrite M4; try lia.
  { rewrite M2, length_app. lia. }
  assert (Hpay : reader_thrd_payload stream stream_ops fuel w1 rio code 8
                 = (Ret EINVAL, w2)).
  { unfold reader_thrd_payload. rewrite Hb, Hn.
    assert (E : (0 <? code) = true) by (apply Z.ltb_lt; lia). rewrite E.
    assert (Hinv : effective_nb None nb = 0 \/ 32 < effective_nb None nb)
      by (unfold effective_nb; lia).
    rewrite iiod_rw_all_invalid by (assumption || lia).
    cbn [obind].
    rewrite (to_size_t_small EINVAL), (to_size_t_small code),
      (to_size_t_small (code - EINVAL)) by lia.
    assert (E1 : (0 <? EINVAL) && (EINVAL <? code) = true).
    { apply andb_true_iff. split; apply Z.ltb_lt; lia. }
    rewrite E1, Hd. reflexivity. }
  rewrite Hpay. cbn [on_world obind fst snd].
  eexists _, _. split; [reflexivity|].
  assert (Hw3 : forall w3,
             w3 = match cleanup_cb rio with
                  | Some cb =>
                      if negb (nb_buf rio =? 0)
                      then do_cleanup stream w2 cb (cleanup_cb_d rio) EINVAL
                      else w2
                  | None => w2
                  end ->
             w_tr w3 = w_tr w2 /\ w_mem w3 = w_mem w2
             /\ discarded (w_log w3) = discarded (w_log w2)).
  { intros w3 ->. destruct (cleanup_cb rio); [|repeat split; reflexivity].
    destruct (negb (nb_buf rio =? 0)); [|repeat split; reflexivity].
    cbn [do_cleanup w_tr w_mem w_log]. rewrite discarded_app.
    repeat split; cbn; lia. }
  destruct (Hw3 _ eq_refl) as (Ht & Hm & Hdd). rewrite Ht, Hm, Hdd.
  split; [rewrite D1, M1; reflexivity|].
  split.
  { rewrite D6, discarded_app, (discarded_discards _ D7), D8.
    rewrite M6, discarded_app, (discarded_reads _ M7). lia. }
  split.
  { rewrite D2, M2, skipn_app.
    replace (Z.to_nat (code - EINVAL) - length payload)%nat with 0%nat by lia.
    rewrite skipn_O. reflexivity. }
  split; [rewrite length_skipn; lia|].
  unfold iiod_reader_wait_for_response, wait_for_response.
  cbn [with_reader heap]. rewrite !upd_same.
  cbn [set_r_done r_done]. eexists. f_equal. f_equal.
  cbn [with_reader heap]. rewrite !upd_same. reflexivity.
Qed.

Lemma reader_thrd_refused_count_response_witness :
  exists st' w',
    reader_thrd_iteration stream stream_ops 32 cmd_addr
      (one_waiting (Some []) 0,
       incoming (response_frame 42 30 ++ repeat x41 30 ++ print_frame) 8)
    = (Ret (Continue, EINVAL), (st', w'))
    /\ discarded (w_log w') = 8
    /\ inbox (w_tr w') = repeat x41 22 ++ print_frame
    /\ exists st'',
         iiod_reader_wait_for_response st' 1%nat = Some (30, st'').
Proof.
  destruct (reader_thrd_refused_count_response 32
              (one_waiting (Some []) 0)
              (incoming (response_frame 42 30 ++ repeat x41 30 ++ print_frame)
                        8)
              cmd_addr (response_frame 42 30) (repeat x41 30) print_frame
              [] 1%nat [] [] 0)
    as (st' & w' & H1 & _ & H3 & H4 & _ & H6).
  - cbn. lia.
  - reflexivity.
  - reflexivity.
  - reflexivity.
  - reflexivity.
  - vm_compute. reflexivity.
  - constructor.
  - reflexivity.
  - reflexivity.
  - reflexivity.
  - left. reflexivity.
  - vm_compute. reflexivity.
  - lia.
  - vm_compute. discriminate.
  - exists st', w'. split; [exact H1|]. split; [rewrite H3; reflexivity|].
    split; [rewrite H4; reflexivity | exact H6].
Defined.
